(** * Bantah: identity bridging, wallet guards and notification ownership

    A shallow embedding of the behavioural core of the application:
    - [server/privyAuth.ts]: [getInitialsFromEmail], [upsertPrivyUser] and
      [PrivyAuthMiddleware];
    - [client/src/pages/WalletPage.tsx]: [handleWithdraw], [handleSwap] and the
      conversion preview;
    - [client/src/pages/Challenges.tsx] and the challenge card: the create and
      decline requests;
    - the notification router: the mark-as-read and delete handlers.

    JavaScript strings are modelled as [string] (one [ascii] per code unit of
    the ASCII range, which is all the string functions below inspect),
    optional fields as [option], database tables as finite maps or lists, and
    handlers as functions in a small state-and-exception monad. *)

From stdpp Require Import base option list strings gmap fin_maps numbers pretty.
From Stdlib Require Import Ascii String QArith Qcanon.
From Stdlib Require Import Sorted.
From Stdlib Require Import SpecFloat Qpower Lqa.

Local Close Scope Qc_scope.
Local Close Scope Q_scope.
Local Open Scope string_scope.

(** ** JavaScript values used by the sources *)

Module JS.

(** Truthiness of an optional string: [undefined], [null] and the empty
    string are falsy. *)
Definition truthy (v : option string) : bool :=
  match v with
  | Some (String _ _) => true
  | _ => false
  end.

(** [a || b] on optional strings. *)
Definition or (a b : option string) : option string :=
  if truthy a then a else b.

(** [a || d] where the right operand is a string that is always there. *)
Definition orDefault (a : option string) (d : string) : string :=
  match a with
  | Some (String c s) => String c s
  | _ => d
  end.

Definition isLower (c : ascii) : bool :=
  let n := nat_of_ascii c in (97 <=? n)%nat && (n <=? 122)%nat.

Definition isUpper (c : ascii) : bool :=
  let n := nat_of_ascii c in (65 <=? n)%nat && (n <=? 90)%nat.

Definition isDigit (c : ascii) : bool :=
  let n := nat_of_ascii c in (48 <=? n)%nat && (n <=? 57)%nat.

(** The character class [[a-z0-9]] under the [i] flag. Without the [u] flag
    case-insensitive matching never equates a code unit outside ASCII with
    one inside, so the class is exactly the ASCII letters and digits. *)
Definition isAlnum (c : ascii) : bool := isLower c || isUpper c || isDigit c.

Definition upperChar (c : ascii) : ascii :=
  if isLower c then ascii_of_nat (nat_of_ascii c - 32) else c.

(** [s.toUpperCase()], on the ASCII range. *)
Fixpoint toUpperCase (s : string) : string :=
  match s with
  | EmptyString => EmptyString
  | String c s' => String (upperChar c) (toUpperCase s')
  end.

(** [s.split(d)[0]] for a one-character separator [d]: the text before the
    first occurrence of [d], or all of [s]. *)
Fixpoint splitHead (d : ascii) (s : string) : string :=
  match s with
  | EmptyString => EmptyString
  | String c s' => if Ascii.eqb c d then EmptyString else String c (splitHead d s')
  end.

(** [s.split(/[^a-z0-9]+/i)]. [cur] is the piece being read and [inSep]
    tells that the previous character belonged to a separator run. As in
    JavaScript a separator at either end leaves an empty piece there, and
    the empty string splits into one empty piece. *)
Fixpoint splitNonAlnumFrom (cur : string) (inSep : bool) (s : string) : list string :=
  match s with
  | EmptyString => [cur]
  | String c s' =>
      if isAlnum c then splitNonAlnumFrom (cur +:+ String c EmptyString) false s'
      else if inSep then splitNonAlnumFrom cur true s'
      else cur :: splitNonAlnumFrom EmptyString true s'
  end.

Definition splitNonAlnum (s : string) : list string :=
  splitNonAlnumFrom EmptyString false s.

Definition nonEmpty (s : string) : bool :=
  match s with EmptyString => false | String _ _ => true end.

(** [parts.filter(Boolean)] on an array of strings. *)
Definition filterBoolean (parts : list string) : list string :=
  List.filter nonEmpty parts.

(** [s[0]] as a string, for a non-empty [s]. *)
Definition charAt0 (s : string) : string := substring 0 1 s.

(** [s.slice(0, n)]. *)
Definition sliceTo (n : nat) (s : string) : string := substring 0 n s.

(** [s.slice(-n)]: the last [n] characters, or all of [s] when it is
    shorter. *)
Definition sliceLast (n : nat) (s : string) : string :=
  substring (String.length s - n) n s.

(** [s.replace(pat, '')] with a string pattern: only the first occurrence,
    wherever it is, is removed. *)
Fixpoint removeFirst (pat s : string) : string :=
  if String.prefix pat s then substring (String.length pat) (String.length s) s
  else match s with
       | EmptyString => EmptyString
       | String c s' => String c (removeFirst pat s')
       end.

End JS.

(** ** [server/privyAuth.ts]: the initials heuristic *)

Module Initials.
Import JS.

Definition getInitialsFromEmail (email : option string) : string :=
  match email with
  | None => ""
  | Some EmptyString => ""
  | Some e =>
      let local := splitHead "@" e in
      let parts := filterBoolean (splitNonAlnum local) in
      match parts with
      | p0 :: p1 :: _ => toUpperCase (charAt0 p0 +:+ charAt0 p1)
      | [p] => toUpperCase (sliceTo 2 p)
      | [] => ""
      end
  end.

End Initials.

(** ** A state-and-exception monad for handlers

    A handler runs against a store of type [S]; it either returns a value or
    throws, and in both cases leaves a store behind. [tryCatch] is the
    [try { ... } catch (e) { ... }] block. *)

Module Eff.

Inductive Outcome (S A : Type) : Type :=
  | Return (a : A) (s : S)
  | Throw (e : string) (s : S).
Arguments Return {S A} a s.
Arguments Throw {S A} e s.

Definition M (S A : Type) : Type := S -> Outcome S A.

Definition ret {S A} (a : A) : M S A := fun s => Return a s.

Definition throw {S A} (e : string) : M S A := fun s => Throw e s.

Definition bind {S A B} (m : M S A) (k : A -> M S B) : M S B :=
  fun s => match m s with
           | Return a s' => k a s'
           | Throw e s' => Throw e s'
           end.

Definition tryCatch {S A} (body : M S A) (handler : string -> M S A) : M S A :=
  fun s => match body s with
           | Return a s' => Return a s'
           | Throw e s' => handler e s'
           end.

Definition finalStore {S A} (o : Outcome S A) : S :=
  match o with Return _ s => s | Throw _ s => s end.

(** The store after [n] successive runs of [m]. *)
Fixpoint afterRuns {S A} (n : nat) (m : M S A) (s : S) : S :=
  match n with
  | O => s
  | Datatypes.S n' => afterRuns n' m (finalStore (m s))
  end.

End Eff.

Notation "'let*' x ':=' m 'in' k" := (Eff.bind m (fun x => k))
  (at level 10, x name, m at level 100, k at level 200).

(** ** [server/privyAuth.ts]: data *)

(** A row of the users table, with the columns this flow reads or writes. *)
Module User.
Record t : Type := make {
    id : string;
    email : option string;
    password : string;
    firstName : option string;
    lastName : option string;
    username : option string;
    profileImageUrl : option string;
    isAdmin : bool;
    telegramId : option string;
    telegramUsername : option string;
    isTelegramUser : bool
  }.
End User.

(** The argument of [storage.upsertUser]. *)
Module UpsertUser.
Record t : Type := make {
    id : string;
    email : string;
    password : string;
    firstName : string;
    lastName : string;
    username : string;
    profileImageUrl : option string
  }.
End UpsertUser.

(** The argument of [storage.updateUserTelegramInfo]. *)
Module TelegramInfo.
Record t : Type := make {
    telegramId : string;
    telegramUsername : string;
    isTelegramUser : bool
  }.
End TelegramInfo.

(** An entry of [verifiedClaims.linkedAccounts]. *)
Module LinkedAccount.
Record t : Type := make {
    type : string;
    telegramUserId : option string;
    telegramUsername : option string
  }.
End LinkedAccount.

(** The claims object returned by the identity provider; every field may be
  missing. *)
Module Claims.
Record t : Type := make {
    userId : option string;
    sub : option string;
    email : option string;
    given_name : option string;
    name : option string;
    family_name : option string;
    picture : option string;
    linkedAccounts : option (list LinkedAccount.t)
  }.

(** [verifiedClaims.userId || verifiedClaims.sub], [None] when falsy. *)
Definition resolvedId (c : t) : option string :=
  if JS.truthy (userId c) then userId c
  else if JS.truthy (sub c) then sub c
  else None.
End Claims.

(** The interface of the [storage] object, as [privyAuth.ts] uses it. Each
  call may return a row, return nothing, or throw. *)
Class Storage (DB : Type) : Type := {
  getUser : string -> Eff.M DB (option User.t);
  getUserByEmail : string -> Eff.M DB (option User.t);
  upsertUser : UpsertUser.t -> Eff.M DB (option User.t);
  updateUserTelegramInfo : string -> TelegramInfo.t -> Eff.M DB (option User.t)
}.

(** ** [server/privyAuth.ts]: the user upsert service *)

Module PrivyAuth.
Import JS Eff Initials.

Section WithStorage.
Context {DB : Type} `{Storage DB}.

Definition getUserFromDb (userId : string) : M DB (option User.t) :=
  tryCatch (getUser userId) (fun _ => ret None).

Definition isTelegram (account : LinkedAccount.t) : bool :=
  String.eqb (LinkedAccount.type account) "telegram".

(** [verifiedClaims.email?.split('@')[0] || `user_${userId.slice(-8)}`]. *)
Definition newUsername (userId : string) (verifiedClaims : Claims.t) : string :=
  orDefault (option_map (splitHead "@") (Claims.email verifiedClaims))
            ("user_" +:+ sliceLast 8 userId).

(** [getInitialsFromEmail(verifiedClaims.email) || 'User']. *)
Definition fallbackFirstName (verifiedClaims : Claims.t) : string :=
  orDefault (Some (getInitialsFromEmail (Claims.email verifiedClaims))) "User".

(** The object literal passed to [storage.upsertUser] (lines 71-79). *)
Definition newUser (userId email : string) (verifiedClaims : Claims.t) : UpsertUser.t :=
  {| UpsertUser.id := userId;
     UpsertUser.email := email;
     UpsertUser.password := "PRIVY_AUTH_USER";
     UpsertUser.firstName :=
       orDefault (JS.or (Claims.given_name verifiedClaims) (Claims.name verifiedClaims))
                 (fallbackFirstName verifiedClaims);
     UpsertUser.lastName := orDefault (Claims.family_name verifiedClaims) "User";
     UpsertUser.username := newUsername userId verifiedClaims;
     UpsertUser.profileImageUrl := Claims.picture verifiedClaims |}.

(** [verifiedClaims.linkedAccounts.find(account => account.type ===
    'telegram')], under the guard [if (verifiedClaims.linkedAccounts)]:
    the first account of that type, if any. *)
Definition telegramAccount (verifiedClaims : Claims.t) : option LinkedAccount.t :=
  match Claims.linkedAccounts verifiedClaims with
  | Some accounts => List.find isTelegram accounts
  | None => None
  end.

(** The object literal passed to [storage.updateUserTelegramInfo]
    (lines 90-94). *)
Definition telegramInfo (telegramAccount : LinkedAccount.t) (telegramUserId : string)
    : TelegramInfo.t :=
  {| TelegramInfo.telegramId := telegramUserId;
     TelegramInfo.telegramUsername :=
       orDefault (LinkedAccount.telegramUsername telegramAccount)
                 ("tg_" +:+ telegramUserId);
     TelegramInfo.isTelegramUser := true |}.

(** Lines 83-100: the Telegram linkage and the final [return dbUser].
    [dbUser.telegramId] on an undefined [dbUser] raises a TypeError. *)
Definition linkTelegram (userId : string) (verifiedClaims : Claims.t)
    (dbUser : option User.t) : M DB (option User.t) :=
  match telegramAccount verifiedClaims with
  | None => ret dbUser
  | Some account =>
      match LinkedAccount.telegramUserId account with
      | Some (String c r as telegramUserId) =>
          match dbUser with
          | None => throw "TypeError"
          | Some u =>
              if truthy (User.telegramId u) then ret dbUser
              else updateUserTelegramInfo userId (telegramInfo account telegramUserId)
          end
      | _ => ret dbUser
      end
  end.

(** [upsertPrivyUser(verifiedClaims)]. Line 56 recomputes
    [verifiedClaims.userId || verifiedClaims.sub]; the only caller has
    just checked that value to be truthy, and it is passed here as
    [userId]. The [catch] block logs and rethrows. *)
Definition upsertPrivyUser (userId : string) (verifiedClaims : Claims.t)
    : M DB (option User.t) :=
  tryCatch
    (let* dbUser := getUserFromDb userId in
     match dbUser with
     | Some _ => linkTelegram userId verifiedClaims dbUser
     | None =>
         let email := orDefault (Claims.email verifiedClaims) (userId +:+ "@privy.user") in
         let* existingByEmail := getUserByEmail email in
         match existingByEmail with
         | Some _ => ret existingByEmail
         | None =>
             let* created := upsertUser (newUser userId email verifiedClaims) in
             linkTelegram userId verifiedClaims created
         end
     end)
    (fun error => throw error).

End WithStorage.
End PrivyAuth.

(** ** [server/privyAuth.ts]: the authentication middleware *)

(** The normalized identity attached to the request (lines 147-160). *)
Module Identity.
Record claims : Type := makeClaims {
    sub : string;
    claimsEmail : option string;
    first_name : option string;
    last_name : option string
  }.
Record t : Type := make {
    id : string;
    email : string;
    firstName : option string;
    lastName : option string;
    username : option string;
    isAdmin : bool;
    claims_ : claims
  }.
End Identity.

Module Http.

(** What [req.user] holds: the user object a session put there, or the
    identity the middleware builds. *)
Inductive ReqUser : Type :=
  | SessionUser (u : User.t)
  | PrivyUser (i : Identity.t).

(** The parts of the request the middleware reads. [isAuthenticated] is
    [None] when the request has no such method and otherwise the result of
    calling it. *)
Record Request : Type := makeRequest {
    authorization : option string;
    isAuthenticated : option bool;
    user : option ReqUser
  }.

(** How a middleware ends: it calls [next()] with the request as it has
    left it, or it answers [res.status(code).json({ message })]. *)
Inductive Response : Type :=
  | Next (req : Request)
  | Json (status : nat) (message : string).

End Http.

Module Middleware.
Import JS Eff Http.

(** The status code of a rejection; [None] for a request passed on. *)
Definition statusOf (r : Response) : option nat :=
  match r with
  | Next _ => None
  | Json status _ => Some status
  end.

(** The ending a response stands for. *)
Inductive Ending : Type :=
  | Accept
  | MissingCredential
  | InvalidCredential
  | InternalError.

Definition endingOf (r : Response) : option Ending :=
  match r with
  | Next _ => Some Accept
  | Json status message =>
      if (status =? 401)%nat then
        if String.eqb message "Authorization header missing" then Some MissingCredential
        else if String.eqb message "Invalid token or user ID not found"
        then Some InvalidCredential
        else None
      else if (status =? 500)%nat then Some InternalError
      else None
  end.

(** The status code that goes with an ending. *)
Definition statusFor (e : Ending) : option nat :=
  match e with
  | Accept => None
  | MissingCredential => Some 401
  | InvalidCredential => Some 401
  | InternalError => Some 500
  end.

Definition responseOf {DB : Type} (o : Outcome DB Response) : option Response :=
  match o with
  | Return r _ => Some r
  | Throw _ _ => None
  end.

Section WithCollaborators.
Context {DB : Type} `{Storage DB}.

(** [privyClient.verifyAuthToken] of the identity provider's SDK: the
    verified claims, a null result, or a thrown error. *)
Variable verifyAuthToken : string -> option Claims.t + string.

(** [verifyPrivyToken]: a thrown error is logged and becomes [null]. *)
Definition verifyPrivyToken (token : string) : option Claims.t :=
  match verifyAuthToken token with
  | inl verifiedClaims => verifiedClaims
  | inr _ => None
  end.

Definition attach (req : Request) (dbUser : User.t) : Request :=
  {| authorization := authorization req;
     isAuthenticated := isAuthenticated req;
     user := Some (PrivyUser
       {| Identity.id := User.id dbUser;
          Identity.email := orDefault (User.email dbUser) "";
          Identity.firstName := User.firstName dbUser;
          Identity.lastName := User.lastName dbUser;
          Identity.username := User.username dbUser;
          Identity.isAdmin := User.isAdmin dbUser;
          Identity.claims_ :=
            {| Identity.sub := User.id dbUser;
               Identity.claimsEmail := User.email dbUser;
               Identity.first_name := User.firstName dbUser;
               Identity.last_name := User.lastName dbUser |} |}) |}.

(** Lines 111-123: [true] when the session fallback calls [next()]. *)
Definition sessionFallback (req : Request) : bool :=
  negb (truthy (authorization req))
  && match isAuthenticated req with Some true => true | _ => false end
  && match user req with Some _ => true | None => false end.

(** Lines 129-166, for a request whose header is [authHeader]. *)
Definition tokenAuth (req : Request) (authHeader : string) : M DB Response :=
  let token := removeFirst "Bearer " authHeader in
  tryCatch
    (let verifiedClaims := verifyPrivyToken token in
     match verifiedClaims, mbind Claims.resolvedId verifiedClaims with
     | Some verifiedClaims, Some userId =>
         let* dbUser := PrivyAuth.upsertPrivyUser userId verifiedClaims in
         match dbUser with
         | None => ret (Json 500 "Failed to create or retrieve user")
         | Some dbUser => ret (Next (attach req dbUser))
         end
     | _, _ => ret (Json 401 "Invalid token or user ID not found")
     end)
    (fun _ => ret (Json 500 "Internal server error during authentication")).

Definition PrivyAuthMiddleware (req : Request) : M DB Response :=
  if sessionFallback req then ret (Next req)
  else
    match authorization req with
    | Some (String c r as authHeader) => tokenAuth req authHeader
    | _ => ret (Json 401 "Authorization header missing")
    end.

(** The four ways a request ends, each with the condition under which it
    is reached, stated on the fields of the request, on what the verifier
    answers and on what the upsert service does. [bearer req h]: the request
    carries the non-empty authorization header [h]. *)
Definition bearer (req : Request) (h : string) : Prop :=
  authorization req = Some h /\ h <> "".

(** The request has no authorization header, or an empty one. *)
Definition noHeader (req : Request) : Prop :=
  authorization req = None \/ authorization req = Some "".

(** The request belongs to a live session: it has the method
    [isAuthenticated], the call answers true, and [req.user] is set. *)
Definition liveSession (req : Request) : Prop :=
  isAuthenticated req = Some true /\ exists sessionUser, user req = Some sessionUser.

(** Accepted: a live session without a header, or a header whose token is
    verified, names a subject, and for which the upsert service returns a
    user. *)
Definition Accepts (req : Request) (db : DB) : Prop :=
  (noHeader req /\ liveSession req)
  \/ (exists h verifiedClaims userId dbUser db',
        bearer req h
        /\ verifyPrivyToken (removeFirst "Bearer " h) = Some verifiedClaims
        /\ Claims.resolvedId verifiedClaims = Some userId
        /\ PrivyAuth.upsertPrivyUser userId verifiedClaims db = Return (Some dbUser) db').

(** Missing credential: neither a header nor a live session. *)
Definition RejectsMissing (req : Request) : Prop :=
  noHeader req /\ ~ liveSession req.

(** Invalid credential: a header whose token is not verified, or whose
    claims name no subject. *)
Definition RejectsInvalid (req : Request) : Prop :=
  exists h,
    bearer req h
    /\ (verifyPrivyToken (removeFirst "Bearer " h) = None
        \/ exists verifiedClaims,
             verifyPrivyToken (removeFirst "Bearer " h) = Some verifiedClaims
             /\ Claims.resolvedId verifiedClaims = None).

(** Internal error: a verified token with a subject for which the upsert
    service returns no user or throws. *)
Definition RejectsInternal (req : Request) (db : DB) : Prop :=
  exists h verifiedClaims userId,
    bearer req h
    /\ verifyPrivyToken (removeFirst "Bearer " h) = Some verifiedClaims
    /\ Claims.resolvedId verifiedClaims = Some userId
    /\ ((exists db', PrivyAuth.upsertPrivyUser userId verifiedClaims db = Return None db')
        \/ (exists e db', PrivyAuth.upsertPrivyUser userId verifiedClaims db = Throw e db')).

(** The response of the middleware stands for the ending [e]. *)
Definition endsAs (req : Request) (db : DB) (e : Ending) : Prop :=
  exists r, responseOf (PrivyAuthMiddleware req db) = Some r /\ endingOf r = Some e.

End WithCollaborators.

End Middleware.

(** ** The users table *)

(** Modelled from the spec: the [storage] module ([./storage]) is missing
    from the sources. The users table is a finite map from the identifier to
    the row ("User is the root entity", created on the first successful
    verification, mutated when a secondary identity is discovered, never
    deleted), together with a ghost log of the statements that wrote to it. *)
Module MemStorage.
Import Eff.

(** Ghost record of the statements that changed the table. *)
Inductive Write : Type :=
  | Inserted (id : string)
  | Updated (id : string).

Record Db : Type := makeDb {
    users : gmap string User.t;
    writes : list Write
  }.

Definition hasEmail (email : string) (u : User.t) : bool :=
  bool_decide (User.email u = Some email).

Definition rows (db : Db) : list User.t := (map_to_list (users db)).*2.

Definition insertRow (nu : UpsertUser.t) : User.t :=
  {| User.id := UpsertUser.id nu;
     User.email := Some (UpsertUser.email nu);
     User.password := UpsertUser.password nu;
     User.firstName := Some (UpsertUser.firstName nu);
     User.lastName := Some (UpsertUser.lastName nu);
     User.username := Some (UpsertUser.username nu);
     User.profileImageUrl := UpsertUser.profileImageUrl nu;
     User.isAdmin := false;
     User.telegramId := None;
     User.telegramUsername := None;
     User.isTelegramUser := false |}.

Definition updateRow (nu : UpsertUser.t) (old : User.t) : User.t :=
  {| User.id := User.id old;
     User.email := Some (UpsertUser.email nu);
     User.password := UpsertUser.password nu;
     User.firstName := Some (UpsertUser.firstName nu);
     User.lastName := Some (UpsertUser.lastName nu);
     User.username := Some (UpsertUser.username nu);
     User.profileImageUrl := UpsertUser.profileImageUrl nu;
     User.isAdmin := User.isAdmin old;
     User.telegramId := User.telegramId old;
     User.telegramUsername := User.telegramUsername old;
     User.isTelegramUser := User.isTelegramUser old |}.

Definition setTelegram (info : TelegramInfo.t) (old : User.t) : User.t :=
  {| User.id := User.id old;
     User.email := User.email old;
     User.password := User.password old;
     User.firstName := User.firstName old;
     User.lastName := User.lastName old;
     User.username := User.username old;
     User.profileImageUrl := User.profileImageUrl old;
     User.isAdmin := User.isAdmin old;
     User.telegramId := Some (TelegramInfo.telegramId info);
     User.telegramUsername := Some (TelegramInfo.telegramUsername info);
     User.isTelegramUser := TelegramInfo.isTelegramUser info |}.

(** Modelled from the spec: the [storage] module ([./storage]) is missing
    from the sources. The users table is a finite map from the identifier
    to the row. [getUser] and [getUserByEmail] read a row by identifier and
    by email; [upsertUser] is update-if-exists-else-insert on the identifier
    and returns the row; [updateUserTelegramInfo] updates the row of the
    given identifier with the external id, the external username and the
    linked flag and returns it, or returns nothing when there is no such
    row. None of them throws. *)
#[global] Instance memStorage : Storage Db := {|
    getUser userId := fun db => Return (users db !! userId) db;
    getUserByEmail email := fun db => Return (List.find (hasEmail email) (rows db)) db;
    upsertUser nu := fun db =>
      let row := match users db !! UpsertUser.id nu with
                 | Some old => updateRow nu old
                 | None => insertRow nu
                 end in
      Return (Some row)
        {| users := <[UpsertUser.id nu := row]> (users db);
           writes := writes db ++
             [match users db !! UpsertUser.id nu with
              | Some _ => Updated (UpsertUser.id nu)
              | None => Inserted (UpsertUser.id nu)
              end] |};
    updateUserTelegramInfo userId info := fun db =>
      match users db !! userId with
      | Some old =>
          Return (Some (setTelegram info old))
            {| users := <[userId := setTelegram info old]> (users db);
               writes := writes db ++ [Updated userId] |}
      | None => Return None db
      end
  |}.

(** The email the service looks up and stores (line 60). *)
Definition claimsEmail (userId : string) (claims : Claims.t) : string :=
  JS.orDefault (Claims.email claims) (userId +:+ "@privy.user").

(** The row and the table after the insert of lines 71-79. *)
Definition createdRow (userId : string) (claims : Claims.t) : User.t :=
  insertRow (PrivyAuth.newUser userId (claimsEmail userId claims) claims).

Definition afterInsert (db : Db) (userId : string) (claims : Claims.t) : Db :=
  {| users := <[userId := createdRow userId claims]> (users db);
     writes := writes db ++ [Inserted userId] |}.

(** The table after the update of lines 90-94 has written [row]. *)
Definition afterLink (db : Db) (userId : string) (row : User.t) : Db :=
  {| users := <[userId := row]> (users db);
     writes := writes db ++ [Updated userId] |}.

(** A storage whose insert statement returns no row, for the failure
    paths. *)
Definition lossyStorage : Storage Db := {|
    getUser := getUser (Storage := memStorage);
    getUserByEmail := getUserByEmail (Storage := memStorage);
    upsertUser _ := ret None;
    updateUserTelegramInfo := updateUserTelegramInfo (Storage := memStorage)
  |}.

(** A storage whose every call throws, for the failure paths. *)
Definition brokenStorage : Storage Db := {|
    getUser _ := throw "connection lost";
    getUserByEmail _ := throw "connection lost";
    upsertUser _ := throw "connection lost";
    updateUserTelegramInfo _ _ := throw "connection lost"
  |}.

End MemStorage.

(** ** JavaScript numbers

    The client parses amounts with [parseFloat]. A parsed amount is [NaN] or
    a finite number. Where the code only compares, the number is carried as
    the rational it stands for: two numbers compare as their values do. Every
    comparison with [NaN] is false. Where the code multiplies, the numbers
    are binary64 values and the product is rounded ([Float64] below). *)

Module Num.
Local Open Scope Qc_scope.

Inductive t : Type :=
  | NaN
  | Fin (q : Qc).

Definition ltb (x y : t) : bool :=
  match x, y with
  | Fin a, Fin b => bool_decide (a < b)
  | _, _ => false
  end.

Definition leb (x y : t) : bool :=
  match x, y with
  | Fin a, Fin b => bool_decide (a ≤ b)
  | _, _ => false
  end.

Definition gtb (x y : t) : bool := ltb y x.

Definition zero : t := Fin 0.
End Num.

(** ** Numbers as binary64 values, where the code does arithmetic

    A JavaScript number is an IEEE 754 binary64 value and [*] is the
    correctly rounded product. The operations are those of the standard
    library's specification of floating-point arithmetic, at precision 53
    and maximal exponent 1024. *)

Module Float64.

Definition prec : Z := 53.
Definition emax : Z := 1024.

(** [x * y]. *)
Definition mul (x y : spec_float) : spec_float := SFmul prec emax x y.

(** [x > y]; false when either is [NaN]. *)
Definition gtb (x y : spec_float) : bool := SFltb y x.

(** The literals [0], [10] and [0.1]: [10] is [0x14000000000000 * 2^-49]
    and [0.1] is the nearest number to a tenth,
    [0x1999999999999A * 2^-56]. *)
Definition zero : spec_float := S754_zero false.
Definition ten : spec_float := S754_finite false 5629499534213120 (-49).
Definition tenth : spec_float := S754_finite false 7205759403792794 (-56).

(** A number of the format: the mantissa has at most 53 bits and the
    exponent is the one the format gives a number of that size. *)
Definition valid (x : spec_float) : bool := valid_binary prec emax x.

(** The rational a finite number stands for. *)
Definition value (x : spec_float) : option Q :=
  match x with
  | S754_zero _ => Some 0%Q
  | S754_finite s m e =>
      Some ((if s then inject_Z (Z.neg m) else inject_Z (Z.pos m)) * 2 ^ e)%Q
  | _ => None
  end.

End Float64.

(** ** The client: requests and what a handler does *)

Module Client.

Inductive Direction : Type :=
  | MoneyToCoins
  | CoinsToMoney.

(** The form values of the create-challenge dialog; [amount] is kept as the
    string the user typed. *)
Record ChallengeForm : Type := makeForm {
    challenged : string;
    title : string;
    description : option string;
    category : string;
    amount : string;
    dueDate : option string
  }.

Inductive Body : Type :=
  | AmountBody (amount : Num.t)
  | SwapBody (amount : Num.t) (fromCurrency toCurrency : string)
  | StatusBody (status : string)
  | ChallengeBody (data : ChallengeForm).

(** A call [apiRequest(method, url, body)]. *)
Record ApiRequest : Type := makeApiRequest {
    method : string;
    url : string;
    body : Body
  }.

(** What a click handler ends in: a toast and nothing else, or a mutation
    that issues one request. *)
Inductive Effect : Type :=
  | Toast (title description : string)
  | Mutate (request : ApiRequest).

(** The data of the [/api/wallet/balance] query: an object with both
    balances, or a bare number. *)
Inductive BalanceData : Type :=
  | BalanceObject (balance coins : Num.t)
  | BalanceNumber (n : Num.t).

(** [typeof balance === "object" ? balance.balance : balance]. *)
Definition currentBalance (balance : BalanceData) : Num.t :=
  match balance with
  | BalanceObject b _ => b
  | BalanceNumber n => n
  end.

(** [typeof balance === "object" ? balance.coins : 0]. *)
Definition currentCoins (balance : BalanceData) : Num.t :=
  match balance with
  | BalanceObject _ c => c
  | BalanceNumber _ => Num.zero
  end.

End Client.

(** ** [client/src/pages/WalletPage.tsx] *)

Module WalletPage.
Import Client.

Definition withdrawMutation (amount : Num.t) : ApiRequest :=
  {| method := "POST"; url := "/api/wallet/withdraw"; body := AmountBody amount |}.

Definition swapMutation (amount : Num.t) (direction : Direction) : ApiRequest :=
  {| method := "POST"; url := "/api/wallet/swap";
     body := SwapBody amount
               (match direction with MoneyToCoins => "money" | CoinsToMoney => "coins" end)
               (match direction with MoneyToCoins => "coins" | CoinsToMoney => "money" end) |}.

(** [handleWithdraw], with [amount = parseFloat(withdrawAmount)]. *)
Definition handleWithdraw (amount : Num.t) (balance : BalanceData) : Effect :=
  if Num.gtb amount Num.zero && Num.leb amount (currentBalance balance)
  then Mutate (withdrawMutation amount)
  else Toast "Invalid Amount" "Withdrawal amount exceeds your balance.".

(** [handleSwap], with [amount = parseFloat(swapAmount)]. *)
Definition handleSwap (amount : Num.t) (swapDirection : Direction)
    (balance : BalanceData) : Effect :=
  if Num.leb amount Num.zero
  then Toast "Invalid Amount" "Please enter a valid amount."
  else if match swapDirection with MoneyToCoins => true | _ => false end
          && Num.gtb amount (currentBalance balance)
  then Toast "Insufficient Balance" "You don't have enough money to swap."
  else if match swapDirection with CoinsToMoney => true | _ => false end
          && Num.gtb amount (currentCoins balance)
  then Toast "Insufficient Coins" "You don't have enough coins to swap."
  else Mutate (swapMutation amount swapDirection).

(** The conversion preview (lines 674-688): the number the dialog formats
    after [You will receive:], shown only for a positive amount; [amount]
    is [parseFloat(swapAmount)], and the products are those of binary64
    numbers. *)
Definition conversionPreview (amount : spec_float) (swapDirection : Direction)
  : option spec_float :=
  if Float64.gtb amount Float64.zero
  then Some (match swapDirection with
             | MoneyToCoins => Float64.mul amount Float64.ten
             | CoinsToMoney => Float64.mul amount Float64.tenth
             end)
  else None.

End WalletPage.

(** ** [client/src/pages/Challenges.tsx] and the challenge card *)

Module ChallengesPage.
Import Client.

Definition createChallengeMutation (data : ChallengeForm) : ApiRequest :=
  {| method := "POST"; url := "/api/challenges"; body := ChallengeBody data |}.

(** [onSubmit]; [parsed] is [parseFloat(data.amount)]. *)
Definition onSubmit (data : ChallengeForm) (parsed : Num.t) (balance : BalanceData) : Effect :=
  if Num.gtb parsed (currentBalance balance)
  then Toast "Insufficient Balance" "You don't have enough funds to create this challenge."
  else Mutate (createChallengeMutation data).

(** [declineChallengeMutation] of the card of challenge [challengeId];
    [idText] is [`${challenge.id}`]. *)
Definition declineChallengeMutation (idText : string) : ApiRequest :=
  {| method := "PATCH"; url := "/api/challenges/" +:+ idText; body := StatusBody "cancelled" |}.

End ChallengesPage.

(** ** The wallet ledger and the challenge lifecycle on the server *)

(** Modelled from the spec: the server routes behind [/api/wallet] and
    [/api/challenges] are missing from the sources. The state follows the
    data model: a wallet per user with a primary balance and a coin balance,
    an append-only list of transactions (owner, signed amount, tag), and the
    challenges with their stake and status. *)
Module Ledger.
Import Client.
Local Open Scope Qc_scope.

Record Wallet : Type := makeWallet {
    balance : Qc;
    coins : Qc
  }.

Inductive Tag : Type :=
  | deposit
  | withdrawal
  | swap_money
  | swap_coins
  | challenge_escrow
  | escrow_release.

(** An append-only record: owner, signed amount, tag. *)
Record Transaction : Type := makeTransaction {
    owner : string;
    amount : Qc;
    tag : Tag
  }.

Inductive Status : Type :=
  | pending
  | open
  | active
  | pending_admin
  | completed
  | cancelled
  | disputed.

Record Challenge : Type := makeChallenge {
    challenger : string;
    challenged : string;
    stake : Qc;
    status : Status;
    adminCreated : bool
  }.

Record State : Type := makeState {
    wallets : gmap string Wallet;
    transactions : list Transaction;
    challenges : gmap string Challenge
  }.

Inductive Condition : Type :=
  | InvalidAmount
  | InsufficientFunds
  | InsufficientBalance
  | InvalidChallenge
  | NotFound.

Inductive Reply : Type :=
  | Accepted (s : State) (created : option string)
  | Rejected (condition : Condition).

Definition walletOf (s : State) (user : string) : Wallet :=
  default {| balance := 0; coins := 0 |} (wallets s !! user).

Definition setWallet (user : string) (w : Wallet) (t : Transaction) (s : State) : State :=
  {| wallets := <[user := w]> (wallets s);
     transactions := transactions s ++ [t];
     challenges := challenges s |}.

(** The fixed exchange rate: 1 primary-currency unit for 10 coin units. *)
Definition rate : Qc := Qc_of_Z 10.

(** Modelled from the spec: the handler of [POST /api/wallet/withdraw] is
    missing from the sources. The amount must be positive and must not
    exceed the current primary balance; the balance decreases by it and a
    transaction tagged withdrawal is written; otherwise the request is
    rejected with the insufficient-funds condition. *)
Definition withdraw (user : string) (a : Qc) (s : State) : Reply :=
  let w := walletOf s user in
  if bool_decide (0 < a) && bool_decide (a ≤ balance w)
  then Accepted
         (setWallet user {| balance := balance w - a; coins := coins w |}
            {| owner := user; amount := - a; tag := withdrawal |} s) None
  else Rejected InsufficientFunds.

(** Modelled from the spec: the handler of [POST /api/wallet/swap] is
    missing from the sources. Non-positive amounts are rejected as invalid.
    To-coin requires the amount not to exceed the primary balance, debits
    it and credits amount × rate coins; to-money requires the amount not
    to exceed the coin balance, debits it and credits amount / rate of the
    primary currency; a source side that lacks funds is rejected with the
    insufficient-balance condition. A successful swap writes one
    transaction per leg. *)
Definition swap (user : string) (a : Qc) (direction : Direction) (s : State) : Reply :=
  let w := walletOf s user in
  if bool_decide (a ≤ 0) then Rejected InvalidAmount
  else match direction with
       | MoneyToCoins =>
           if bool_decide (a ≤ balance w)
           then Accepted
                  {| wallets := <[user := {| balance := balance w - a;
                                             coins := coins w + a * rate |}]> (wallets s);
                     transactions := transactions s ++
                       [ {| owner := user; amount := - a; tag := swap_money |};
                         {| owner := user; amount := a * rate; tag := swap_coins |} ];
                     challenges := challenges s |} None
           else Rejected InsufficientBalance
       | CoinsToMoney =>
           if bool_decide (a ≤ coins w)
           then Accepted
                  {| wallets := <[user := {| balance := balance w + a / rate;
                                             coins := coins w - a |}]> (wallets s);
                     transactions := transactions s ++
                       [ {| owner := user; amount := - a; tag := swap_coins |};
                         {| owner := user; amount := a / rate; tag := swap_money |} ];
                     challenges := challenges s |} None
           else Rejected InsufficientBalance
       end.

(** Modelled from the spec: the handler of [POST /api/challenges] is
    missing from the sources. It validates the presence of the counterpart
    user, the title, the category and the stake amount, produces a peer
    challenge in the pending state and escrows the stake: the challenger's
    balance is debited and an escrow-tagged transaction is written. *)
Definition createChallenge (user : string) (data : ChallengeForm) (parsed : Num.t)
    (s : State) : Reply :=
  match parsed with
  | Num.Fin a =>
      if JS.nonEmpty (Client.challenged data) && JS.nonEmpty (title data)
         && JS.nonEmpty (category data)
      then
        let w := walletOf s user in
        let id := pretty (size (challenges s)) in
        Accepted
          {| wallets := <[user := {| balance := balance w - a; coins := coins w |}]> (wallets s);
             transactions := transactions s ++
               [ {| owner := user; amount := - a; tag := challenge_escrow |} ];
             challenges := <[id := {| challenger := user;
                                      challenged := Client.challenged data;
                                      stake := a;
                                      status := pending;
                                      adminCreated := false |}]> (challenges s) |}
          (Some id)
      else Rejected InvalidChallenge
  | Num.NaN => Rejected InvalidChallenge
  end.

(** Modelled from the spec: the handler of [PATCH /api/challenges/:id] is
    missing from the sources. Declining is the transition of a peer
    challenge from pending to cancelled, and it releases the escrowed stake
    back to the challenger by reversing the escrow transaction. *)
Definition declineChallenge (id : string) (s : State) : Reply :=
  match challenges s !! id with
  | Some c =>
      match status c, adminCreated c with
      | pending, false =>
          let w := walletOf s (challenger c) in
          Accepted
            {| wallets := <[challenger c := {| balance := balance w + stake c;
                                               coins := coins w |}]> (wallets s);
               transactions := transactions s ++
                 [ {| owner := challenger c; amount := stake c; tag := escrow_release |} ];
               challenges := <[id := {| challenger := challenger c;
                                        challenged := challenged c;
                                        stake := stake c;
                                        status := cancelled;
                                        adminCreated := adminCreated c |}]> (challenges s) |}
            None
      | _, _ => Rejected InvalidChallenge
      end
  | None => Rejected NotFound
  end.

Section Routes.
(** The builtin [parseFloat]. *)
Variable parseFloat : string -> Num.t.

(** The request of an authenticated [user] reaching its handler. *)
Definition serve (user : string) (r : ApiRequest) (s : State) : Reply :=
  match body r with
  | AmountBody (Num.Fin a) =>
      if String.eqb (method r) "POST" && String.eqb (url r) "/api/wallet/withdraw"
      then withdraw user a s else Rejected NotFound
  | SwapBody (Num.Fin a) fromCurrency toCurrency =>
      if String.eqb (method r) "POST" && String.eqb (url r) "/api/wallet/swap"
      then
        if String.eqb fromCurrency "money" && String.eqb toCurrency "coins"
        then swap user a MoneyToCoins s
        else if String.eqb fromCurrency "coins" && String.eqb toCurrency "money"
        then swap user a CoinsToMoney s
        else Rejected InvalidAmount
      else Rejected NotFound
  | ChallengeBody data =>
      if String.eqb (method r) "POST" && String.eqb (url r) "/api/challenges"
      then createChallenge user data (parseFloat (Client.amount data)) s
      else Rejected NotFound
  | StatusBody st =>
      if String.eqb (method r) "PATCH" && String.prefix "/api/challenges/" (url r)
         && String.eqb st "cancelled"
      then declineChallenge (JS.removeFirst "/api/challenges/" (url r)) s
      else Rejected NotFound
  | _ => Rejected InvalidAmount
  end.
End Routes.

End Ledger.

(** ** The notification router *)

Module Notifications.
Import JS Eff.

(** A row of the notifications table. *)
Module Row.
Record t : Type := make {
    id : string;
    userId : string;
    read : bool
  }.
End Row.
Abbreviation Notification := Row.t.

Record Request : Type := makeRequest {
    user_id : option string;
    params_id : string
  }.

Inductive Response : Type :=
  | Error (status : nat) (error : string)
  | Success (message : string).

(** [and(eq(notifications.id, notificationId), eq(notifications.userId, userId))]. *)
Definition owned (notificationId userId : string) (n : Notification) : bool :=
  String.eqb (Row.id n) notificationId && String.eqb (Row.userId n) userId.

Section Router.
(** [notificationService.markAsRead] of the notification system, which
    is outside this router: it may change the table and it may throw. *)
Variable markAsRead : string -> M (list Notification) unit.

(** [ensureAuth] in front of a handler. *)
Definition ensureAuth (handler : string -> Request -> M (list Notification) Response)
    (req : Request) : M (list Notification) Response :=
  match user_id req with
  | Some (String c r as userId) => handler userId req
  | _ => ret (Error 401 "Unauthorized")
  end.

(** [PUT /api/notifications/:id/read]. *)
Definition putRead (userId : string) (req : Request) : M (list Notification) Response :=
  let notificationId := params_id req in
  tryCatch
    (fun table =>
       match List.filter (owned notificationId userId) table with
       | [] => Return (Error 404 "Notification not found") table
       | _ :: _ =>
           (let* _ := markAsRead notificationId in
            ret (Success "Notification marked as read")) table
       end)
    (fun _ => ret (Error 500 "Failed to update notification")).

(** [DELETE /api/notifications/:id]. *)
Definition deleteNotification (userId : string) (req : Request)
    : M (list Notification) Response :=
  let notificationId := params_id req in
  tryCatch
    (fun table =>
       match List.filter (owned notificationId userId) table with
       | [] => Return (Error 404 "Notification not found") table
       | _ :: _ =>
           Return (Success "Notification deleted")
             (List.filter (fun n => negb (owned notificationId userId n)) table)
       end)
    (fun _ => ret (Error 500 "Failed to delete notification")).

Definition routePutRead : Request -> M (list Notification) Response :=
  ensureAuth putRead.

Definition routeDelete : Request -> M (list Notification) Response :=
  ensureAuth deleteNotification.
End Router.

End Notifications.

(** ** More string functions of JavaScript *)

Module JSText.

(** [s.includes(pat)]. *)
Fixpoint includes (pat s : string) : bool :=
  String.prefix pat s
  || match s with
     | EmptyString => false
     | String _ s' => includes pat s'
     end.

(** [list.includes(x)] on an array of strings. *)
Definition listIncludes (l : list string) (x : string) : bool :=
  existsb (String.eqb x) l.

(** An uppercase ASCII letter or a digit. *)
Definition upperOrDigit (c : ascii) : bool := JS.isUpper c || JS.isDigit c.

End JSText.

(** ** [client/src/lib/queryClient.ts]: the cached token and the request
    headers *)

Module QueryClient.

(** [setAuthToken(token)]: the new value of the module variable
    [cachedAuthToken]. *)
Definition setAuthToken (token : option string) (cachedAuthToken : option string)
    : option string :=
  token.

Definition getAuthToken (cachedAuthToken : option string) : option string :=
  cachedAuthToken.

(** The [Authorization] entry of the headers [apiRequest] and the default
    query function build:
    [...(authToken ? { "Authorization": `Bearer ${authToken}` } : {})]. *)
Definition authorizationHeader (cachedAuthToken : option string) : option string :=
  match getAuthToken cachedAuthToken with
  | Some (String c r as authToken) => Some ("Bearer " +:+ authToken)
  | _ => None
  end.

(** The request the server sees for a call made with the cached token. The
    call is sent with [credentials: "include"], so whatever session the
    browser holds comes along. *)
Definition outgoing (cachedAuthToken : option string) (session : option bool)
    (sessionUser : option Http.ReqUser) : Http.Request :=
  {| Http.authorization := authorizationHeader cachedAuthToken;
     Http.isAuthenticated := session;
     Http.user := sessionUser |}.

End QueryClient.

(** ** [client/src/hooks/useAuth.ts] *)

Module UseAuth.

(** What the hook keeps: its [stableAuthenticated] state and, through
    [setAuthToken], the token cached in [queryClient.ts]. *)
Record State : Type := makeState {
  stableAuthenticated : bool;
  cachedAuthToken : option string
}.

(** How [await getAccessToken()] ends. *)
Inductive AccessToken : Type :=
| Resolves (token : option string)
| Rejects (err : string).

(** How [localStorage.getItem("referralCode")] ends. *)
Inductive Referral : Type :=
| NoReferral
| ReferralCode (code : string)
| StorageFails (err : string).

(** The effect of lines 22-57, with the asynchronous part run to its end.
    [getAccessToken] is [None] when the provider hook offers no such
    function. Once a token is cached the stored referral code is looked up;
    a failure of that lookup is caught by the outer [catch], which clears
    the token again, while applying a code happens inside a [try] of its
    own and leaves the token alone. *)
Definition effect (ready authenticated : bool) (getAccessToken : option AccessToken)
    (referral : Referral) (s : State) : State :=
  if ready then
    match authenticated, getAccessToken with
    | true, Some (Resolves (Some (String c r as token))) =>
        match referral with
        | StorageFails _ =>
            {| stableAuthenticated := authenticated;
               cachedAuthToken := QueryClient.setAuthToken None (Some token) |}
        | _ =>
            {| stableAuthenticated := authenticated;
               cachedAuthToken := QueryClient.setAuthToken (Some token) (cachedAuthToken s) |}
        end
    | true, Some (Resolves _) =>
        {| stableAuthenticated := authenticated; cachedAuthToken := cachedAuthToken s |}
    | true, Some (Rejects _) =>
        {| stableAuthenticated := authenticated;
           cachedAuthToken := QueryClient.setAuthToken None (cachedAuthToken s) |}
    | _, _ =>
        {| stableAuthenticated := authenticated;
           cachedAuthToken := QueryClient.setAuthToken None (cachedAuthToken s) |}
    end
  else s.

(** What the hook returns about the session. *)
Record View : Type := makeView {
  isLoading : bool;
  isAuthenticated : bool;
  showsUser : bool
}.

(** [{ user: stableAuthenticated ? user : null, isLoading: !ready,
    isAuthenticated: stableAuthenticated }]; [hasUser] tells whether the
    provider's [user] is there. *)
Definition view (ready hasUser : bool) (s : State) : View :=
  {| isLoading := negb ready;
     isAuthenticated := stableAuthenticated s;
     showsUser := stableAuthenticated s && hasUser |}.

End UseAuth.

(** ** [client/src/pages/WalletPage.tsx]: the deposit click *)

Module Deposit.
Import Client.

Definition depositMutation (amount : Num.t) : ApiRequest :=
  {| method := "POST"; url := "/api/wallet/deposit"; body := AmountBody amount |}.

(** [handleDeposit] at time [now = Date.now()], with
    [amount = parseFloat(depositAmount)]: what the click does, if anything,
    and the new value of the [lastDepositAttempt] state. *)
Definition handleDeposit (amount : Num.t) (now lastDepositAttempt : Z)
    : option Effect * Z :=
  if (now - lastDepositAttempt <? 3000)%Z
  then (Some (Toast "Please Wait" "Please wait a moment before trying again."),
        lastDepositAttempt)
  else if Num.gtb amount Num.zero
  then (Some (Mutate (depositMutation amount)), now)
  else (None, lastDepositAttempt).

(** A deposit request for a positive amount. *)
Definition positiveAmountRequest (r : ApiRequest) : Prop :=
  exists a : Qc, r = depositMutation (Num.Fin a) /\ (0 < a)%Qc.

(** A run of clicks, each with its time and parsed amount: the requests that
    were issued, with the time of the click, and the final state. *)
Fixpoint clicks (cs : list (Z * Num.t)) (lastDepositAttempt : Z)
    : list (Z * ApiRequest) * Z :=
  match cs with
  | [] => ([], lastDepositAttempt)
  | (now, amount) :: rest =>
      let '(eff, last') := handleDeposit amount now lastDepositAttempt in
      let '(issued, final) := clicks rest last' in
      (match eff with
       | Some (Mutate r) => (now, r) :: issued
       | _ => issued
       end, final)
  end.

End Deposit.

(** ** A users table whose lookup by id can fail once *)

Module FlakyStorage.
Import Eff.

(** The table of [MemStorage] behind a connection that may be down: while
    [down] is set, [getUser] throws and the connection recovers; every other
    call goes to the table. Like [brokenStorage], this instance is there
    for the failure paths. *)
Record Db : Type := makeDb {
  table : MemStorage.Db;
  down : bool
}.

Definition lift {A : Type} (m : M MemStorage.Db A) : M Db A :=
  fun db =>
    match m (table db) with
    | Return a t => Return a {| table := t; down := down db |}
    | Throw e t => Throw e {| table := t; down := down db |}
    end.

Definition flakyStorage : Storage Db := {|
  getUser userId := fun db =>
    if down db then Throw "connection lost" {| table := table db; down := false |}
    else lift (getUser (Storage := MemStorage.memStorage) userId) db;
  getUserByEmail email := lift (getUserByEmail (Storage := MemStorage.memStorage) email);
  upsertUser nu := lift (upsertUser (Storage := MemStorage.memStorage) nu);
  updateUserTelegramInfo userId info :=
    lift (updateUserTelegramInfo (Storage := MemStorage.memStorage) userId info)
|}.

End FlakyStorage.


(** ** The notification router: the other routes *)

Module NotificationRoutes.
Import JS Eff Notifications.

Inductive Method : Type :=
| GET
| PUT
| PATCH
| DELETE
| POST.

(** A segment of a route path: a literal, or a named parameter [:name]. *)
Inductive Segment : Type :=
| Lit (s : string)
| Param (name : string).

(** The handlers of the router, by the route that registers them. *)
Inductive Handler : Type :=
| ListNotifications
| UnreadCount
| PutRead
| PatchRead
| ReadAll
| DeleteOne
| ClearAll
| GetPreferences
| PutPreferences
| MuteChallenge
| UnmuteChallenge.

(** The routes in the order the source registers them. *)
Definition routes : list (Method * list Segment * Handler) :=
  [ (GET, [], ListNotifications);
    (GET, [Lit "unread-count"], UnreadCount);
    (PUT, [Param "id"; Lit "read"], PutRead);
    (PATCH, [Param "id"; Lit "read"], PatchRead);
    (PUT, [Lit "read-all"], ReadAll);
    (DELETE, [Param "id"], DeleteOne);
    (DELETE, [Lit "clear-all"], ClearAll);
    (GET, [Lit "preferences"], GetPreferences);
    (PUT, [Lit "preferences"], PutPreferences);
    (POST, [Lit "mute-challenge"; Param "challengeId"], MuteChallenge);
    (POST, [Lit "unmute-challenge"; Param "challengeId"], UnmuteChallenge) ].

Definition sameMethod (a b : Method) : bool :=
  match a, b with
  | GET, GET | PUT, PUT | PATCH, PATCH | DELETE, DELETE | POST, POST => true
  | _, _ => false
  end.

Definition lowerChar (c : ascii) : ascii :=
  if isUpper c then ascii_of_nat (nat_of_ascii c + 32) else c.

Fixpoint toLowerCase (s : string) : string :=
  match s with
  | EmptyString => EmptyString
  | String c s' => String (lowerChar c) (toLowerCase s')
  end.

(** The router's path matching with its default options, on a path already
    cut into its non-empty segments: a literal matches its segment without
    regard to case, a parameter matches any one segment and binds it, and
    the whole path has to be used up. *)
Fixpoint matchPath (pattern : list Segment) (path : list string)
    : option (list (string * string)) :=
  match pattern, path with
  | [], [] => Some []
  | Lit s :: pattern', seg :: path' =>
      if String.eqb (toLowerCase s) (toLowerCase seg) then matchPath pattern' path'
      else None
  | Param name :: pattern', seg :: path' =>
      match matchPath pattern' path' with
      | Some params => Some ((name, seg) :: params)
      | None => None
      end
  | _, _ => None
  end.

(** The first registered route whose method and path match takes the
    request: each handler of this router answers and none passes it on. *)
Fixpoint resolveIn (rs : list (Method * list Segment * Handler)) (m : Method)
    (path : list string) : option (Handler * list (string * string)) :=
  match rs with
  | [] => None
  | (m', pattern, h) :: rs' =>
      if sameMethod m m' then
        match matchPath pattern path with
        | Some params => Some (h, params)
        | None => resolveIn rs' m path
        end
      else resolveIn rs' m path
  end.

Definition resolve (m : Method) (path : list string)
    : option (Handler * list (string * string)) :=
  resolveIn routes m path.

(** [and(eq(notifications.userId, userId), eq(notifications.read, false))]. *)
Definition unreadOf (userId : string) (n : Notification) : bool :=
  String.eqb (Row.userId n) userId && negb (Row.read n).

(** What a handler of this part answers: a message, or the unread count. *)
Inductive Reply : Type :=
| Answer (r : Response)
| Count (unreadCount : nat).

(** [GET /api/notifications/unread-count], behind [ensureAuth]. *)
Definition routeUnreadCount (req : Request) : M (list Notification) Reply :=
  match user_id req with
  | Some (String c r as userId) =>
      tryCatch
        (fun table => Return (Count (List.length (List.filter (unreadOf userId) table))) table)
        (fun _ => ret (Answer (Error 500 "Failed to fetch unread count")))
  | _ => ret (Answer (Error 401 "Unauthorized"))
  end.

Definition markRead (n : Notification) : Notification :=
  {| Row.id := Row.id n; Row.userId := Row.userId n; Row.read := true |}.

(** [PUT /api/notifications/read-all]: the update sets [read] on the rows
    of the user that are unread. *)
Definition putReadAll (userId : string) (req : Request) : M (list Notification) Response :=
  tryCatch
    (fun table =>
       Return (Success "All notifications marked as read")
         (List.map (fun n => if unreadOf userId n then markRead n else n) table))
    (fun _ => ret (Error 500 "Failed to update notifications")).

Definition routeReadAll : Request -> M (list Notification) Response :=
  ensureAuth putReadAll.

(** [prefs[0]?.mutedChallenges || []] followed by lines 297-299: the list
    the mute handler sends to the notification service. *)
Definition muteList (mutedChallenges : list string) (challengeId : string) : list string :=
  if JSText.listIncludes mutedChallenges challengeId then mutedChallenges
  else (mutedChallenges ++ [challengeId])%list.

(** Line 328: the list the unmute handler sends. *)
Definition unmuteList (mutedChallenges : list string) (challengeId : string) : list string :=
  List.filter (fun id => negb (String.eqb id challengeId)) mutedChallenges.

End NotificationRoutes.


(** ** The challenge card *)

Module ChallengeCard.

(** The text [`${n}${unit}`] of the compact age. *)
Inductive Label : Type :=
| Ago (n : Z) (unit : string).

(** [getCompactTimeAgo], for a creation date that parses: [now] and
    [created] are the two [getTime()] values in milliseconds, and
    [Math.floor] of a quotient is the integer division that rounds down. *)
Definition getCompactTimeAgo (now created : Z) : Label :=
  let diffMs := (now - created)%Z in
  let diffMins := (diffMs / 60000)%Z in
  let diffHours := (diffMs / 3600000)%Z in
  let diffDays := (diffMs / 86400000)%Z in
  if (diffMins <? 60)%Z then Ago diffMins "m"
  else if (diffHours <? 24)%Z then Ago diffHours "h"
  else if (diffDays <? 7)%Z then Ago diffDays "d"
  else Ago (diffDays / 7)%Z "w".

(** The length of a unit in milliseconds. *)
Definition unitMs (unit : string) : Z :=
  if String.eqb unit "m" then 60000
  else if String.eqb unit "h" then 3600000
  else if String.eqb unit "d" then 86400000
  else 604800000.

End ChallengeCard.

(** ** [client/src/pages/Challenges.tsx]: tabs and order *)

Module ChallengeList.

(** An identifier as [===] sees it. *)
Inductive JsId : Type :=
| Undefined
| Null
| Id (s : string).

Definition strictEq (a b : JsId) : bool :=
  match a, b with
  | Undefined, Undefined => true
  | Null, Null => true
  | Id s, Id t => String.eqb s t
  | _, _ => false
  end.

(** The fields of a challenge the page filters and sorts by; [createdAt]
    is [new Date(createdAt).getTime()]. *)
Record Challenge : Type := makeChallenge {
  isPinned : bool;
  status : string;
  adminCreated : bool;
  challengerId : JsId;
  challengedId : JsId;
  creatorId : JsId;
  createdAt : Z
}.

Section ForUser.
(** [user?.id]. *)
Variable userId : JsId.

Definition pendingTab (c : Challenge) : bool :=
  String.eqb (status c) "pending" && negb (adminCreated c)
  && (strictEq (challengerId c) userId || strictEq (challengedId c) userId).

Definition activeTab (c : Challenge) : bool :=
  String.eqb (status c) "active" && negb (adminCreated c).

Definition awaitingResolutionTab (c : Challenge) : bool :=
  String.eqb (status c) "pending_admin" && adminCreated c
  && (strictEq (challengerId c) userId || strictEq (challengedId c) userId
      || strictEq (creatorId c) userId).

Definition completedTab (c : Challenge) : bool :=
  String.eqb (status c) "completed" && negb (adminCreated c).

Definition featuredTab (c : Challenge) : bool :=
  adminCreated c && negb (String.eqb (status c) "pending_admin").

Definition tabs : list (Challenge -> bool) :=
  [pendingTab; activeTab; awaitingResolutionTab; completedTab; featuredTab].

(** The comparator of [sortedChallenges]. *)
Definition compareChallenges (a b : Challenge) : Z :=
  if isPinned a && negb (isPinned b) then (-1)%Z
  else if negb (isPinned a) && isPinned b then 1%Z
  else
    let aIsPending := pendingTab a in
    let bIsPending := pendingTab b in
    if aIsPending && negb bIsPending then (-1)%Z
    else if negb aIsPending && bIsPending then 1%Z
    else
      let aIsActive := String.eqb (status a) "active" in
      let bIsActive := String.eqb (status b) "active" in
      if aIsActive && negb bIsActive then (-1)%Z
      else if negb aIsActive && bIsActive then 1%Z
      else
        let aIsOpen := String.eqb (status a) "open" && adminCreated a in
        let bIsOpen := String.eqb (status b) "open" && adminCreated b in
        if aIsOpen && negb bIsOpen then (-1)%Z
        else if negb aIsOpen && bIsOpen then 1%Z
        else
          let aIsAwaiting := String.eqb (status a) "pending_admin" in
          let bIsAwaiting := String.eqb (status b) "pending_admin" in
          if aIsAwaiting && negb bIsAwaiting then (-1)%Z
          else if negb aIsAwaiting && bIsAwaiting then 1%Z
          else (createdAt b - createdAt a)%Z.

(** [x] goes before the first element it does not have to follow. *)
Fixpoint insertStable (x : Challenge) (l : list Challenge) : list Challenge :=
  match l with
  | [] => [x]
  | y :: l' =>
      if (compareChallenges x y <=? 0)%Z then x :: y :: l'
      else y :: insertStable x l'
  end.

(** [[...filteredChallenges].sort(compare)]: the sort of an array is
    stable, and for a comparator that is a consistent ordering the stable
    sorted arrangement is the one that inserts each element, from the last
    to the first, before the first element it does not have to follow. *)
Fixpoint sortedChallenges (l : list Challenge) : list Challenge :=
  match l with
  | [] => []
  | x :: l' => insertStable x (sortedChallenges l')
  end.

(** The rank the comparator's five priorities give a challenge: smaller
    goes first. *)
Definition rank (c : Challenge) : Z :=
  ((if isPinned c then 0 else 16)
   + (if pendingTab c then 0 else 8)
   + (if String.eqb (status c) "active" then 0 else 4)
   + (if String.eqb (status c) "open" && adminCreated c then 0 else 2)
   + (if String.eqb (status c) "pending_admin" then 0 else 1))%Z.

End ForUser.
End ChallengeList.

(** ** [client/src/pages/WalletPage.tsx]: a row of the transaction list *)

Module TransactionRow.
Import JS JSText.

Definition special : list string :=
  ["signup_bonus"; "daily_signin"; "coin_purchase"; "challenge_escrow"; "Gifted";
   "Gift received"].

(** [{cond && <Icon />}]: the icon when the condition holds, nothing
    otherwise. *)
Definition shown {A : Type} (cond : bool) (x : A) : list A :=
  if cond then [x] else [].

(** The icons rendered in the round badge (lines 459-486). *)
Definition icons (type : string) : list string :=
  (shown (String.eqb type "signup_bonus") "Trophy"
   ++ shown (String.eqb type "daily_signin") "Calendar"
   ++ shown (String.eqb type "coin_purchase") "ShoppingCart"
   ++ shown (String.eqb type "challenge_escrow") "ArrowUpRight"
   ++ shown (String.eqb type "Gifted") "Gift"
   ++ shown (String.eqb type "Gift received") "Gift"
   ++ shown (negb (listIncludes special type)) "Wallet")%list.

(** [type.charAt(0).toUpperCase() + type.slice(1)]. *)
Definition capitalised (type : string) : string :=
  match type with
  | EmptyString => EmptyString
  | String c rest => String (upperChar c) rest
  end.

(** The text fragments rendered in the title (lines 490-507). *)
Definition titles (type : string) : list string :=
  (shown (String.eqb type "signup_bonus") "Welcome Bonus"
   ++ shown (String.eqb type "daily_signin") "Daily Sign-in"
   ++ shown (String.eqb type "coin_purchase") "Coin Purchase"
   ++ shown (String.eqb type "challenge_escrow") "Challenge Entry"
   ++ shown (String.eqb type "Gifted") "Gifted"
   ++ shown (String.eqb type "Gift received") "Gift received"
   ++ shown (negb (listIncludes special type)) (capitalised type))%list.

End TransactionRow.


(** ** The challenge card: badge, status text and the Yes/No buttons *)

Module CardView.
Import ChallengeList.

(** The fields of the challenge the card reads here. A date field holds
    [Some] of its [getTime()] in milliseconds; [None] stands for a field
    that is absent or does not parse, which every comparison below treats
    alike (a comparison with [NaN] is false). *)
Record Card : Type := makeCard {
  status : string;
  adminCreated : bool;
  challenger : JsId;
  challenged : JsId;
  dueDate : option Z;
  createdAt : option Z
}.

Section Rendered.
(** [user?.id] and [Date.now()]. *)
Variable userId : JsId.
Variable now : Z.

(** The truth value of [isEnded]. *)
Definition isEnded (c : Card) : bool :=
  String.eqb (status c) "completed"
  || match dueDate c with
     | Some due => (due <=? now)%Z
     | None => false
     end.

Definition isNewChallenge (c : Card) : bool :=
  match createdAt c with
  | Some created => (now - created <? 24 * 60 * 60 * 1000)%Z
  | None => false
  end
  && negb (isEnded c).

(** [getStatusBadge(status)]: the text of the badge, [None] for [null]. *)
Definition getStatusBadge (c : Card) (status : string) : option string :=
  if adminCreated c then
    if String.eqb status "pending_admin" || String.eqb status "active"
    then Some "Awaiting Result"
    else if String.eqb status "completed" then Some "Ended"
    else if isNewChallenge c then Some "New"
    else None
  else
    if String.eqb status "pending" then Some "Pending"
    else if String.eqb status "active" then Some "Live"
    else if String.eqb status "completed" then Some "Ended"
    else if String.eqb status "disputed" then Some "Disputed"
    else if String.eqb status "cancelled" then Some "Cancelled"
    else if String.eqb status "pending_admin" then Some "Payout"
    else None.

(** The status badges the card renders (lines 437-442): for the status
    [open] a badge New or Open, without a call of [getStatusBadge]; for any
    other status what [getStatusBadge(challenge.status)] returns, nothing
    for [null]. *)
Definition statusBadges (c : Card) : list string :=
  ((if String.eqb (status c) "open"
    then [if isNewChallenge c then "New" else "Open"]
    else [])
   ++ (if negb (String.eqb (status c) "open")
       then match getStatusBadge c (status c) with
            | Some badge => [badge]
            | None => []
            end
       else []))%list.

(** The badge that marks a challenge between users (lines 443-447). *)
Definition p2pBadges (c : Card) : list string :=
  if negb (adminCreated c) then ["P2P"] else [].

Definition getStatusText (c : Card) : string :=
  if String.eqb (status c) "pending" then "Waiting for your response"
  else if String.eqb (status c) "active" then "Challenge in progress"
  else if String.eqb (status c) "completed" then "Challenge concluded"
  else if String.eqb (status c) "disputed" then "Challenge disputed"
  else if String.eqb (status c) "cancelled" then "Challenge cancelled"
  else if String.eqb (status c) "pending_admin" then "Processing payout"
  else status c.

Definition hasJoined (c : Card) : bool :=
  strictEq userId (challenger c) || strictEq userId (challenged c).

(** The [onClick] of the Yes and No buttons: the argument [onJoin] is
    called with, if it is called. *)
Definition clickSide (side : string) (c : Card) : option (Card * string) :=
  if negb (String.eqb (status c) "completed") && negb (String.eqb (status c) "ended")
     && negb (hasJoined c)
  then Some (c, side)
  else None.

(** The [disabled] attribute of the Yes and No buttons. *)
Definition disabled (c : Card) : bool :=
  String.eqb (status c) "completed" || String.eqb (status c) "ended" || hasJoined c.

End Rendered.
End CardView.


(** ** [client/src/pages/Challenges.tsx]: the selected tab *)

Module SelectedTab.
Import ChallengeList.

Section ForUser.
(** [user]: [None] when nobody is logged in, else the [id] field of the
    user object. *)
Variable user : option JsId.
(** [filteredChallenges]. *)
Variable filteredChallenges : list Challenge.

(** [user?.id]. *)
Definition userId : JsId :=
  match user with
  | Some id => id
  | None => Undefined
  end.

Definition pendingChallenges : list Challenge :=
  List.filter (pendingTab userId) filteredChallenges.

Definition awaitingResolutionChallenges : list Challenge :=
  List.filter (awaitingResolutionTab userId) filteredChallenges.

Definition isTabVisible (selectedTab : string) : bool :=
  String.eqb selectedTab "featured"
  || String.eqb selectedTab "active"
  || String.eqb selectedTab "completed"
  || (bool_decide (is_Some user) && String.eqb selectedTab "pending"
      && (0 <? List.length pendingChallenges)%nat)
  || (bool_decide (is_Some user) && String.eqb selectedTab "awaiting_resolution"
      && (0 <? List.length awaitingResolutionChallenges)%nat).

(** The effect that validates the selected tab: the value of [selectedTab]
    after it has run. *)
Definition validateTab (selectedTab : string) : string :=
  if isTabVisible selectedTab then selectedTab else "featured".

End ForUser.
End SelectedTab.


(** ** Sample data for the examples *)

Module Samples.
Import MemStorage.

Definition alice : User.t :=
  {| User.id := "did:privy:alice";
     User.email := Some "alice@x.com";
     User.password := "PRIVY_AUTH_USER";
     User.firstName := Some "Alice";
     User.lastName := Some "User";
     User.username := Some "alice";
     User.profileImageUrl := None;
     User.isAdmin := false;
     User.telegramId := None;
     User.telegramUsername := None;
     User.isTelegramUser := false |}.

Definition oneUser : Db :=
  {| users := {[ "did:privy:alice" := alice ]}; writes := [] |}.

Definition telegram777 : LinkedAccount.t :=
  {| LinkedAccount.type := "telegram";
     LinkedAccount.telegramUserId := Some "777";
     LinkedAccount.telegramUsername := None |}.

Definition telegramNoId : LinkedAccount.t :=
  {| LinkedAccount.type := "telegram";
     LinkedAccount.telegramUserId := None;
     LinkedAccount.telegramUsername := Some "ghost" |}.

Definition claimsOf (sub : string) (email : option string)
    (accounts : option (list LinkedAccount.t)) : Claims.t :=
  {| Claims.userId := None;
     Claims.sub := Some sub;
     Claims.email := email;
     Claims.given_name := None;
     Claims.name := None;
     Claims.family_name := None;
     Claims.picture := None;
     Claims.linkedAccounts := accounts |}.

(** Alice signing in again, now with a Telegram account. *)
Definition aliceWithTelegram : Claims.t :=
  claimsOf "did:privy:alice" (Some "alice@x.com") (Some [telegram777]).

(** A second identity with Alice's email and a Telegram account. *)
Definition sameEmailWithTelegram : Claims.t :=
  claimsOf "did:privy:other" (Some "alice@x.com") (Some [telegram777]).

(** A new identity, with a Telegram account. *)
Definition bobWithTelegram : Claims.t :=
  claimsOf "did:privy:bob" (Some "bob.builder@x.com") (Some [telegram777]).

(** A new identity without an email. *)
Definition carolNoEmail : Claims.t :=
  claimsOf "did:privy:carol-0123456789" None None.

(** Alice with two Telegram entries, the first of them without an id. *)
Definition aliceTwoTelegram : Claims.t :=
  claimsOf "did:privy:alice" (Some "alice@x.com") (Some [telegramNoId; telegram777]).

(** An identity provider that knows three tokens. *)
Definition provider (token : string) : option Claims.t + string :=
  if String.eqb token "token-alice" then inl (Some aliceWithTelegram)
  else if String.eqb token "token-carol" then inl (Some carolNoEmail)
  else if String.eqb token "token-anonymous" then inl (Some
         {| Claims.userId := None; Claims.sub := None; Claims.email := Some "x@y.z";
            Claims.given_name := None; Claims.name := None; Claims.family_name := None;
            Claims.picture := None; Claims.linkedAccounts := None |})
  else inr "invalid auth token".

Definition requestWith (header : option string) : Http.Request :=
  {| Http.authorization := header; Http.isAuthenticated := None; Http.user := None |}.

Definition sessionRequest : Http.Request :=
  {| Http.authorization := None;
     Http.isAuthenticated := Some true;
     Http.user := Some (Http.SessionUser alice) |}.

(** Two notifications of Alice's and one of Bob's. *)
Definition inbox : list Notifications.Notification :=
  [ {| Notifications.Row.id := "n1"; Notifications.Row.userId := "did:privy:alice";
       Notifications.Row.read := false |};
    {| Notifications.Row.id := "n2"; Notifications.Row.userId := "did:privy:bob";
       Notifications.Row.read := false |};
    {| Notifications.Row.id := "n3"; Notifications.Row.userId := "did:privy:alice";
       Notifications.Row.read := true |} ].

(** A notification service that sets the read flag of the rows with the
  given id. *)
Definition markAsReadById (notificationId : string)
    : Eff.M (list Notifications.Notification) unit :=
  fun table =>
    Eff.Return tt
      (List.map (fun n =>
         if String.eqb (Notifications.Row.id n) notificationId
         then {| Notifications.Row.id := Notifications.Row.id n;
                 Notifications.Row.userId := Notifications.Row.userId n;
                 Notifications.Row.read := true |}
         else n) table).

Definition notificationRequest (user : option string) (id : string) : Notifications.Request :=
  {| Notifications.user_id := user; Notifications.params_id := id |}.

(** [parseFloat] on the strings the examples use: a non-empty string of
  decimal digits parses to its value, anything else here to [NaN]. *)
Fixpoint digitsValue (acc : Z) (s : string) : option Z :=
  match s with
  | EmptyString => Some acc
  | String c s' =>
      if JS.isDigit c
      then digitsValue (10 * acc + (Z.of_nat (nat_of_ascii c) - 48))%Z s'
      else None
  end.

Definition parseDigits (s : string) : Num.t :=
  match s with
  | EmptyString => Num.NaN
  | _ => match digitsValue 0 s with
         | Some z => Num.Fin (Qc_of_Z z)
         | None => Num.NaN
         end
  end.

Definition money (z : Z) : Num.t := Num.Fin (Qc_of_Z z).

(** A ledger where Alice holds 100 of the primary currency and 50 coins. *)
Definition ledger : Ledger.State :=
  {| Ledger.wallets :=
       {[ "did:privy:alice" := {| Ledger.balance := Qc_of_Z 100; Ledger.coins := Qc_of_Z 50 |} ]};
     Ledger.transactions := [];
     Ledger.challenges := ∅ |}.

Definition challengeForm : Client.ChallengeForm :=
  {| Client.challenged := "did:privy:bob";
     Client.title := "Derby";
     Client.description := None;
     Client.category := "sports";
     Client.amount := "25";
     Client.dueDate := None |}.

(** A request that carries both a live session and a header. *)
Definition sessionAndHeader (header : string) : Http.Request :=
  {| Http.authorization := Some header;
     Http.isAuthenticated := Some true;
     Http.user := Some (Http.SessionUser alice) |}.

(** Alice's table behind a connection that is down. *)
Definition downOnce : FlakyStorage.Db :=
  {| FlakyStorage.table := oneUser; FlakyStorage.down := true |}.

Definition recovered : FlakyStorage.Db :=
  {| FlakyStorage.table := oneUser; FlakyStorage.down := false |}.

End Samples.

(** ** What the initials heuristic is meant to compute

    The tokens of a local-part are its maximal runs of alphanumeric
    characters, and the initials are read off the first two of them. *)

Module InitialsSpec.
Import JS.

Fixpoint allChars (p : ascii -> bool) (s : string) : bool :=
  match s with
  | EmptyString => true
  | String c s' => p c && allChars p s'
  end.

Definition notAlnum (c : ascii) : bool := negb (isAlnum c).

(** A token cannot be extended to the right into [rest]. *)
Definition tokenEnds (rest : string) : bool :=
  match rest with
  | EmptyString => true
  | String c _ => notAlnum c
  end.

(** [Tokens s toks]: [s] is a run of separators, then a token, then what is
  left, and so on; tokens are non-empty, alphanumeric and maximal. *)
Inductive Tokens : string -> list string -> Prop :=
| tokens_none sep :
  allChars notAlnum sep = true ->
  Tokens sep []
| tokens_next sep tok rest toks :
  allChars notAlnum sep = true ->
  nonEmpty tok = true ->
  allChars isAlnum tok = true ->
  tokenEnds rest = true ->
  Tokens rest toks ->
  Tokens (sep +:+ tok +:+ rest) (tok :: toks).

(** The uppercased first letter of a token. *)
Definition firstLetter (tok : string) : string :=
  match tok with
  | EmptyString => EmptyString
  | String c _ => String (upperChar c) EmptyString
  end.

(** The uppercased first two characters of a token. *)
Definition firstTwo (tok : string) : string :=
  match tok with
  | String c (String d _) => String (upperChar c) (String (upperChar d) EmptyString)
  | _ => firstLetter tok
  end.

Definition initialsOf (toks : list string) : string :=
  match toks with
  | [] => EmptyString
  | [tok] => firstTwo tok
  | tok0 :: tok1 :: _ => firstLetter tok0 +:+ firstLetter tok1
  end.

End InitialsSpec.

(** * Properties *)

(** ** Strings and tokens *)

Section StringFacts.
Import JS InitialsSpec.

Lemma string_app_nil_l (a : string) : "" +:+ a = a.
Proof. reflexivity. Qed.

Lemma string_app_cons (x : ascii) (a b : string) :
  String x a +:+ b = String x (a +:+ b).
Proof. reflexivity. Qed.

Lemma string_app_assoc (a b c : string) : (a +:+ b) +:+ c = a +:+ (b +:+ c).
Proof.
  induction a as [|x a IH]; [reflexivity |].
  rewrite !string_app_cons. f_equal. exact IH.
Qed.

Lemma string_app_nil_r (a : string) : a +:+ "" = a.
Proof.
  induction a as [|x a IH]; [reflexivity |].
  rewrite string_app_cons. f_equal. exact IH.
Qed.

Lemma allChars_app p (a b : string) :
  allChars p (a +:+ b) = allChars p a && allChars p b.
Proof.
  induction a as [|x a IH]; [reflexivity |].
  rewrite string_app_cons. simpl. rewrite IH. now rewrite andb_assoc.
Qed.

Lemma Tokens_skip sep s toks :
  allChars notAlnum sep = true -> Tokens s toks -> Tokens (sep +:+ s) toks.
Proof.
  intros Hsep Ht. destruct Ht as [sep0 H0 | sep0 tok rest toks H0 Hne Hal Hend Hrest].
  - apply tokens_none. rewrite allChars_app, Hsep, H0. reflexivity.
  - rewrite <- string_app_assoc. apply tokens_next; try assumption.
    rewrite allChars_app, Hsep, H0. reflexivity.
Qed.

(** Both phases of the splitter, read through [filterBoolean], produce the
    tokens of what has been consumed and what remains. *)
Lemma split_from_tokens (s : string) :
  (forall cur, allChars isAlnum cur = true ->
     Tokens (cur +:+ s) (filterBoolean (splitNonAlnumFrom cur false s)))
  /\ (forall sep, allChars notAlnum sep = true ->
     Tokens (sep +:+ s) (filterBoolean (splitNonAlnumFrom "" true s))).
Proof.
  induction s as [|c s [IHa IHb]]; split.
  - intros cur Hcur. simpl. destruct cur as [|x cur]; simpl.
    + apply tokens_none. reflexivity.
    + apply (tokens_next "" (String x cur) "" []); try reflexivity; try assumption.
      apply tokens_none. reflexivity.
  - intros sep Hsep. simpl. apply tokens_none. now rewrite string_app_nil_r.
  - intros cur Hcur. simpl. destruct (isAlnum c) eqn:Hc.
    + replace (cur +:+ String c s) with ((cur +:+ String c "") +:+ s)
        by (rewrite string_app_assoc; reflexivity).
      apply IHa. rewrite allChars_app, Hcur. simpl. now rewrite Hc.
    + assert (Hrest : Tokens (String c s) (filterBoolean (splitNonAlnumFrom "" true s))).
      { apply (IHb (String c "")). simpl. unfold notAlnum. now rewrite Hc. }
      destruct cur as [|x cur]; simpl.
      * exact Hrest.
      * apply (tokens_next "" (String x cur) (String c s)); try reflexivity; try assumption.
        simpl. unfold notAlnum. now rewrite Hc.
  - intros sep Hsep. simpl. destruct (isAlnum c) eqn:Hc.
    + apply Tokens_skip; [assumption |].
      apply (IHa (String c "")). simpl. now rewrite Hc.
    + replace (sep +:+ String c s) with ((sep +:+ String c "") +:+ s)
        by (rewrite string_app_assoc; reflexivity).
      apply IHb. rewrite allChars_app, Hsep. simpl. unfold notAlnum. now rewrite Hc.
Qed.

Lemma split_tokens (s : string) : Tokens s (filterBoolean (splitNonAlnum s)).
Proof. apply (proj1 (split_from_tokens s) ""). reflexivity. Qed.

(** A string splits in one way only into a run of [p]-characters followed by
    something that does not begin with one. *)
Lemma run_unique (p : ascii -> bool) (a a' b b' : string) :
  allChars p a = true -> allChars p a' = true ->
  match b with EmptyString => true | String c _ => negb (p c) end = true ->
  match b' with EmptyString => true | String c _ => negb (p c) end = true ->
  a +:+ b = a' +:+ b' -> a = a' /\ b = b'.
Proof.
  revert a'. induction a as [|x a IH]; intros [|x' a'] Ha Ha' Hb Hb' E;
    rewrite ?string_app_cons, ?string_app_nil_l in E; simpl in Ha, Ha'.
  - auto.
  - subst b. apply andb_prop in Ha' as [Hx _]. rewrite Hx in Hb. discriminate.
  - subst b'. apply andb_prop in Ha as [Hx _]. rewrite Hx in Hb'. discriminate.
  - injection E as -> E. apply andb_prop in Ha as [_ Ha]. apply andb_prop in Ha' as [_ Ha'].
    destruct (IH a' Ha Ha' Hb Hb' E) as [-> ->]. auto.
Qed.

Lemma token_starts_alnum (tok rest : string) :
  nonEmpty tok = true -> allChars isAlnum tok = true ->
  match tok +:+ rest with EmptyString => true | String c _ => negb (notAlnum c) end = true.
Proof.
  destruct tok as [|c tok]; [discriminate |].
  rewrite string_app_cons. simpl.
  intros _ H. apply andb_prop in H as [Hc _]. unfold notAlnum. now rewrite Hc.
Qed.

Lemma tokenEnds_run (rest : string) :
  tokenEnds rest = true ->
  match rest with EmptyString => true | String c _ => negb (isAlnum c) end = true.
Proof. destruct rest; simpl; auto. Qed.

Lemma Tokens_unique (s : string) (t1 t2 : list string) :
  Tokens s t1 -> Tokens s t2 -> t1 = t2.
Proof.
  intros H1. revert t2.
  induction H1 as [sep Hsep | sep tok rest toks Hsep Hne Hal Hend Hrest IH]; intros t2 H2.
  - inversion H2 as [sep' Hsep' | sep' tok' rest' toks' Hsep' Hne' Hal' Hend' Hrest' E]; subst.
    + reflexivity.
    + rewrite !allChars_app in Hsep.
      apply andb_prop in Hsep as [_ Hsep]. apply andb_prop in Hsep as [Htok _].
      destruct tok' as [|c tok']; [discriminate |]. simpl in Htok, Hal'.
      apply andb_prop in Htok as [Hc _]. apply andb_prop in Hal' as [Hc' _].
      unfold notAlnum in Hc. rewrite Hc' in Hc. discriminate.
  - inversion H2 as [sep' Hsep' E | sep' tok' rest' toks' Hsep' Hne' Hal' Hend' Hrest' E]; subst.
    + rewrite !allChars_app in Hsep'.
      apply andb_prop in Hsep' as [_ Hsep']. apply andb_prop in Hsep' as [Htok _].
      destruct tok as [|c tok]; [discriminate |]. simpl in Htok, Hal.
      apply andb_prop in Htok as [Hc _]. apply andb_prop in Hal as [Hc' _].
      unfold notAlnum in Hc. rewrite Hc' in Hc. discriminate.
    + destruct (run_unique notAlnum sep' sep (tok' +:+ rest') (tok +:+ rest))
        as [-> E2]; try assumption; try (apply token_starts_alnum; assumption).
      destruct (run_unique isAlnum tok' tok rest' rest)
        as [-> ->]; try assumption; try (apply tokenEnds_run; assumption).
      f_equal. apply IH. assumption.
Qed.

Lemma charAt0_firstLetter (tok : string) :
  toUpperCase (charAt0 tok) = firstLetter tok.
Proof. destruct tok as [|c [|d tok]]; reflexivity. Qed.

Lemma toUpperCase_app (a b : string) :
  toUpperCase (a +:+ b) = toUpperCase a +:+ toUpperCase b.
Proof.
  induction a as [|x a IH]; [reflexivity |].
  rewrite string_app_cons. simpl. rewrite string_app_cons. f_equal. exact IH.
Qed.

Lemma sliceTo2_firstTwo (tok : string) : toUpperCase (sliceTo 2 tok) = firstTwo tok.
Proof. destruct tok as [|c [|d [|e tok]]]; reflexivity. Qed.

End StringFacts.

(** ** The initials fallback *)

Section InitialsFacts.
Import JS Initials InitialsSpec.

Lemma Tokens_empty (toks : list string) : Tokens "" toks -> toks = [].
Proof.
  intros H. symmetry. apply (Tokens_unique "" [] toks); [| exact H].
  apply tokens_none. reflexivity.
Qed.

Lemma initials_of_tokens (email : string) (toks : list string) :
  Tokens (splitHead "@" email) toks ->
  getInitialsFromEmail (Some email) = initialsOf toks.
Proof.
  intros Ht. destruct email as [|c email].
  - simpl in Ht. now rewrite (Tokens_empty toks Ht).
  - unfold getInitialsFromEmail.
    rewrite <- (Tokens_unique _ _ _ (split_tokens (splitHead "@" (String c email))) Ht).
    destruct (filterBoolean (splitNonAlnum (splitHead "@" (String c email))))
      as [|p0 [|p1 rest]]; simpl.
    + reflexivity.
    + apply sliceTo2_firstTwo.
    + rewrite toUpperCase_app, !charAt0_firstLetter. reflexivity.
Qed.

Lemma fallback_is_User (claims : Claims.t) :
  getInitialsFromEmail (Claims.email claims) = "" ->
  PrivyAuth.fallbackFirstName claims = "User".
Proof. unfold PrivyAuth.fallbackFirstName. now intros ->. Qed.

End InitialsFacts.

(** C9. The initials fallback splits the local-part (the text before the
    first at-sign) into its maximal alphanumeric runs; with two or more
    tokens it returns the uppercased first letters of the first two, with one
    token its first two characters uppercased, and with an empty local-part
    or a missing email the empty string. So [jo.doe@x.com] gives [JD],
    [doe@x.com] gives [DO], and [@x.com] or an empty email give the empty
    string, which the construction of a new user replaces by the literal
    [User]: that is the first name written when the claims carry neither a
    given name nor a display name. *)
Theorem initials_fallback :
  (forall (email : string) (toks : list string),
      InitialsSpec.Tokens (JS.splitHead "@" email) toks ->
      Initials.getInitialsFromEmail (Some email) = InitialsSpec.initialsOf toks)
  /\ (forall email : string,
      JS.splitHead "@" email = "" -> Initials.getInitialsFromEmail (Some email) = "")
  /\ Initials.getInitialsFromEmail None = ""
  /\ Initials.getInitialsFromEmail (Some "jo.doe@x.com") = "JD"
  /\ Initials.getInitialsFromEmail (Some "doe@x.com") = "DO"
  /\ Initials.getInitialsFromEmail (Some "@x.com") = ""
  /\ Initials.getInitialsFromEmail (Some "") = ""
  /\ (forall (userId email : string) (claims : Claims.t),
      Initials.getInitialsFromEmail (Claims.email claims) = "" ->
      PrivyAuth.fallbackFirstName claims = "User"
      /\ (JS.truthy (Claims.given_name claims) = false ->
          JS.truthy (Claims.name claims) = false ->
          UpsertUser.firstName (PrivyAuth.newUser userId email claims) = "User")).
Proof.
  split; [exact initials_of_tokens |].
  split.
  { intros email Hl. rewrite (initials_of_tokens email []); [reflexivity |].
    rewrite Hl. apply InitialsSpec.tokens_none. reflexivity. }
  repeat (split; [reflexivity |]).
  intros userId email claims Hi. split; [now apply fallback_is_User |].
  intros Hg Hn. unfold PrivyAuth.newUser. simpl.
  rewrite (fallback_is_User claims Hi). unfold JS.or. rewrite Hg.
  destruct (Claims.name claims) as [[|c s]|]; simpl in *; try reflexivity; discriminate.
Qed.

Lemma initials_fallback_witness :
  InitialsSpec.Tokens (JS.splitHead "@" "jo.doe@x.com") ["jo"; "doe"]
  /\ Initials.getInitialsFromEmail (Some "jo.doe@x.com")
     = InitialsSpec.initialsOf ["jo"; "doe"].
Proof.
  assert (Ht : InitialsSpec.Tokens (JS.splitHead "@" "jo.doe@x.com") ["jo"; "doe"]).
  { apply (InitialsSpec.tokens_next "" "jo" ".doe" ["doe"]); try reflexivity.
    apply (InitialsSpec.tokens_next "." "doe" "" []); try reflexivity.
    apply InitialsSpec.tokens_none. reflexivity. }
  split; [exact Ht |].
  apply (proj1 initials_fallback "jo.doe@x.com" ["jo"; "doe"]). exact Ht.
Defined.

(** ** The upsert service over the users table *)

Section UpsertFacts.
Import JS Eff MemStorage PrivyAuth.

Lemma find_email_Some (db : Db) (email : string) (u : User.t) :
  List.find (hasEmail email) (rows db) = Some u ->
  (exists k, users db !! k = Some u) /\ User.email u = Some email.
Proof.
  intros Hf. apply find_some in Hf as [Hin He].
  unfold hasEmail in He. apply bool_decide_eq_true in He. split; [| exact He].
  apply list_elem_of_In in Hin. unfold rows in Hin.
  apply list_elem_of_fmap in Hin as [[k v] [-> Hkv]].
  exists k. now apply elem_of_map_to_list in Hkv.
Qed.

Lemma find_email_None (db : Db) (email : string) :
  List.find (hasEmail email) (rows db) = None <->
  (forall k u, users db !! k = Some u -> User.email u <> Some email).
Proof.
  split.
  - intros Hf k u Hk He.
    pose proof (find_none _ _ Hf u) as Hn.
    assert (Hin : In u (rows db)).
    { apply list_elem_of_In. unfold rows. apply list_elem_of_fmap.
      exists (k, u). split; [reflexivity |]. now apply elem_of_map_to_list. }
    specialize (Hn Hin). unfold hasEmail in Hn.
    apply bool_decide_eq_false in Hn. contradiction.
  - intros Hall. destruct (List.find (hasEmail email) (rows db)) as [u|] eqn:Hf; [| reflexivity].
    apply find_email_Some in Hf as [[k Hk] He]. exfalso. exact (Hall k u Hk He).
Qed.

Lemma find_email_exists (db : Db) (email : string) (k : string) (u0 : User.t) :
  users db !! k = Some u0 -> User.email u0 = Some email ->
  exists u, List.find (hasEmail email) (rows db) = Some u.
Proof.
  intros Hk He. destruct (List.find (hasEmail email) (rows db)) as [u|] eqn:Hf; [eauto |].
  exfalso. exact (proj1 (find_email_None db email) Hf k u0 Hk He).
Qed.

(** The three ways the service resolves a user. *)
Lemma upsert_found (db : Db) (userId : string) (claims : Claims.t) (u : User.t) :
  users db !! userId = Some u ->
  upsertPrivyUser userId claims db = linkTelegram userId claims (Some u) db.
Proof.
  intros Hu. unfold upsertPrivyUser, tryCatch, bind, getUserFromDb, tryCatch. simpl.
  rewrite Hu. destruct (linkTelegram userId claims (Some u) db); reflexivity.
Qed.

Lemma upsert_reconciled (db : Db) (userId : string) (claims : Claims.t) (u : User.t) :
  users db !! userId = None ->
  List.find (hasEmail (claimsEmail userId claims)) (rows db)
    = Some u ->
  upsertPrivyUser userId claims db = Return (Some u) db.
Proof.
  intros Hu Hf. unfold claimsEmail in Hf.
  unfold upsertPrivyUser, tryCatch, bind, getUserFromDb, tryCatch. simpl.
  rewrite Hu. simpl. rewrite Hf. reflexivity.
Qed.

Lemma upsert_created (db : Db) (userId : string) (claims : Claims.t) :
  users db !! userId = None ->
  List.find (hasEmail (claimsEmail userId claims)) (rows db)
    = None ->
  upsertPrivyUser userId claims db
  = linkTelegram userId claims (Some (createdRow userId claims)) (afterInsert db userId claims).
Proof.
  intros Hu Hf. unfold claimsEmail in Hf.
  unfold upsertPrivyUser, tryCatch, bind, getUserFromDb, tryCatch. simpl.
  rewrite Hu. simpl. rewrite Hf. simpl. rewrite Hu.
  fold (claimsEmail userId claims). fold (createdRow userId claims).
  fold (afterInsert db userId claims).
  destruct (linkTelegram _ _ _ _); reflexivity.
Qed.

End UpsertFacts.

Section LinkFacts.
Import JS Eff MemStorage PrivyAuth.

Lemma nonempty_truthy (s : string) : s <> "" -> truthy (Some s) = true.
Proof. destruct s; [congruence | reflexivity]. Qed.

Lemma link_already (db : Db) (userId : string) (claims : Claims.t) (u : User.t) :
  truthy (User.telegramId u) = true ->
  linkTelegram userId claims (Some u) db = Return (Some u) db.
Proof.
  intros Ht. unfold linkTelegram.
  destruct (telegramAccount claims) as [acct|]; [| reflexivity].
  destruct (LinkedAccount.telegramUserId acct) as [[|c r]|]; try reflexivity.
  rewrite Ht. reflexivity.
Qed.

Lemma link_write (db : Db) (userId : string) (claims : Claims.t) (u : User.t)
    (acct : LinkedAccount.t) (tid : string) :
  telegramAccount claims = Some acct ->
  LinkedAccount.telegramUserId acct = Some tid -> tid <> "" ->
  truthy (User.telegramId u) = false ->
  users db !! userId = Some u ->
  linkTelegram userId claims (Some u) db
  = Return (Some (setTelegram (telegramInfo acct tid) u))
           (afterLink db userId (setTelegram (telegramInfo acct tid) u)).
Proof.
  intros Ha Hid Hne Ht Hu. unfold linkTelegram. rewrite Ha, Hid.
  destruct tid as [|c r]; [congruence |]. rewrite Ht. simpl. rewrite Hu. reflexivity.
Qed.

(** Claims either name a Telegram account to link, or the linkage step
    returns what it is given. *)
Lemma link_cases (claims : Claims.t) :
  (exists acct tid, telegramAccount claims = Some acct
     /\ LinkedAccount.telegramUserId acct = Some tid /\ tid <> "")
  \/ (forall userId dbUser (db : Db), linkTelegram userId claims dbUser db = Return dbUser db).
Proof.
  destruct (telegramAccount claims) as [acct|] eqn:Ha.
  - destruct (LinkedAccount.telegramUserId acct) as [[|c r]|] eqn:Hid.
    + right. intros. unfold linkTelegram. rewrite Ha, Hid. reflexivity.
    + left. exists acct, (String c r). repeat split; congruence.
    + right. intros. unfold linkTelegram. rewrite Ha, Hid. reflexivity.
  - right. intros. unfold linkTelegram. rewrite Ha. reflexivity.
Qed.

Lemma afterRuns_fixed {S A} (m : M S A) (s : S) (n : nat) :
  finalStore (m s) = s -> afterRuns n m s = s.
Proof. intros Hs. induction n as [|n IH]; simpl; [reflexivity |]. now rewrite Hs. Qed.

End LinkFacts.

(** C6. When the subject id of the claims matches no row but their email, real
    or synthetic ([<id>@privy.user]), is the email of an existing row, the
    service returns an existing row with that email (that very row when the
    email is unique) and leaves the table as it was: no row is created and
    nothing is written. *)
Theorem reconcile_by_email
    (db : MemStorage.Db) (userId : string) (claims : Claims.t) (k : string) (u0 : User.t) :
  Claims.resolvedId claims = Some userId ->
  MemStorage.users db !! userId = None ->
  MemStorage.users db !! k = Some u0 ->
  User.email u0 = Some (MemStorage.claimsEmail userId claims) ->
  exists u,
    PrivyAuth.upsertPrivyUser userId claims db = Eff.Return (Some u) db
    /\ (exists k', MemStorage.users db !! k' = Some u)
    /\ User.email u = Some (MemStorage.claimsEmail userId claims)
    /\ ((forall k' u', MemStorage.users db !! k' = Some u' ->
           User.email u' = Some (MemStorage.claimsEmail userId claims) -> u' = u0) ->
        u = u0).
Proof.
  intros _ Hnone Hk He.
  destruct (find_email_exists db _ k u0 Hk He) as [u Hf].
  exists u. destruct (find_email_Some db _ u Hf) as [[k' Hk'] Hu].
  split; [now apply upsert_reconciled |].
  split; [eauto |]. split; [exact Hu |].
  intros Huniq. exact (Huniq k' u Hk' Hu).
Qed.

Lemma reconcile_by_email_witness :
  Claims.resolvedId Samples.sameEmailWithTelegram = Some "did:privy:other"
  /\ MemStorage.users Samples.oneUser !! "did:privy:other" = None
  /\ MemStorage.users Samples.oneUser !! "did:privy:alice" = Some Samples.alice
  /\ User.email Samples.alice
     = Some (MemStorage.claimsEmail "did:privy:other" Samples.sameEmailWithTelegram)
  /\ exists u,
       PrivyAuth.upsertPrivyUser "did:privy:other" Samples.sameEmailWithTelegram Samples.oneUser
       = Eff.Return (Some u) Samples.oneUser.
Proof.
  assert (H1 : Claims.resolvedId Samples.sameEmailWithTelegram = Some "did:privy:other")
    by reflexivity.
  assert (H2 : MemStorage.users Samples.oneUser !! "did:privy:other" = None)
    by (vm_compute; reflexivity).
  assert (H3 : MemStorage.users Samples.oneUser !! "did:privy:alice" = Some Samples.alice)
    by (vm_compute; reflexivity).
  assert (H4 : User.email Samples.alice
     = Some (MemStorage.claimsEmail "did:privy:other" Samples.sameEmailWithTelegram))
    by reflexivity.
  repeat (split; [assumption |]).
  destruct (reconcile_by_email Samples.oneUser "did:privy:other" Samples.sameEmailWithTelegram
              "did:privy:alice" Samples.alice H1 H2 H3 H4) as [u [Hu _]].
  exists u. exact Hu.
Defined.

(** C7. For claims with a novel subject id and an email no row has, the first
    call creates exactly one row, under that id, and touches no other row;
    its writes are the insert and at most the Telegram update of that same
    row. Every later call with the same claims returns the same row and
    leaves the table and the write log as they are. *)
Theorem upsert_idempotent (db : MemStorage.Db) (userId : string) (claims : Claims.t) :
  Claims.resolvedId claims = Some userId ->
  MemStorage.users db !! userId = None ->
  (forall k u, MemStorage.users db !! k = Some u ->
     User.email u <> Some (MemStorage.claimsEmail userId claims)) ->
  exists (u : User.t) (db1 : MemStorage.Db),
    PrivyAuth.upsertPrivyUser userId claims db = Eff.Return (Some u) db1
    /\ size (MemStorage.users db1) = S (size (MemStorage.users db))
    /\ MemStorage.users db1 !! userId = Some u
    /\ (forall k, k <> userId -> MemStorage.users db1 !! k = MemStorage.users db !! k)
    /\ (MemStorage.writes db1 = (MemStorage.writes db ++ [MemStorage.Inserted userId])%list
        \/ MemStorage.writes db1
           = (MemStorage.writes db
              ++ [MemStorage.Inserted userId; MemStorage.Updated userId])%list)
    /\ PrivyAuth.upsertPrivyUser userId claims db1 = Eff.Return (Some u) db1
    /\ (forall n, Eff.afterRuns n (PrivyAuth.upsertPrivyUser userId claims) db1 = db1).
Proof.
  intros _ Hnone Hemail.
  apply find_email_None in Hemail.
  pose proof (upsert_created db userId claims Hnone Hemail) as Hfirst.
  assert (Hins : MemStorage.users (MemStorage.afterInsert db userId claims) !! userId
                 = Some (MemStorage.createdRow userId claims))
    by (simpl; apply lookup_insert_eq).
  destruct (link_cases claims) as [(acct & tid & Ha & Hid & Hne) | Hskip].
  - set (u1 := MemStorage.setTelegram (PrivyAuth.telegramInfo acct tid)
                 (MemStorage.createdRow userId claims)).
    set (db1 := MemStorage.afterLink (MemStorage.afterInsert db userId claims) userId u1).
    assert (Hcall : PrivyAuth.upsertPrivyUser userId claims db = Eff.Return (Some u1) db1).
    { rewrite Hfirst. now apply link_write. }
    assert (Hu1 : MemStorage.users db1 !! userId = Some u1)
      by (simpl; apply lookup_insert_eq).
    assert (Hagain : PrivyAuth.upsertPrivyUser userId claims db1 = Eff.Return (Some u1) db1).
    { rewrite (upsert_found db1 userId claims u1 Hu1). apply link_already.
      simpl. now apply nonempty_truthy. }
    exists u1, db1. split; [exact Hcall |].
    split. { simpl. rewrite insert_insert_eq. now apply map_size_insert_None. }
    split; [exact Hu1 |].
    split. { intros k Hk. simpl. now rewrite !lookup_insert_ne by congruence. }
    split. { right. simpl. now rewrite <- app_assoc. }
    split; [exact Hagain |].
    intros n. apply afterRuns_fixed. now rewrite Hagain.
  - set (u1 := MemStorage.createdRow userId claims).
    set (db1 := MemStorage.afterInsert db userId claims).
    assert (Hcall : PrivyAuth.upsertPrivyUser userId claims db = Eff.Return (Some u1) db1).
    { rewrite Hfirst. apply Hskip. }
    assert (Hagain : PrivyAuth.upsertPrivyUser userId claims db1 = Eff.Return (Some u1) db1).
    { rewrite (upsert_found db1 userId claims u1 Hins). apply Hskip. }
    exists u1, db1. split; [exact Hcall |].
    split. { simpl. now apply map_size_insert_None. }
    split; [exact Hins |].
    split. { intros k Hk. simpl. now rewrite lookup_insert_ne by congruence. }
    split. { left. reflexivity. }
    split; [exact Hagain |].
    intros n. apply afterRuns_fixed. now rewrite Hagain.
Qed.

Lemma sample_emails_differ (k : string) (u : User.t) :
  MemStorage.users Samples.oneUser !! k = Some u ->
  User.email u <> Some (MemStorage.claimsEmail "did:privy:bob" Samples.bobWithTelegram).
Proof.
  unfold Samples.oneUser. simpl. intros Hk.
  apply lookup_singleton_Some in Hk as [_ <-]. discriminate.
Qed.

Lemma upsert_idempotent_witness :
  Claims.resolvedId Samples.bobWithTelegram = Some "did:privy:bob"
  /\ MemStorage.users Samples.oneUser !! "did:privy:bob" = None
  /\ exists u db1,
       PrivyAuth.upsertPrivyUser "did:privy:bob" Samples.bobWithTelegram Samples.oneUser
       = Eff.Return (Some u) db1
       /\ size (MemStorage.users db1) = 2
       /\ PrivyAuth.upsertPrivyUser "did:privy:bob" Samples.bobWithTelegram db1
          = Eff.Return (Some u) db1.
Proof.
  assert (H1 : Claims.resolvedId Samples.bobWithTelegram = Some "did:privy:bob")
    by reflexivity.
  assert (H2 : MemStorage.users Samples.oneUser !! "did:privy:bob" = None)
    by (vm_compute; reflexivity).
  repeat (split; [assumption |]).
  destruct (upsert_idempotent Samples.oneUser "did:privy:bob" Samples.bobWithTelegram
              H1 H2 sample_emails_differ)
    as (u & db1 & Hcall & Hsize & _ & _ & _ & Hagain & _).
  exists u, db1. repeat split; assumption.
Defined.

(** C1, as stated, does not hold: claims that carry a Telegram account with an
    id do not always leave the returned user linked. A second identity with
    the email of an unlinked row is answered with that row as it is. *)
Lemma linkage_skipped_on_email_match :
  ~ (forall (db : MemStorage.Db) (userId : string) (claims : Claims.t)
            (accounts : list LinkedAccount.t) (account : LinkedAccount.t) (tid : string)
            (r : User.t) (db' : MemStorage.Db),
        Claims.resolvedId claims = Some userId ->
        Claims.linkedAccounts claims = Some accounts ->
        In account accounts ->
        PrivyAuth.isTelegram account = true ->
        LinkedAccount.telegramUserId account = Some tid ->
        tid <> "" ->
        PrivyAuth.upsertPrivyUser userId claims db = Eff.Return (Some r) db' ->
        JS.truthy (User.telegramId r) = true).
Proof.
  intros Hall.
  specialize (Hall Samples.oneUser "did:privy:other" Samples.sameEmailWithTelegram
                [Samples.telegram777] Samples.telegram777 "777"
                Samples.alice Samples.oneUser).
  assert (Hcall : PrivyAuth.upsertPrivyUser "did:privy:other" Samples.sameEmailWithTelegram
                    Samples.oneUser = Eff.Return (Some Samples.alice) Samples.oneUser)
    by (vm_compute; reflexivity).
  specialize (Hall eq_refl eq_refl (or_introl eq_refl) eq_refl eq_refl
                ltac:(discriminate) Hcall).
  discriminate Hall.
Qed.

(** The same holds on the lookup path when the first Telegram entry of the
    claims has no id: [find] stops at it. *)
Example linkage_reads_first_telegram_entry :
  PrivyAuth.upsertPrivyUser "did:privy:alice" Samples.aliceTwoTelegram Samples.oneUser
  = Eff.Return (Some Samples.alice) Samples.oneUser.
Proof. vm_compute. reflexivity. Qed.

(** C1, amended. Let the first linked account of type telegram in the claims
    carry a non-empty [telegramUserId]. When the user is found by id, or is
    newly created, the service runs the linkage step on it: a user without
    a recorded telegramId is updated with the telegram id, the telegram
    username (or [tg_<id>] when the account has none) and the linked flag,
    and that update is the only write of the step; a user that already has a
    telegramId is returned with no write at all. Running the call again after
    the linkage writes nothing. *)
Theorem telegram_linkage
    (db : MemStorage.Db) (userId : string) (claims : Claims.t)
    (account : LinkedAccount.t) (tid : string) :
  Claims.resolvedId claims = Some userId ->
  PrivyAuth.telegramAccount claims = Some account ->
  LinkedAccount.telegramUserId account = Some tid ->
  tid <> "" ->
  let info := PrivyAuth.telegramInfo account tid in
  (forall u, MemStorage.users db !! userId = Some u ->
     (JS.truthy (User.telegramId u) = true ->
        PrivyAuth.upsertPrivyUser userId claims db = Eff.Return (Some u) db)
     /\ (JS.truthy (User.telegramId u) = false ->
        let linked := MemStorage.setTelegram info u in
        let db' := MemStorage.afterLink db userId linked in
        PrivyAuth.upsertPrivyUser userId claims db = Eff.Return (Some linked) db'
        /\ PrivyAuth.upsertPrivyUser userId claims db' = Eff.Return (Some linked) db'))
  /\ (MemStorage.users db !! userId = None ->
      (forall k u, MemStorage.users db !! k = Some u ->
         User.email u <> Some (MemStorage.claimsEmail userId claims)) ->
      let linked := MemStorage.setTelegram info (MemStorage.createdRow userId claims) in
      let db' := MemStorage.afterLink (MemStorage.afterInsert db userId claims) userId linked in
      PrivyAuth.upsertPrivyUser userId claims db = Eff.Return (Some linked) db'
      /\ PrivyAuth.upsertPrivyUser userId claims db' = Eff.Return (Some linked) db')
  /\ (forall u,
      User.telegramId (MemStorage.setTelegram info u) = Some tid
      /\ User.telegramUsername (MemStorage.setTelegram info u)
         = Some (JS.orDefault (LinkedAccount.telegramUsername account) ("tg_" +:+ tid))
      /\ User.isTelegramUser (MemStorage.setTelegram info u) = true).
Proof.
  intros _ Ha Hid Hne info.
  assert (Hre : forall (d : MemStorage.Db) (u : User.t),
            MemStorage.users (MemStorage.afterLink d userId (MemStorage.setTelegram info u))
              !! userId = Some (MemStorage.setTelegram info u))
    by (intros; simpl; apply lookup_insert_eq).
  assert (Hagain : forall (d : MemStorage.Db) (u : User.t),
            PrivyAuth.upsertPrivyUser userId claims
              (MemStorage.afterLink d userId (MemStorage.setTelegram info u))
            = Eff.Return (Some (MemStorage.setTelegram info u))
                (MemStorage.afterLink d userId (MemStorage.setTelegram info u))).
  { intros d u. rewrite (upsert_found _ userId claims _ (Hre d u)).
    apply link_already. simpl. now apply nonempty_truthy. }
  split; [| split].
  - intros u Hu. split.
    + intros Ht. rewrite (upsert_found db userId claims u Hu). now apply link_already.
    + intros Ht linked db'. split; [| apply Hagain].
      rewrite (upsert_found db userId claims u Hu). now apply link_write.
  - intros Hnone Hemail linked db'. split; [| apply Hagain].
    apply find_email_None in Hemail.
    rewrite (upsert_created db userId claims Hnone Hemail).
    apply link_write; try assumption; try reflexivity.
    simpl. apply lookup_insert_eq.
  - intros u. repeat split.
Qed.

Lemma telegram_linkage_witness :
  Claims.resolvedId Samples.aliceWithTelegram = Some "did:privy:alice"
  /\ PrivyAuth.telegramAccount Samples.aliceWithTelegram = Some Samples.telegram777
  /\ LinkedAccount.telegramUserId Samples.telegram777 = Some "777"
  /\ "777" <> ""
  /\ PrivyAuth.upsertPrivyUser "did:privy:alice" Samples.aliceWithTelegram Samples.oneUser
     = Eff.Return
         (Some (MemStorage.setTelegram (PrivyAuth.telegramInfo Samples.telegram777 "777")
                  Samples.alice))
         (MemStorage.afterLink Samples.oneUser "did:privy:alice"
            (MemStorage.setTelegram (PrivyAuth.telegramInfo Samples.telegram777 "777")
               Samples.alice)).
Proof.
  assert (H4 : "777" <> "") by discriminate.
  repeat (split; [first [reflexivity | exact H4] |]).
  refine (proj1 (proj2 (proj1
    (telegram_linkage Samples.oneUser "did:privy:alice" Samples.aliceWithTelegram
       Samples.telegram777 "777" eq_refl eq_refl eq_refl H4)
    Samples.alice _) eq_refl)).
  vm_compute. reflexivity.
Defined.

(** ** The authentication middleware *)

Section MiddlewareFacts.
Import JS Eff Http Middleware.
Context {DB : Type} `{Storage DB}.
Variable verifyAuthToken : string -> option Claims.t + string.

Abbreviation run := (PrivyAuthMiddleware verifyAuthToken).
Abbreviation endsAs := (Middleware.endsAs verifyAuthToken).

Lemma noHeader_falsy req : noHeader req <-> truthy (authorization req) = false.
Proof.
  unfold noHeader. destruct (authorization req) as [[|c r]|]; simpl; split;
    intros; try reflexivity; try discriminate; auto.
  destruct H0; discriminate.
Qed.

Lemma noHeader_not_bearer req h : noHeader req -> bearer req h -> False.
Proof. intros [Hn | Hn] [Hb Hne]; rewrite Hn in Hb; congruence. Qed.

Lemma bearer_functional req h1 h2 : bearer req h1 -> bearer req h2 -> h1 = h2.
Proof. intros [H1 _] [H2 _]. congruence. Qed.

Lemma liveSession_fallback req :
  noHeader req -> (liveSession req <-> sessionFallback req = true).
Proof.
  intros Hn. apply noHeader_falsy in Hn. unfold liveSession, sessionFallback.
  rewrite Hn. simpl.
  destruct (isAuthenticated req) as [[|]|]; destruct (user req) as [u|]; simpl;
    split; try discriminate; try reflexivity; try (intros [? [? ?]]; discriminate);
    try (intros [? ?]; discriminate).
  intros _. split; [reflexivity | eauto].
Qed.

Lemma liveSession_dec req : liveSession req \/ ~ liveSession req.
Proof.
  unfold liveSession.
  destruct (isAuthenticated req) as [[|]|]; destruct (user req) as [u|];
    try (right; intros [? [? ?]]; discriminate).
  left. eauto.
Qed.

(** What the middleware answers under each condition. *)
Lemma session_response req db :
  noHeader req -> liveSession req -> run req db = Return (Next req) db.
Proof.
  intros Hn Hl. apply (liveSession_fallback req Hn) in Hl.
  unfold PrivyAuthMiddleware. now rewrite Hl.
Qed.

Lemma missing_response req db :
  RejectsMissing req -> run req db = Return (Json 401 "Authorization header missing") db.
Proof.
  intros [Hn Hl].
  assert (Hs : sessionFallback req = false).
  { destruct (sessionFallback req) eqn:E; [| reflexivity].
    exfalso. apply Hl. now apply (liveSession_fallback req Hn). }
  unfold PrivyAuthMiddleware. rewrite Hs.
  destruct Hn as [-> | ->]; reflexivity.
Qed.

Lemma bearer_run req h db :
  bearer req h -> run req db = tokenAuth verifyAuthToken req h db.
Proof.
  intros [Ha Hne]. unfold PrivyAuthMiddleware, sessionFallback. rewrite Ha.
  destruct h as [|c r]; [congruence |]. reflexivity.
Qed.

Lemma invalid_response req db :
  RejectsInvalid verifyAuthToken req ->
  run req db = Return (Json 401 "Invalid token or user ID not found") db.
Proof.
  intros (h & Hb & Hv). rewrite (bearer_run req h db Hb).
  unfold tokenAuth, tryCatch, bind.
  destruct Hv as [Hv | (c & Hv & Hid)]; rewrite Hv; simpl; [reflexivity |].
  rewrite Hid. reflexivity.
Qed.

Lemma resolved_response req db h c uid dbUser db' :
  bearer req h ->
  verifyPrivyToken verifyAuthToken (removeFirst "Bearer " h) = Some c ->
  Claims.resolvedId c = Some uid ->
  PrivyAuth.upsertPrivyUser uid c db = Return (Some dbUser) db' ->
  run req db = Return (Next (attach req dbUser)) db'.
Proof.
  intros Hb Hv Hid Hu. rewrite (bearer_run req h db Hb).
  unfold tokenAuth, tryCatch, bind. rewrite Hv. simpl. rewrite Hid, Hu. reflexivity.
Qed.

Lemma no_user_response req db h c uid db' :
  bearer req h ->
  verifyPrivyToken verifyAuthToken (removeFirst "Bearer " h) = Some c ->
  Claims.resolvedId c = Some uid ->
  PrivyAuth.upsertPrivyUser uid c db = Return None db' ->
  run req db = Return (Json 500 "Failed to create or retrieve user") db'.
Proof.
  intros Hb Hv Hid Hu. rewrite (bearer_run req h db Hb).
  unfold tokenAuth, tryCatch, bind. rewrite Hv. simpl. rewrite Hid, Hu. reflexivity.
Qed.

Lemma throw_response req db h c uid e db' :
  bearer req h ->
  verifyPrivyToken verifyAuthToken (removeFirst "Bearer " h) = Some c ->
  Claims.resolvedId c = Some uid ->
  PrivyAuth.upsertPrivyUser uid c db = Throw e db' ->
  run req db = Return (Json 500 "Internal server error during authentication") db'.
Proof.
  intros Hb Hv Hid Hu. rewrite (bearer_run req h db Hb).
  unfold tokenAuth, tryCatch, bind. rewrite Hv. simpl. rewrite Hid, Hu. reflexivity.
Qed.

Lemma Accepts_ends req db : Accepts verifyAuthToken req db -> endsAs req db Accept.
Proof.
  intros [[Hn Hl] | (h & c & uid & u & d & Hb & Hv & Hid & Hu)]; eexists.
  - rewrite (session_response req db Hn Hl). split; reflexivity.
  - rewrite (resolved_response req db h c uid u d Hb Hv Hid Hu). split; reflexivity.
Qed.

Lemma RejectsMissing_ends req db : RejectsMissing req -> endsAs req db MissingCredential.
Proof. intros Hm. eexists. rewrite (missing_response req db Hm). split; reflexivity. Qed.

Lemma RejectsInvalid_ends req db :
  RejectsInvalid verifyAuthToken req -> endsAs req db InvalidCredential.
Proof. intros Hi. eexists. rewrite (invalid_response req db Hi). split; reflexivity. Qed.

Lemma RejectsInternal_ends req db :
  RejectsInternal verifyAuthToken req db -> endsAs req db InternalError.
Proof.
  intros (h & c & uid & Hb & Hv & Hid & [(d & Hu) | (e & d & Hu)]); eexists.
  - rewrite (no_user_response req db h c uid d Hb Hv Hid Hu). split; reflexivity.
  - rewrite (throw_response req db h c uid e d Hb Hv Hid Hu). split; reflexivity.
Qed.

Lemma endsAs_functional req db e1 e2 : endsAs req db e1 -> endsAs req db e2 -> e1 = e2.
Proof. intros (r1 & Hr1 & He1) (r2 & Hr2 & He2). congruence. Qed.

(** Every request falls under one of the four conditions. *)
Lemma middleware_reaches_an_ending req db :
  Accepts verifyAuthToken req db \/ RejectsMissing req
  \/ RejectsInvalid verifyAuthToken req \/ RejectsInternal verifyAuthToken req db.
Proof.
  destruct (authorization req) as [[|c0 r0]|] eqn:Ha.
  - assert (Hn : noHeader req) by (right; exact Ha).
    destruct (liveSession_dec req) as [Hl | Hl]; [left; left | right; left]; now split.
  - assert (Hb : bearer req (String c0 r0)) by (split; [assumption | discriminate]).
    destruct (verifyPrivyToken verifyAuthToken (removeFirst "Bearer " (String c0 r0)))
      as [c|] eqn:Hv.
    + destruct (Claims.resolvedId c) as [uid|] eqn:Hid.
      * destruct (PrivyAuth.upsertPrivyUser uid c db) as [[u|] d | e d] eqn:Hu.
        -- left. right. exists (String c0 r0), c, uid, u, d. auto.
        -- right. right. right. exists (String c0 r0), c, uid.
           split; [exact Hb |]. split; [exact Hv |]. split; [exact Hid |]. left. eauto.
        -- right. right. right. exists (String c0 r0), c, uid.
           split; [exact Hb |]. split; [exact Hv |]. split; [exact Hid |]. right. eauto.
      * right. right. left. exists (String c0 r0). split; [exact Hb |]. right. eauto.
    + right. right. left. exists (String c0 r0). split; [exact Hb |]. left. exact Hv.
  - assert (Hn : noHeader req) by (left; exact Ha).
    destruct (liveSession_dec req) as [Hl | Hl]; [left; left | right; left]; now split.
Qed.

End MiddlewareFacts.

Lemma ending_status (r : Http.Response) (e : Middleware.Ending) :
  Middleware.endingOf r = Some e -> Middleware.statusOf r = Middleware.statusFor e.
Proof.
  destruct r as [q | st msg]; simpl.
  - intros [= <-]. reflexivity.
  - destruct (st =? 401)%nat eqn:E1.
    + apply Nat.eqb_eq in E1. subst st.
      destruct (String.eqb msg _); [intros [= <-]; reflexivity |].
      destruct (String.eqb msg _); [intros [= <-]; reflexivity | discriminate].
    + destruct (st =? 500)%nat eqn:E2; [| discriminate].
      apply Nat.eqb_eq in E2. subst st. intros [= <-]. reflexivity.
Qed.

(** C3. Every request ends in exactly one of four ways, and the way is
    decided by the request, the verifier and the upsert service as follows.
    Exactly one of four conditions holds: a live session without a header or
    a verified token whose user the upsert service resolved; neither header
    nor live session; a header whose token fails verification or gives no
    subject identifier; a verified token for which the upsert service
    returns no user or throws. Under the first the request is passed on
    (unchanged for a session, with the resolved user attached for a token),
    under the second and the third it is answered 401, each with its own
    message, and under the fourth it is answered 500, not 401. Conversely
    the response tells which condition held. The middleware itself never
    throws. *)
Theorem middleware_ends_one_way {DB : Type} `{Storage DB}
    (verifyAuthToken : string -> option Claims.t + string)
    (req : Http.Request) (db : DB) :
  let accepted := Middleware.Accepts verifyAuthToken req db in
  let missing := Middleware.RejectsMissing req in
  let invalid := Middleware.RejectsInvalid verifyAuthToken req in
  let internal := Middleware.RejectsInternal verifyAuthToken req db in
  ((accepted /\ ~ missing /\ ~ invalid /\ ~ internal)
   \/ (~ accepted /\ missing /\ ~ invalid /\ ~ internal)
   \/ (~ accepted /\ ~ missing /\ invalid /\ ~ internal)
   \/ (~ accepted /\ ~ missing /\ ~ invalid /\ internal))
  /\ (exists r db', Middleware.PrivyAuthMiddleware verifyAuthToken req db = Eff.Return r db'
        /\ (accepted <-> Middleware.endingOf r = Some Middleware.Accept)
        /\ (missing <-> Middleware.endingOf r = Some Middleware.MissingCredential)
        /\ (invalid <-> Middleware.endingOf r = Some Middleware.InvalidCredential)
        /\ (internal <-> Middleware.endingOf r = Some Middleware.InternalError)
        /\ (accepted -> Middleware.statusOf r = None)
        /\ (missing -> Middleware.statusOf r = Some 401)
        /\ (invalid -> Middleware.statusOf r = Some 401)
        /\ (internal -> Middleware.statusOf r = Some 500))
  /\ (Middleware.noHeader req -> Middleware.liveSession req ->
      Middleware.PrivyAuthMiddleware verifyAuthToken req db = Eff.Return (Http.Next req) db)
  /\ (forall h verifiedClaims userId dbUser db',
        Middleware.bearer req h ->
        Middleware.verifyPrivyToken verifyAuthToken (JS.removeFirst "Bearer " h)
        = Some verifiedClaims ->
        Claims.resolvedId verifiedClaims = Some userId ->
        PrivyAuth.upsertPrivyUser userId verifiedClaims db = Eff.Return (Some dbUser) db' ->
        Middleware.PrivyAuthMiddleware verifyAuthToken req db
        = Eff.Return (Http.Next (Middleware.attach req dbUser)) db')
  /\ (missing ->
      Middleware.PrivyAuthMiddleware verifyAuthToken req db
      = Eff.Return (Http.Json 401 "Authorization header missing") db)
  /\ (invalid ->
      Middleware.PrivyAuthMiddleware verifyAuthToken req db
      = Eff.Return (Http.Json 401 "Invalid token or user ID not found") db)
  /\ (forall h verifiedClaims userId db',
        Middleware.bearer req h ->
        Middleware.verifyPrivyToken verifyAuthToken (JS.removeFirst "Bearer " h)
        = Some verifiedClaims ->
        Claims.resolvedId verifiedClaims = Some userId ->
        PrivyAuth.upsertPrivyUser userId verifiedClaims db = Eff.Return None db' ->
        Middleware.PrivyAuthMiddleware verifyAuthToken req db
        = Eff.Return (Http.Json 500 "Failed to create or retrieve user") db')
  /\ (forall h verifiedClaims userId e db',
        Middleware.bearer req h ->
        Middleware.verifyPrivyToken verifyAuthToken (JS.removeFirst "Bearer " h)
        = Some verifiedClaims ->
        Claims.resolvedId verifiedClaims = Some userId ->
        PrivyAuth.upsertPrivyUser userId verifiedClaims db = Eff.Throw e db' ->
        Middleware.PrivyAuthMiddleware verifyAuthToken req db
        = Eff.Return (Http.Json 500 "Internal server error during authentication") db').
Proof.
  intros accepted missing invalid internal.
  assert (Hex : forall e1 e2 : Middleware.Ending,
            Middleware.endsAs verifyAuthToken req db e1 -> e1 <> e2 ->
            ~ Middleware.endsAs verifyAuthToken req db e2).
  { intros e1 e2 H1 Hne H2. apply Hne. exact (endsAs_functional _ _ _ _ _ H1 H2). }
  pose proof (Accepts_ends verifyAuthToken req db) as EA.
  pose proof (RejectsMissing_ends verifyAuthToken req db) as EM.
  pose proof (RejectsInvalid_ends verifyAuthToken req db) as EI.
  pose proof (RejectsInternal_ends verifyAuthToken req db) as EE.
  split; [| split; [| split; [| split; [| split; [| split; [| split]]]]]].
  - destruct (middleware_reaches_an_ending verifyAuthToken req db) as [Hc | [Hc | [Hc | Hc]]].
    + left. split; [exact Hc |].
      repeat split; intros Hq;
        [apply EM in Hq | apply EI in Hq | apply EE in Hq];
        (refine (Hex _ _ (EA Hc) _ Hq); discriminate).
    + right. left. split; [| split; [exact Hc |]].
      * intros Hq. apply EA in Hq. (refine (Hex _ _ (EM Hc) _ Hq); discriminate).
      * split; intros Hq; [apply EI in Hq | apply EE in Hq];
          (refine (Hex _ _ (EM Hc) _ Hq); discriminate).
    + right. right. left. split; [| split; [| split; [exact Hc |]]].
      * intros Hq. apply EA in Hq. (refine (Hex _ _ (EI Hc) _ Hq); discriminate).
      * intros Hq. apply EM in Hq. (refine (Hex _ _ (EI Hc) _ Hq); discriminate).
      * intros Hq. apply EE in Hq. (refine (Hex _ _ (EI Hc) _ Hq); discriminate).
    + right. right. right. split; [| split; [| split; [| exact Hc]]].
      * intros Hq. apply EA in Hq. (refine (Hex _ _ (EE Hc) _ Hq); discriminate).
      * intros Hq. apply EM in Hq. (refine (Hex _ _ (EE Hc) _ Hq); discriminate).
      * intros Hq. apply EI in Hq. (refine (Hex _ _ (EE Hc) _ Hq); discriminate).
  - assert (Hend : exists e, Middleware.endsAs verifyAuthToken req db e).
    { destruct (middleware_reaches_an_ending verifyAuthToken req db)
        as [Hc | [Hc | [Hc | Hc]]]; eauto. }
    destruct Hend as (e0 & r & Hr & He0).
    destruct (Middleware.PrivyAuthMiddleware verifyAuthToken req db) as [r' db' | e db']
      eqn:Hrun; [| discriminate Hr].
    simpl in Hr. injection Hr as ->.
    exists r, db'. split; [reflexivity |].
    assert (Hst : forall e, Middleware.endsAs verifyAuthToken req db e ->
              Middleware.endingOf r = Some e).
    { intros e (r' & Hr' & He). rewrite Hrun in Hr'. simpl in Hr'.
      injection Hr' as <-. exact He. }
    assert (Hback : forall e, Middleware.endingOf r = Some e ->
              Middleware.endsAs verifyAuthToken req db e).
    { intros e He. exists r. rewrite Hrun. split; [reflexivity | exact He]. }
    split; [| split; [| split; [| split; [| split; [| split; [| split]]]]]].
    + split; [intros Hq; exact (Hst _ (EA Hq)) |]. intros He.
      destruct (middleware_reaches_an_ending verifyAuthToken req db)
        as [Hc | [Hc | [Hc | Hc]]]; [exact Hc | | |];
        [apply EM in Hc | apply EI in Hc | apply EE in Hc];
        apply Hst in Hc; rewrite He in Hc; discriminate.
    + split; [intros Hq; exact (Hst _ (EM Hq)) |]. intros He.
      destruct (middleware_reaches_an_ending verifyAuthToken req db)
        as [Hc | [Hc | [Hc | Hc]]]; [| exact Hc | |];
        [apply EA in Hc | apply EI in Hc | apply EE in Hc];
        apply Hst in Hc; rewrite He in Hc; discriminate.
    + split; [intros Hq; exact (Hst _ (EI Hq)) |]. intros He.
      destruct (middleware_reaches_an_ending verifyAuthToken req db)
        as [Hc | [Hc | [Hc | Hc]]]; [| | exact Hc |];
        [apply EA in Hc | apply EM in Hc | apply EE in Hc];
        apply Hst in Hc; rewrite He in Hc; discriminate.
    + split; [intros Hq; exact (Hst _ (EE Hq)) |]. intros He.
      destruct (middleware_reaches_an_ending verifyAuthToken req db)
        as [Hc | [Hc | [Hc | Hc]]]; [| | | exact Hc];
        [apply EA in Hc | apply EM in Hc | apply EI in Hc];
        apply Hst in Hc; rewrite He in Hc; discriminate.
    + intros Hq. exact (ending_status _ _ (Hst _ (EA Hq))).
    + intros Hq. exact (ending_status _ _ (Hst _ (EM Hq))).
    + intros Hq. exact (ending_status _ _ (Hst _ (EI Hq))).
    + intros Hq. exact (ending_status _ _ (Hst _ (EE Hq))).
  - apply session_response.
  - apply resolved_response.
  - apply missing_response.
  - apply invalid_response.
  - apply no_user_response.
  - apply throw_response.
Qed.

Example middleware_accepts_session :
  Middleware.responseOf
    (Middleware.PrivyAuthMiddleware Samples.provider Samples.sessionRequest Samples.oneUser)
  = Some (Http.Next Samples.sessionRequest).
Proof. vm_compute. reflexivity. Qed.

Example middleware_no_user_is_500 :
  Middleware.responseOf
    (Middleware.PrivyAuthMiddleware (H := MemStorage.lossyStorage) Samples.provider
       (Samples.requestWith (Some "Bearer token-carol")) Samples.oneUser)
  = Some (Http.Json 500 "Failed to create or retrieve user").
Proof. vm_compute. reflexivity. Qed.

Example middleware_throw_is_500 :
  Middleware.responseOf
    (Middleware.PrivyAuthMiddleware (H := MemStorage.brokenStorage) Samples.provider
       (Samples.requestWith (Some "Bearer token-carol")) Samples.oneUser)
  = Some (Http.Json 500 "Internal server error during authentication").
Proof. vm_compute. reflexivity. Qed.

(** C8, as stated, does not hold: a request without credential and a request
    with a token that fails verification are both authentication failures,
    and their responses differ. *)
Lemma auth_failures_distinguishable :
  ~ (forall (DB : Type) (St : Storage DB)
            (verifyAuthToken : string -> option Claims.t + string)
            (req1 req2 : Http.Request) (db1 db2 : DB),
        (Middleware.RejectsMissing req1
         \/ Middleware.RejectsInvalid verifyAuthToken req1) ->
        (Middleware.RejectsMissing req2
         \/ Middleware.RejectsInvalid verifyAuthToken req2) ->
        Middleware.responseOf (Middleware.PrivyAuthMiddleware verifyAuthToken req1 db1)
        = Middleware.responseOf (Middleware.PrivyAuthMiddleware verifyAuthToken req2 db2)).
Proof.
  intros Hall.
  specialize (Hall MemStorage.Db MemStorage.memStorage Samples.provider
                (Samples.requestWith None) (Samples.requestWith (Some "Bearer expired"))
                Samples.oneUser Samples.oneUser).
  assert (H1 : Middleware.RejectsMissing (Samples.requestWith None)).
  { split; [left; reflexivity |]. intros [Hq _]. discriminate Hq. }
  assert (H2 : Middleware.RejectsInvalid Samples.provider
                 (Samples.requestWith (Some "Bearer expired"))).
  { exists "Bearer expired". split; [split; [reflexivity | discriminate] |].
    left; reflexivity. }
  specialize (Hall (or_introl H1) (or_intror H2)).
  vm_compute in Hall. discriminate Hall.
Qed.

(** C8, amended. A request fails authentication when it has neither a
    header nor a live session (missing credential), or when its header's
    token is not verified or its claims name no subject (invalid
    credential). Every such request is answered with status 401 and leaves
    the store untouched. The message is decided by the kind of failure
    alone: an unverified token and a missing subject identifier both get
    [Invalid token or user ID not found] and cannot be told apart; a missing
    credential gets [Authorization header missing], which differs. *)
Theorem auth_failures_share_status {DB : Type} `{Storage DB}
    (verifyAuthToken : string -> option Claims.t + string)
    (req1 req2 : Http.Request) (db1 db2 : DB) :
  (Middleware.RejectsMissing req1 \/ Middleware.RejectsInvalid verifyAuthToken req1) ->
  (Middleware.RejectsMissing req2 \/ Middleware.RejectsInvalid verifyAuthToken req2) ->
  exists m1 m2,
    Middleware.PrivyAuthMiddleware verifyAuthToken req1 db1 = Eff.Return (Http.Json 401 m1) db1
    /\ Middleware.PrivyAuthMiddleware verifyAuthToken req2 db2 = Eff.Return (Http.Json 401 m2) db2
    /\ (Middleware.RejectsMissing req1 -> m1 = "Authorization header missing")
    /\ (Middleware.RejectsInvalid verifyAuthToken req1 ->
        m1 = "Invalid token or user ID not found")
    /\ (Middleware.RejectsInvalid verifyAuthToken req1 ->
        Middleware.RejectsInvalid verifyAuthToken req2 -> m1 = m2)
    /\ (Middleware.RejectsMissing req1 -> Middleware.RejectsMissing req2 -> m1 = m2)
    /\ (Middleware.RejectsMissing req1 ->
        Middleware.RejectsInvalid verifyAuthToken req2 -> m1 <> m2)
    /\ (Middleware.RejectsInvalid verifyAuthToken req1 ->
        Middleware.RejectsMissing req2 -> m1 <> m2).
Proof.
  assert (Hresp : forall req db,
            Middleware.RejectsMissing req \/ Middleware.RejectsInvalid verifyAuthToken req ->
            exists m,
              Middleware.PrivyAuthMiddleware verifyAuthToken req db
              = Eff.Return (Http.Json 401 m) db
              /\ (Middleware.RejectsMissing req -> m = "Authorization header missing")
              /\ (Middleware.RejectsInvalid verifyAuthToken req ->
                  m = "Invalid token or user ID not found")).
  { intros req db [Hm | Hi].
    - exists "Authorization header missing".
      split; [exact (missing_response verifyAuthToken req db Hm) |].
      split; [reflexivity |].
      intros (h & Hb & _). exfalso. exact (noHeader_not_bearer req h (proj1 Hm) Hb).
    - exists "Invalid token or user ID not found".
      split; [exact (invalid_response verifyAuthToken req db Hi) |].
      split; [| reflexivity].
      intros [Hn _]. destruct Hi as (h & Hb & _).
      exfalso. exact (noHeader_not_bearer req h Hn Hb). }
  intros H1 H2.
  destruct (Hresp req1 db1 H1) as (m1 & R1 & M1 & I1).
  destruct (Hresp req2 db2 H2) as (m2 & R2 & M2 & I2).
  exists m1, m2.
  split; [exact R1 |]. split; [exact R2 |]. split; [exact M1 |]. split; [exact I1 |].
  split; [| split; [| split]]; intros Q1 Q2.
  - rewrite (I1 Q1), (I2 Q2). reflexivity.
  - rewrite (M1 Q1), (M2 Q2). reflexivity.
  - rewrite (M1 Q1), (I2 Q2). discriminate.
  - rewrite (I1 Q1), (M2 Q2). discriminate.
Qed.

Lemma auth_failures_share_status_witness :
  Middleware.RejectsInvalid Samples.provider (Samples.requestWith (Some "Bearer expired"))
  /\ Middleware.RejectsInvalid Samples.provider
       (Samples.requestWith (Some "Bearer token-anonymous"))
  /\ exists m,
       Middleware.PrivyAuthMiddleware Samples.provider
         (Samples.requestWith (Some "Bearer expired")) Samples.oneUser
       = Eff.Return (Http.Json 401 m) Samples.oneUser
       /\ Middleware.PrivyAuthMiddleware Samples.provider
            (Samples.requestWith (Some "Bearer token-anonymous")) Samples.oneUser
          = Eff.Return (Http.Json 401 m) Samples.oneUser.
Proof.
  assert (H1 : Middleware.RejectsInvalid Samples.provider
                 (Samples.requestWith (Some "Bearer expired"))).
  { exists "Bearer expired". split; [split; [reflexivity | discriminate] |].
    left; reflexivity. }
  assert (H2 : Middleware.RejectsInvalid Samples.provider
                 (Samples.requestWith (Some "Bearer token-anonymous"))).
  { exists "Bearer token-anonymous". split; [split; [reflexivity | discriminate] |].
    right; eexists; split; reflexivity. }
  split; [exact H1 |]. split; [exact H2 |].
  destruct (auth_failures_share_status Samples.provider _ _ Samples.oneUser Samples.oneUser
              (or_intror H1) (or_intror H2))
    as (m1 & m2 & R1 & R2 & _ & _ & Heq & _).
  exists m1. split; [exact R1 |]. rewrite (Heq H1 H2). exact R2.
Defined.

(** ** The notification router *)

Section NotificationFacts.
Import Eff Notifications.

Lemma owned_iff (notificationId userId : string) (n : Notification) :
  owned notificationId userId n = true
  <-> Row.id n = notificationId /\ Row.userId n = userId.
Proof.
  unfold owned. rewrite andb_true_iff, !String.eqb_eq. reflexivity.
Qed.

Lemma no_owned_row (notificationId userId : string) (table : list Notification) :
  (forall n, In n table -> ~ (Row.id n = notificationId /\ Row.userId n = userId)) ->
  List.filter (owned notificationId userId) table = [].
Proof.
  intros Hno. destruct (List.filter (owned notificationId userId) table) as [|n l] eqn:Hf.
  - reflexivity.
  - assert (Hin : In n (List.filter (owned notificationId userId) table))
      by (rewrite Hf; left; reflexivity).
    apply filter_In in Hin as [Hin Ho]. apply owned_iff in Ho.
    exfalso. exact (Hno n Hin Ho).
Qed.

Lemma some_owned_row (notificationId userId : string) (table : list Notification) n l :
  List.filter (owned notificationId userId) table = n :: l ->
  In n table /\ Row.id n = notificationId /\ Row.userId n = userId.
Proof.
  intros Hf.
  assert (Hin : In n (List.filter (owned notificationId userId) table))
    by (rewrite Hf; left; reflexivity).
  apply filter_In in Hin as [Hin Ho]. apply owned_iff in Ho. tauto.
Qed.

Lemma putRead_changes_only_owned (markAsRead : string -> M (list Notification) unit)
    (req : Request) (table : list Notification) :
  finalStore (routePutRead markAsRead req table) <> table ->
  exists userId n, user_id req = Some userId /\ In n table
    /\ Row.id n = params_id req /\ Row.userId n = userId.
Proof.
  unfold routePutRead, ensureAuth.
  destruct (user_id req) as [[|c r]|]; simpl; try congruence.
  unfold putRead, tryCatch.
  destruct (List.filter (owned (params_id req) (String c r)) table) as [|n l] eqn:Hf;
    simpl; [congruence |].
  intros _. exists (String c r), n. split; [reflexivity |]. now apply some_owned_row in Hf.
Qed.

Lemma delete_changes_only_owned (req : Request) (table : list Notification) :
  finalStore (routeDelete req table) <> table ->
  exists userId n, user_id req = Some userId /\ In n table
    /\ Row.id n = params_id req /\ Row.userId n = userId.
Proof.
  unfold routeDelete, ensureAuth.
  destruct (user_id req) as [[|c r]|]; simpl; try congruence.
  unfold deleteNotification, tryCatch.
  destruct (List.filter (owned (params_id req) (String c r)) table) as [|n l] eqn:Hf;
    simpl; [congruence |].
  intros _. exists (String c r), n. split; [reflexivity |]. now apply some_owned_row in Hf.
Qed.

Lemma delete_keeps_other_rows (req : Request) (table : list Notification)
    (userId : string) (n : Notification) :
  user_id req = Some userId ->
  In n table -> ~ (Row.id n = params_id req /\ Row.userId n = userId) ->
  In n (finalStore (routeDelete req table)).
Proof.
  intros Hu Hin Hno. unfold routeDelete, ensureAuth. rewrite Hu.
  destruct userId as [|c r]; simpl; [exact Hin |].
  unfold deleteNotification, tryCatch.
  destruct (List.filter (owned (params_id req) (String c r)) table) as [|m l] eqn:Hf;
    simpl; [exact Hin |].
  apply filter_In. split; [exact Hin |].
  apply negb_true_iff. destruct (owned (params_id req) (String c r) n) eqn:Ho; [| reflexivity].
  apply owned_iff in Ho. contradiction.
Qed.

End NotificationFacts.

(** C10. For a request of an authenticated user to mark a notification as
    read or to delete it: when no notification has both the requested id and
    that user as its owner (the id does not exist, or the notification is
    someone else's), both handlers answer 404 and leave the table as it was.
    Whatever the notification service does, a request changes the table only
    if the requester owns a notification with the requested id, and a delete
    keeps every row that is not the requester's notification of that id. *)
Theorem notification_owner_only
    (markAsRead : string -> Eff.M (list Notifications.Notification) unit)
    (req : Notifications.Request) (userId : string)
    (table : list Notifications.Notification) :
  Notifications.user_id req = Some userId ->
  userId <> "" ->
  ((forall n, In n table ->
      ~ (Notifications.Row.id n = Notifications.params_id req
         /\ Notifications.Row.userId n = userId)) ->
   Notifications.routePutRead markAsRead req table
   = Eff.Return (Notifications.Error 404 "Notification not found") table
   /\ Notifications.routeDelete req table
      = Eff.Return (Notifications.Error 404 "Notification not found") table)
  /\ (Eff.finalStore (Notifications.routePutRead markAsRead req table) <> table ->
      exists n, In n table /\ Notifications.Row.id n = Notifications.params_id req
                /\ Notifications.Row.userId n = userId)
  /\ (Eff.finalStore (Notifications.routeDelete req table) <> table ->
      exists n, In n table /\ Notifications.Row.id n = Notifications.params_id req
                /\ Notifications.Row.userId n = userId)
  /\ (forall n, In n table ->
        ~ (Notifications.Row.id n = Notifications.params_id req
           /\ Notifications.Row.userId n = userId) ->
        In n (Eff.finalStore (Notifications.routeDelete req table))).
Proof.
  intros Hu Hne. split; [| split; [| split]].
  - intros Hno. apply no_owned_row in Hno.
    unfold Notifications.routePutRead, Notifications.routeDelete, Notifications.ensureAuth.
    rewrite Hu. destruct userId as [|c r]; [congruence |].
    unfold Notifications.putRead, Notifications.deleteNotification, Eff.tryCatch.
    rewrite Hno. split; reflexivity.
  - intros Hch. destruct (putRead_changes_only_owned markAsRead req table Hch)
      as (u & n & Hu' & Hin & Hid & Hown).
    exists n. rewrite Hu in Hu'. injection Hu' as <-. auto.
  - intros Hch. destruct (delete_changes_only_owned req table Hch)
      as (u & n & Hu' & Hin & Hid & Hown).
    exists n. rewrite Hu in Hu'. injection Hu' as <-. auto.
  - intros n Hin Hno. now apply (delete_keeps_other_rows req table userId).
Qed.

Lemma notification_owner_only_witness :
  Notifications.user_id (Samples.notificationRequest (Some "did:privy:alice") "n2")
  = Some "did:privy:alice"
  /\ "did:privy:alice" <> ""
  /\ Notifications.routePutRead Samples.markAsReadById
       (Samples.notificationRequest (Some "did:privy:alice") "n2") Samples.inbox
     = Eff.Return (Notifications.Error 404 "Notification not found") Samples.inbox
  /\ Notifications.routeDelete
       (Samples.notificationRequest (Some "did:privy:alice") "n2") Samples.inbox
     = Eff.Return (Notifications.Error 404 "Notification not found") Samples.inbox.
Proof.
  assert (H2 : "did:privy:alice" <> "") by discriminate.
  split; [reflexivity |]. split; [exact H2 |].
  apply (proj1 (notification_owner_only Samples.markAsReadById
                  (Samples.notificationRequest (Some "did:privy:alice") "n2")
                  "did:privy:alice" Samples.inbox eq_refl H2)).
  intros n Hin [Hid Hown]. simpl in Hin.
  destruct Hin as [<- | [<- | [<- | []]]]; simpl in Hid, Hown; discriminate.
Defined.

Example owner_marks_read :
  Notifications.routePutRead Samples.markAsReadById
    (Samples.notificationRequest (Some "did:privy:alice") "n1") Samples.inbox
  = Eff.Return (Notifications.Success "Notification marked as read")
      (Eff.finalStore (Samples.markAsReadById "n1" Samples.inbox)).
Proof. vm_compute. reflexivity. Qed.

Example anonymous_is_unauthorized :
  Notifications.routeDelete (Samples.notificationRequest None "n1") Samples.inbox
  = Eff.Return (Notifications.Error 401 "Unauthorized") Samples.inbox.
Proof. vm_compute. reflexivity. Qed.

(** ** The wallet *)

Section WalletFacts.
Import Client WalletPage Ledger.
Local Open Scope Qc_scope.

Lemma positive_not_le0 (a : Qc) : 0 < a -> bool_decide (a ≤ 0) = false.
Proof. intros Ha. apply bool_decide_eq_false. now apply Qclt_not_le. Qed.

Lemma le_not_gt (a b : Qc) : a ≤ b -> bool_decide (b < a) = false.
Proof. intros Hab. apply bool_decide_eq_false. now apply Qcle_not_lt. Qed.

Lemma gt_not_le (a b : Qc) : b < a -> bool_decide (a ≤ b) = false.
Proof. intros Hab. apply bool_decide_eq_false. now apply Qclt_not_le. Qed.

Lemma walletOf_insert (s : State) (user : string) (w : Wallet) t c :
  walletOf {| wallets := <[user := w]> (wallets s); transactions := t; challenges := c |} user
  = w.
Proof. unfold walletOf. simpl. now rewrite lookup_insert_eq. Qed.

Lemma walletOf_insert_ne (s : State) (user other : string) (w : Wallet) t c :
  user <> other ->
  walletOf {| wallets := <[user := w]> (wallets s); transactions := t; challenges := c |} other
  = walletOf s other.
Proof. intros Hne. unfold walletOf. simpl. now rewrite lookup_insert_ne. Qed.

End WalletFacts.

(** C5. A withdrawal of a positive amount [a] not above the primary balance
    [b] is submitted, and the withdrawal handler decreases the balance by [a]
    and writes a withdrawal-tagged transaction. When [a] is above [b], or is
    not positive, the page shows the exceeds-your-balance rejection and
    issues no request, so the balance stays as it is; the handler would
    reject such a request with the insufficient-funds condition as well. *)
Theorem withdraw_guard
    (parseFloat : string -> Num.t) (user : string) (s : Ledger.State)
    (data : Client.BalanceData) (a : Qc) :
  Client.currentBalance data = Num.Fin (Ledger.balance (Ledger.walletOf s user)) ->
  let b := Ledger.balance (Ledger.walletOf s user) in
  ((0 < a)%Qc -> (a <= b)%Qc ->
     WalletPage.handleWithdraw (Num.Fin a) data
     = Client.Mutate (WalletPage.withdrawMutation (Num.Fin a))
     /\ exists s',
         Ledger.serve parseFloat user (WalletPage.withdrawMutation (Num.Fin a)) s
         = Ledger.Accepted s' None
         /\ Ledger.balance (Ledger.walletOf s' user) = (b - a)%Qc
         /\ Ledger.coins (Ledger.walletOf s' user) = Ledger.coins (Ledger.walletOf s user)
         /\ Ledger.transactions s'
            = (Ledger.transactions s
               ++ [ {| Ledger.owner := user; Ledger.amount := (- a)%Qc;
                       Ledger.tag := Ledger.withdrawal |} ])%list)
  /\ ((b < a)%Qc \/ (a <= 0)%Qc ->
      WalletPage.handleWithdraw (Num.Fin a) data
      = Client.Toast "Invalid Amount" "Withdrawal amount exceeds your balance."
      /\ Ledger.serve parseFloat user (WalletPage.withdrawMutation (Num.Fin a)) s
         = Ledger.Rejected Ledger.InsufficientFunds).
Proof.
  intros Hdata b. split.
  - intros Hpos Hle. split.
    + unfold WalletPage.handleWithdraw, Num.gtb, Num.ltb, Num.leb, Num.zero.
      rewrite Hdata. fold b.
      rewrite (bool_decide_eq_true_2 _ Hpos), (bool_decide_eq_true_2 _ Hle). reflexivity.
    + eexists. split.
      * unfold Ledger.serve, WalletPage.withdrawMutation. simpl.
        unfold Ledger.withdraw. fold b.
        rewrite (bool_decide_eq_true_2 _ Hpos), (bool_decide_eq_true_2 _ Hle). reflexivity.
      * unfold Ledger.setWallet. rewrite walletOf_insert. simpl. repeat split.
  - intros Hbad.
    assert (Hguard : bool_decide (0 < a)%Qc && bool_decide (a <= b)%Qc = false).
    { destruct Hbad as [Hgt | Hnp].
      - rewrite (gt_not_le _ _ Hgt). apply andb_false_r.
      - rewrite (le_not_gt _ _ Hnp). reflexivity. }
    split.
    + unfold WalletPage.handleWithdraw, Num.gtb, Num.ltb, Num.leb, Num.zero.
      rewrite Hdata. fold b. rewrite Hguard. reflexivity.
    + unfold Ledger.serve, WalletPage.withdrawMutation. simpl.
      unfold Ledger.withdraw. fold b. rewrite Hguard. reflexivity.
Qed.

Lemma withdraw_guard_witness :
  Client.currentBalance (Client.BalanceObject (Samples.money 100) (Samples.money 50))
  = Num.Fin (Ledger.balance (Ledger.walletOf Samples.ledger "did:privy:alice"))
  /\ (Ledger.balance (Ledger.walletOf Samples.ledger "did:privy:alice") < Qc_of_Z 150)%Qc
  /\ WalletPage.handleWithdraw (Samples.money 150)
       (Client.BalanceObject (Samples.money 100) (Samples.money 50))
     = Client.Toast "Invalid Amount" "Withdrawal amount exceeds your balance.".
Proof.
  assert (H1 : Client.currentBalance (Client.BalanceObject (Samples.money 100) (Samples.money 50))
               = Num.Fin (Ledger.balance (Ledger.walletOf Samples.ledger "did:privy:alice")))
    by (vm_compute; reflexivity).
  assert (H2 : (Ledger.balance (Ledger.walletOf Samples.ledger "did:privy:alice")
                < Qc_of_Z 150)%Qc)
    by (vm_compute; reflexivity).
  split; [exact H1 |]. split; [exact H2 |].
  exact (proj1 (proj2 (withdraw_guard Samples.parseDigits "did:privy:alice" Samples.ledger
                         (Client.BalanceObject (Samples.money 100) (Samples.money 50))
                         (Qc_of_Z 150) H1)
                      (or_introl H2))).
Defined.

Example withdraw_nan_is_rejected (data : Client.BalanceData) :
  WalletPage.handleWithdraw Num.NaN data
  = Client.Toast "Invalid Amount" "Withdrawal amount exceeds your balance.".
Proof. reflexivity. Qed.

(** ** Products of binary64 numbers *)

Section FloatFacts.
Local Open Scope Z_scope.

Lemma digits2_bounds (p : positive) :
  2 ^ (Z.pos (digits2_pos p) - 1) <= Z.pos p < 2 ^ Z.pos (digits2_pos p).
Proof.
  induction p as [p IH | p IH |]; cbn [digits2_pos].
  - rewrite Pos2Z.inj_succ, (Pos2Z.inj_xI p).
    replace (Z.succ (Z.pos (digits2_pos p)) - 1) with (Z.succ (Z.pos (digits2_pos p) - 1)) by lia.
    rewrite !Z.pow_succ_r by lia.
    destruct IH as [IH1 IH2]. revert IH1 IH2.
    generalize (2 ^ (Z.pos (digits2_pos p) - 1)), (2 ^ Z.pos (digits2_pos p)). lia.
  - rewrite Pos2Z.inj_succ, (Pos2Z.inj_xO p).
    replace (Z.succ (Z.pos (digits2_pos p)) - 1) with (Z.succ (Z.pos (digits2_pos p) - 1)) by lia.
    rewrite !Z.pow_succ_r by lia.
    destruct IH as [IH1 IH2]. revert IH1 IH2.
    generalize (2 ^ (Z.pos (digits2_pos p) - 1)), (2 ^ Z.pos (digits2_pos p)). lia.
  - simpl. lia.
Qed.

Lemma digits2_unique (p : positive) (d : Z) :
  2 ^ (d - 1) <= Z.pos p < 2 ^ d -> Z.pos (digits2_pos p) = d.
Proof.
  intros [Hlo Hhi]. pose proof (digits2_bounds p) as [Blo Bhi].
  assert (Hd : 0 < d).
  { destruct (Z_lt_le_dec 0 d) as [|Hle]; [assumption |].
    exfalso. destruct (Z.eq_dec d 0) as [-> | Hne]; [simpl in Hhi; lia |].
    rewrite Z.pow_neg_r in Hhi by lia. lia. }
  destruct (Z.lt_trichotomy (Z.pos (digits2_pos p)) d) as [Hlt | [Heq | Hgt]];
    [| exact Heq |].
  - exfalso. assert (2 ^ Z.pos (digits2_pos p) <= 2 ^ (d - 1))
      by (apply Z.pow_le_mono_r; lia). lia.
  - exfalso. assert (2 ^ d <= 2 ^ (Z.pos (digits2_pos p) - 1))
      by (apply Z.pow_le_mono_r; lia). lia.
Qed.

Lemma iter_pos_nat {A : Type} (f : A -> A) (p : positive) (x : A) :
  iter_pos f p x = Nat.iter (Pos.to_nat p) f x.
Proof.
  revert x. induction p as [p IH | p IH |]; intros x; cbn [iter_pos].
  - rewrite !IH. rewrite Pos2Nat.inj_xI.
    replace (S (2 * Pos.to_nat p))%nat with (Pos.to_nat p + (Pos.to_nat p + 1))%nat by lia.
    rewrite !Nat.iter_add. simpl. reflexivity.
  - rewrite !IH. rewrite Pos2Nat.inj_xO.
    replace (2 * Pos.to_nat p)%nat with (Pos.to_nat p + Pos.to_nat p)%nat by lia.
    rewrite Nat.iter_add. reflexivity.
  - reflexivity.
Qed.

(** The record after [k] right shifts of [M]: the quotient, and the two
    bits that place the remainder against half of [2^k]. *)
Lemma shr_1_iter (M : Z) (k : nat) :
  0 <= M ->
  let rec := Nat.iter k shr_1 {| shr_m := M; shr_r := false; shr_s := false |} in
  let R := M mod 2 ^ Z.of_nat k in
  shr_m rec = M / 2 ^ Z.of_nat k
  /\ (shr_r rec = true <-> 2 ^ Z.of_nat k <= 2 * R)
  /\ (shr_s rec = true <-> (2 * R) mod 2 ^ Z.of_nat k <> 0).
Proof.
  intros HM. induction k as [|k IH].
  - simpl. rewrite Z.div_1_r, Z.mod_1_r. simpl.
    repeat split; try intros Hq; try discriminate; try lia;
      exfalso; first [lia | apply Hq; reflexivity].
  - cbn zeta in *. rewrite Nat.iter_succ.
    destruct (Nat.iter k shr_1 _) as [m r s]. cbn [shr_m shr_r shr_s] in IH.
    destruct IH as (Hm & Hr & Hs).
    set (K := 2 ^ Z.of_nat k) in *.
    assert (HK : 0 < K) by (apply Z.pow_pos_nonneg; lia).
    assert (HK' : 2 ^ Z.of_nat (S k) = 2 * K).
    { rewrite Nat2Z.inj_succ, Z.pow_succ_r by lia. reflexivity. }
    rewrite HK'.
    assert (Hm0 : 0 <= m) by (subst m; apply Z.div_pos; lia).
    pose proof (Z.mod_pos_bound M K HK) as HRk.
    assert (Hdiv : M / (2 * K) = m / 2).
    { subst m. rewrite Z.div_div by lia. f_equal. lia. }
    assert (Hmod : M mod (2 * K) = (m mod 2) * K + M mod K).
    { rewrite (Z.mul_comm 2 K), Z.rem_mul_r by lia. subst m. lia. }
    pose proof (Z.mod_pos_bound m 2 ltac:(lia)) as Hb.
    assert (Hrs : orb r s = true <-> M mod K <> 0).
    { rewrite orb_true_iff, Hr, Hs. split.
      - intros [H1 | H1] H0; rewrite H0 in *; [lia |]. rewrite Z.mod_0_l in H1; lia.
      - intros Hne. destruct (Z_lt_le_dec (2 * (M mod K)) K) as [Hlt | Hge]; [right | left; lia].
        rewrite Z.mod_small by lia. lia. }
    assert (Hs' : (2 * (M mod (2 * K))) mod (2 * K) <> 0 <-> M mod K <> 0).
    { rewrite Hmod.
      replace (2 * (m mod 2 * K + M mod K)) with (2 * (M mod K) + (m mod 2) * (2 * K)) by lia.
      rewrite Z.mod_add by lia. rewrite Z.mod_small by lia. lia. }
    assert (Hshape : shr_1 {| shr_m := m; shr_r := r; shr_s := s |}
                     = {| shr_m := m / 2; shr_r := Z.odd m; shr_s := orb r s |}).
    { unfold shr_1. rewrite <- Z.div2_div. destruct m as [|[p|p|]|p]; try lia; reflexivity. }
    rewrite Hshape. cbn [shr_m shr_r shr_s].
    split; [symmetry; exact Hdiv |]. split.
    + rewrite Hmod. rewrite Zodd_mod.
      destruct (Z.eq_dec (m mod 2) 1) as [E | E].
      * rewrite E. simpl. split; [intros _; lia | reflexivity].
      * assert (E0 : m mod 2 = 0) by lia. rewrite E0. simpl.
        split; [discriminate | lia].
    + rewrite Hrs. symmetry. exact Hs'.
Qed.

(** Rounding the shifted record to nearest, ties to even: the result is
    the quotient or its successor, at most half a unit away, and the
    quotient itself when nothing was shifted out. *)
Lemma round_shifted (M : Z) (k : nat) :
  0 <= M ->
  let rec := Nat.iter k shr_1 {| shr_m := M; shr_r := false; shr_s := false |} in
  let K := 2 ^ Z.of_nat k in
  let q' := round_nearest_even (shr_m rec) (loc_of_shr_record rec) in
  (q' = M / K \/ q' = M / K + 1)
  /\ 2 * (M - q' * K) <= K
  /\ 2 * (q' * K - M) <= K
  /\ (M mod K = 0 -> q' = M / K).
Proof.
  intros HM. cbn zeta.
  destruct (shr_1_iter M k HM) as (Hm & Hr & Hs).
  destruct (Nat.iter k shr_1 _) as [m r s]. cbn [shr_m shr_r shr_s] in *.
  set (K := 2 ^ Z.of_nat k) in *.
  assert (HK : 0 < K) by (apply Z.pow_pos_nonneg; lia).
  pose proof (Z.mod_pos_bound M K HK) as HR.
  pose proof (Z.div_mod M K ltac:(lia)) as HD.
  rewrite <- Hm in *.
  assert (HMK : M - m * K = M mod K) by lia.
  destruct r; destruct s; cbn [loc_of_shr_record round_nearest_even].
  - assert (K <= 2 * (M mod K)) by (apply Hr; reflexivity).
    split; [right; reflexivity |]. split; [lia |]. split; [lia |].
    intros H0. exfalso. lia.
  - assert (HrK : K <= 2 * (M mod K)) by (apply Hr; reflexivity).
    assert (Hs0 : (2 * (M mod K)) mod K = 0).
    { destruct (Z.eq_dec ((2 * (M mod K)) mod K) 0) as [E | E]; [exact E |].
      apply Hs in E. discriminate. }
    assert (Heq : 2 * (M mod K) = K).
    { destruct (Z.eq_dec (2 * (M mod K)) K) as [E | E]; [exact E | exfalso].
      assert (Hlt : 0 <= 2 * (M mod K) - K < K) by lia.
      assert (Hm2 : (2 * (M mod K)) mod K = 2 * (M mod K) - K).
      { symmetry. apply Z.mod_unique with 1; lia. }
      lia. }
    destruct (Z.even m).
    + split; [left; reflexivity |]. split; [lia |]. split; [lia |]. intros H0. lia.
    + split; [right; reflexivity |]. split; [lia |]. split; [lia |]. intros H0. lia.
  - assert (Hlt : ~ K <= 2 * (M mod K)) by (intros Hq; apply Hr in Hq; discriminate).
    split; [left; reflexivity |]. split; [lia |]. split; [lia |]. reflexivity.
  - assert (Hlt : ~ K <= 2 * (M mod K)) by (intros Hq; apply Hr in Hq; discriminate).
    split; [left; reflexivity |]. split; [lia |]. split; [lia |]. reflexivity.
Qed.

(** Rounding a product to binary64, in the normal range: the result is a
    finite number with a 53-bit mantissa, within a relative error of
    [2^-53] of the product, and the product itself when the bits shifted
    out are all zero. [N] is the result in units of [2^E]. *)
Lemma round_normal (M : positive) (E : Z) :
  let d := Z.pos (digits2_pos M) in
  53 < d ->
  -1074 <= d + E - 53 ->
  d + E - 53 < 971 ->
  exists m e,
    binary_round_aux Float64.prec Float64.emax false (Z.pos M) E loc_Exact
    = S754_finite false m e
    /\ bounded Float64.prec Float64.emax m e = true
    /\ Z.pos (digits2_pos m) = 53
    /\ E <= e
    /\ 2 ^ 53 * (Z.pos m * 2 ^ (e - E) - Z.pos M) <= Z.pos M
    /\ 2 ^ 53 * (Z.pos M - Z.pos m * 2 ^ (e - E)) <= Z.pos M
    /\ (Z.pos M mod 2 ^ (d - 53) = 0 -> Z.pos m * 2 ^ (e - E) = Z.pos M).
Proof.
  intros d Hd Hlo Hhi.
  pose proof (digits2_bounds M) as [Blo Bhi]. fold d in Blo, Bhi.
  unfold binary_round_aux, shr_fexp, fexp, emin, Float64.prec, Float64.emax.
  cbn [Zdigits2 shr_record_of_loc]. fold d.
  replace (Z.max (d + E - 53) (3 - 1024 - 53) - E) with (d - 53) by lia.
  destruct (d - 53) as [|p|p] eqn:Hp; try lia.
  cbn [shr]. rewrite iter_pos_nat.
  set (k := Pos.to_nat p).
  assert (Hk : Z.of_nat k = d - 53) by (unfold k; rewrite positive_nat_Z; lia).
  destruct (round_shifted (Z.pos M) k ltac:(lia)) as (Hq & He1 & He2 & Hex).
  set (rec := Nat.iter k shr_1 {| shr_m := Z.pos M; shr_r := false; shr_s := false |}) in *.
  set (q' := round_nearest_even (shr_m rec) (loc_of_shr_record rec)) in *.
  rewrite Hk in *.
  set (K := 2 ^ (d - 53)) in *.
  assert (HK : 0 < K) by (apply Z.pow_pos_nonneg; lia).
  assert (HKd : K * 2 ^ 52 = 2 ^ (d - 1)).
  { unfold K. rewrite <- Z.pow_add_r by lia. f_equal. lia. }
  assert (HKd' : K * 2 ^ 53 = 2 ^ d).
  { unfold K. rewrite <- Z.pow_add_r by lia. f_equal. lia. }
  assert (Hqlo : 2 ^ 52 <= Z.pos M / K).
  { apply Z.div_le_lower_bound; [lia |]. lia. }
  assert (Hqhi : Z.pos M / K < 2 ^ 53).
  { apply Z.div_lt_upper_bound; [lia |]. lia. }
  assert (HMlo : K * 2 ^ 52 <= Z.pos M) by lia.
  replace (Z.pos p + E) with (E + Z.pos p) in * by lia.
  rewrite (Z.add_comm E (Z.pos p)).
  destruct (Z.eq_dec q' (2 ^ 53)) as [Etop | Hntop].
  - (* the mantissa was carried to 2^53 *)
    rewrite Etop. change (2 ^ 53) with 9007199254740992 in *.
    change (Zdigits2 9007199254740992) with 54.
    replace (Z.max (54 + (Z.pos p + E) - 53) (3 - 1024 - 53) - (Z.pos p + E))
      with 1 by lia.
    cbn [shr iter_pos shr_1 shr_m].
    replace (Z.pos p + E + 1 <=? 1024 - 53) with true by (symmetry; apply Z.leb_le; lia).
    eexists _, _. split; [reflexivity |].
    split; [unfold bounded, canonical_mantissa, fexp, emin;
            change (Z.pos (digits2_pos 4503599627370496)) with 53;
            apply andb_true_iff; split; [apply Z.eqb_eq | apply Z.leb_le]; lia |].
    split; [reflexivity |]. split; [lia |].
    replace (Z.pos p + E + 1 - E) with (Z.succ (d - 53)) by lia.
    rewrite Z.pow_succ_r by lia. fold K.
    change (2 ^ 53) with 9007199254740992 in *. change (2 ^ 52) with 4503599627370496 in *.
    split; [lia |]. split; [lia |]. intros H0. rewrite <- Hp in H0. specialize (Hex H0). lia.
  - assert (Hq'lo : 2 ^ 52 <= q') by lia.
    assert (Hq'hi : q' < 2 ^ 53) by lia.
    destruct q' as [|m'|m'] eqn:Eq'; try lia.
    assert (Hdig : Z.pos (digits2_pos m') = 53).
    { apply digits2_unique. simpl Z.sub. lia. }
    cbn [Zdigits2]. rewrite Hdig.
    replace (Z.max (53 + (Z.pos p + E) - 53) (3 - 1024 - 53) - (Z.pos p + E))
      with 0 by lia.
    cbn [shr shr_m].
    replace (Z.pos p + E <=? 1024 - 53) with true by (symmetry; apply Z.leb_le; lia).
    exists m', (Z.pos p + E). split; [reflexivity |].
    split; [unfold bounded, canonical_mantissa, fexp, emin; rewrite Hdig;
            apply andb_true_iff; split; [apply Z.eqb_eq | apply Z.leb_le]; lia |].
    split; [exact Hdig |]. split; [lia |].
    replace (Z.pos p + E - E) with (d - 53) by lia. fold K.
    change (2 ^ 53) with 9007199254740992 in *. change (2 ^ 52) with 4503599627370496 in *.
    split; [lia |]. split; [lia |]. intros H0. rewrite <- Hp in H0. specialize (Hex H0).
    pose proof (Z.div_mod (Z.pos M) K ltac:(lia)) as HD.
    change (Z.pos M mod K = 0) in H0. rewrite Hex. lia.
Qed.

Lemma digits2_product (mx my : positive) :
  Z.pos (digits2_pos mx) = 53 -> Z.pos (digits2_pos my) = 53 ->
  104 < Z.pos (digits2_pos (mx * my)) <= 106.
Proof.
  intros Hx Hy.
  pose proof (digits2_bounds mx) as [Xlo Xhi]. pose proof (digits2_bounds my) as [Ylo Yhi].
  pose proof (digits2_bounds (mx * my)) as [Plo Phi].
  rewrite Hx in Xlo, Xhi. rewrite Hy in Ylo, Yhi. rewrite Pos2Z.inj_mul in Plo, Phi.
  change (2 ^ (53 - 1)) with 4503599627370496 in *.
  change (2 ^ 53) with 9007199254740992 in *.
  assert (Hlo : 2 ^ 104 <= Z.pos mx * Z.pos my).
  { change (2 ^ 104) with (4503599627370496 * 4503599627370496). nia. }
  assert (Hhi : Z.pos mx * Z.pos my < 2 ^ 106).
  { change (2 ^ 106) with (9007199254740992 * 9007199254740992). nia. }
  set (d := Z.pos (digits2_pos (mx * my))) in *.
  split.
  - destruct (Z_lt_le_dec 104 d) as [|Hle]; [assumption | exfalso].
    assert (2 ^ d <= 2 ^ 104) by (apply Z.pow_le_mono_r; lia). lia.
  - destruct (Z_le_gt_dec d 106) as [|Hgt]; [assumption | exfalso].
    assert (2 ^ 106 <= 2 ^ (d - 1)) by (apply Z.pow_le_mono_r; lia). lia.
Qed.
End FloatFacts.

Section FloatValues.
Local Open Scope Q_scope.

Lemma pow2_pos (e : Z) : 0 < 2 ^ e.
Proof. apply Qpower_0_lt. reflexivity. Qed.

Lemma pow2_add (a b : Z) : 2 ^ (a + b) == 2 ^ a * 2 ^ b.
Proof. apply Qpower_plus. discriminate. Qed.

Lemma pow2_inject (n : Z) : (0 <= n)%Z -> inject_Z (2 ^ n) == 2 ^ n.
Proof. intros Hn. rewrite Zpower_Qpower by exact Hn. reflexivity. Qed.

Lemma inject_Z_sub (a b : Z) : inject_Z (a - b) == inject_Z a - inject_Z b.
Proof. unfold Z.sub, Qminus. rewrite inject_Z_plus, inject_Z_opp. reflexivity. Qed.

(** The value of a positive number whose mantissa is scaled to the
    exponent [E]. *)
Lemma value_scaled (m : positive) (e E : Z) :
  (E <= e)%Z ->
  inject_Z (Z.pos m) * 2 ^ e == inject_Z (Z.pos m * 2 ^ (e - E)) * 2 ^ E.
Proof.
  intros Hle. rewrite inject_Z_mult, pow2_inject by lia.
  replace e with ((e - E) + E)%Z at 1 by lia. rewrite pow2_add. ring.
Qed.

(** The product of two normal numbers, in the normal range: it is a
    normal number within a relative error of [2^-53] of the exact
    product. *)
Lemma mul_normal (mx my : positive) (ex ey : Z) :
  Z.pos (digits2_pos mx) = 53%Z -> Z.pos (digits2_pos my) = 53%Z ->
  (-1074 <= ex + ey + 52)%Z -> (ex + ey + 53 < 971)%Z ->
  let exact := (inject_Z (Z.pos mx) * 2 ^ ex) * (inject_Z (Z.pos my) * 2 ^ ey) in
  exists m e,
    Float64.mul (S754_finite false mx ex) (S754_finite false my ey) = S754_finite false m e
    /\ Float64.valid (S754_finite false m e) = true
    /\ Z.pos (digits2_pos m) = 53%Z
    /\ exact - exact / 2 ^ 53 <= inject_Z (Z.pos m) * 2 ^ e
    /\ inject_Z (Z.pos m) * 2 ^ e <= exact + exact / 2 ^ 53
    /\ ((Z.pos (mx * my) mod 2 ^ 53 = 0)%Z -> inject_Z (Z.pos m) * 2 ^ e == exact).
Proof.
  intros Hx Hy Hlo Hhi exact.
  pose proof (digits2_product mx my Hx Hy) as [Dlo Dhi].
  destruct (round_normal (mx * my) (ex + ey) ltac:(lia) ltac:(lia) ltac:(lia))
    as (m & e & Hr & Hb & Hd & HE & He1 & He2 & Hexact).
  exists m, e. split; [exact Hr |]. split; [exact Hb |]. split; [exact Hd |].
  set (M := Z.pos (mx * my)) in *. set (E := (ex + ey)%Z) in *.
  set (N := (Z.pos m * 2 ^ (e - E))%Z) in *.
  assert (Hexact_eq : exact == inject_Z M * 2 ^ E).
  { unfold exact, M, E. rewrite Pos2Z.inj_mul, inject_Z_mult, pow2_add. ring. }
  assert (Hv : inject_Z (Z.pos m) * 2 ^ e == inject_Z N * 2 ^ E)
    by (apply value_scaled; exact HE).
  pose proof (pow2_pos E) as HP.
  assert (H53 : 2 ^ 53 == inject_Z (2 ^ 53)) by (symmetry; apply pow2_inject; lia).
  assert (HN1 : inject_Z N - inject_Z M <= inject_Z M / 2 ^ 53).
  { apply Qle_shift_div_l; [apply pow2_pos |]. rewrite H53.
    rewrite <- inject_Z_sub, <- inject_Z_mult. rewrite <- Zle_Qle. lia. }
  assert (HN2 : inject_Z M - inject_Z N <= inject_Z M / 2 ^ 53).
  { apply Qle_shift_div_l; [apply pow2_pos |]. rewrite H53.
    rewrite <- inject_Z_sub, <- inject_Z_mult. rewrite <- Zle_Qle. lia. }
  rewrite Hv, Hexact_eq.
  split; [| split].
  - assert (H : (inject_Z M - inject_Z M / 2 ^ 53) * 2 ^ E <= inject_Z N * 2 ^ E).
    { apply Qmult_le_compat_r; [| apply Qlt_le_weak; exact HP]. lra. }
    assert (Heq : inject_Z M * 2 ^ E - inject_Z M * 2 ^ E / 2 ^ 53
                  == (inject_Z M - inject_Z M / 2 ^ 53) * 2 ^ E)
      by (field; apply Qpower_not_0; discriminate).
    rewrite Heq. exact H.
  - assert (H : inject_Z N * 2 ^ E <= (inject_Z M + inject_Z M / 2 ^ 53) * 2 ^ E).
    { apply Qmult_le_compat_r; [| apply Qlt_le_weak; exact HP]. lra. }
    assert (Heq : inject_Z M * 2 ^ E + inject_Z M * 2 ^ E / 2 ^ 53
                  == (inject_Z M + inject_Z M / 2 ^ 53) * 2 ^ E)
      by (field; apply Qpower_not_0; discriminate).
    rewrite Heq. exact H.
  - intros Hmod.
    assert (HNM : N = M).
    { apply Hexact. fold M.
      set (d := Z.pos (digits2_pos (mx * my))) in *.
      assert (Hsplit : (2 ^ 53 = 2 ^ (d - 53) * 2 ^ (106 - d))%Z).
      { rewrite <- Z.pow_add_r by lia. f_equal. lia. }
      apply Z.mod_divide; [apply Z.pow_nonzero; lia |].
      apply Z.mod_divide in Hmod; [| lia].
      destruct Hmod as [c Hc]. exists (c * 2 ^ (106 - d))%Z. rewrite Hc, Hsplit. ring. }
    rewrite HNM. reflexivity.
Qed.
End FloatValues.

Section PreviewFacts.
Local Open Scope Q_scope.

(** A valid number between [2^-1000] and [2^1000] is positive and
    normal. *)
Lemma normal_of_range (x : spec_float) (q : Q) :
  Float64.valid x = true -> Float64.value x = Some q ->
  2 ^ (-1000) <= q -> q <= 2 ^ 1000 ->
  exists m e,
    x = S754_finite false m e /\ Z.pos (digits2_pos m) = 53%Z
    /\ (-1053 < e <= 948)%Z /\ q = inject_Z (Z.pos m) * 2 ^ e.
Proof.
  intros Hvalid Hvalue Hlo Hhi.
  pose proof (pow2_pos (-1000)) as Hp.
  destruct x as [s | s | | s m e]; simpl in Hvalue; try discriminate.
  - injection Hvalue as <-. exfalso. lra.
  - injection Hvalue as <-.
    pose proof (pow2_pos e) as He.
    destruct s.
    + exfalso.
      assert (Hneg : inject_Z (Z.neg m) * 2 ^ e <= 0).
      { apply Qle_trans with (inject_Z 0 * 2 ^ e).
        - apply Qmult_le_compat_r; [rewrite <- Zle_Qle; lia | lra].
        - change (inject_Z 0) with 0. lra. }
      lra.
    + unfold Float64.valid, valid_binary, bounded, canonical_mantissa, fexp, emin,
        Float64.prec, Float64.emax in Hvalid.
      apply andb_true_iff in Hvalid as [Hc Hb].
      apply Z.eqb_eq in Hc. apply Z.leb_le in Hb.
      pose proof (digits2_bounds m) as [Blo Bhi].
      set (d := Z.pos (digits2_pos m)) in *.
      assert (Hd0 : (0 < d)%Z) by (unfold d; lia).
      assert (Hupper : inject_Z (Z.pos m) * 2 ^ e < 2 ^ (d + e)).
      { rewrite pow2_add. apply Qmult_lt_compat_r; [exact He |].
        rewrite <- pow2_inject by lia. rewrite <- Zlt_Qlt. exact Bhi. }
      assert (Hlower : 2 ^ (d - 1 + e) <= inject_Z (Z.pos m) * 2 ^ e).
      { rewrite pow2_add. apply Qmult_le_compat_r; [| lra].
        rewrite <- pow2_inject by lia. rewrite <- Zle_Qle. exact Blo. }
      assert (H1 : (-1000 < d + e)%Z).
      { apply (Qpower_lt_compat_l_inv 2); [lra | reflexivity]. }
      assert (H2 : (d - 1 + e <= 1000)%Z).
      { apply (Qpower_le_compat_l_inv 2); [lra | reflexivity]. }
      exists m, e. split; [reflexivity |]. fold d.
      split; [lia |]. split; [lia | reflexivity].
Qed.

Lemma scale_le (a c g : Q) : 0 <= a -> g <= c -> a * g <= a * c.
Proof. intros Ha Hg. rewrite !(Qmult_comm a). apply Qmult_le_compat_r; assumption. Qed.

Lemma ten_value : inject_Z (Z.pos 5629499534213120) * 2 ^ (-49) == 10.
Proof. vm_compute. reflexivity. Qed.

Lemma tenth_value :
  inject_Z (Z.pos 7205759403792794) * 2 ^ (-56) == (1 + 1 / 2 ^ 54) / 10.
Proof. vm_compute. reflexivity. Qed.

Lemma preview_shown (m : positive) (e : Z) (d : Client.Direction) :
  WalletPage.conversionPreview (S754_finite false m e) d
  = Some (Float64.mul (S754_finite false m e)
            (match d with Client.MoneyToCoins => Float64.ten | Client.CoinsToMoney => Float64.tenth end)).
Proof. destruct d; reflexivity. Qed.

(** The preview of a swap to coins: the amount times ten, rounded. *)
Lemma preview_coins (x : spec_float) (q : Q) :
  Float64.valid x = true -> Float64.value x = Some q ->
  2 ^ (-1000) <= q -> q <= 2 ^ 1000 ->
  exists p v,
    WalletPage.conversionPreview x Client.MoneyToCoins = Some p
    /\ Float64.valid p = true /\ Float64.value p = Some v
    /\ q * 10 - q * 10 / 2 ^ 53 <= v <= q * 10 + q * 10 / 2 ^ 53
    /\ (forall n : Z, (0 < n < 2 ^ 50)%Z -> q == inject_Z n -> v == inject_Z (n * 10)).
Proof.
  intros Hvalid Hvalue Hlo Hhi.
  destruct (normal_of_range x q Hvalid Hvalue Hlo Hhi) as (m & e & -> & Hd & He & ->).
  destruct (mul_normal m 5629499534213120 e (-49) Hd eq_refl ltac:(lia) ltac:(lia))
    as (m' & e' & Hmul & Hv & _ & B1 & B2 & Hexact).
  exists (S754_finite false m' e'), (inject_Z (Z.pos m') * 2 ^ e').
  split; [rewrite preview_shown; f_equal; exact Hmul |].
  split; [exact Hv |]. split; [reflexivity |].
  cbv zeta in B1, B2, Hexact. rewrite ten_value in B1, B2, Hexact.
  split; [split; assumption |].
  intros n [Hn0 Hn] Hq.
  rewrite Hexact.
  - rewrite Hq, inject_Z_mult. reflexivity.
  - (* the mantissa ends in three zero bits *)
    pose proof (digits2_bounds m) as [Blo _]. rewrite Hd in Blo.
    change (2 ^ (53 - 1))%Z with 4503599627370496%Z in Blo.
    assert (He3 : (e <= -3)%Z).
    { destruct (Z_le_gt_dec e (-3)) as [|Hgt]; [assumption | exfalso].
      assert (H2 : 2 ^ (-2) <= 2 ^ e) by (apply Qpower_le_compat_l; [lia | lra]).
      assert (H3 : inject_Z 4503599627370496 * 2 ^ (-2) <= inject_Z (Z.pos m) * 2 ^ e).
      { apply Qle_trans with (inject_Z (Z.pos m) * 2 ^ (-2)).
        - apply Qmult_le_compat_r; [rewrite <- Zle_Qle; exact Blo | vm_compute; discriminate].
        - rewrite !(Qmult_comm (inject_Z (Z.pos m))).
          apply Qmult_le_compat_r; [exact H2 |].
          change 0 with (inject_Z 0). rewrite <- Zle_Qle. lia. }
      assert (H4 : inject_Z 4503599627370496 * 2 ^ (-2) == inject_Z (2 ^ 50))
        by (vm_compute; reflexivity).
      rewrite H4, Hq in H3. rewrite <- Zle_Qle in H3. lia. }
    assert (Hm : Z.pos m = (n * 2 ^ (- e))%Z).
    { apply inject_Z_injective. rewrite inject_Z_mult, pow2_inject by lia.
      rewrite <- Hq.
      rewrite <- Qmult_assoc, <- pow2_add.
      replace (e + - e)%Z with 0%Z by lia. change (2 ^ 0) with 1. ring. }
    rewrite Pos2Z.inj_mul, Hm.
    replace (- e)%Z with ((- e - 3) + 3)%Z by lia.
    rewrite Z.pow_add_r by lia.
    change 5629499534213120%Z with (5 * 2 ^ 50)%Z.
    replace (n * (2 ^ (- e - 3) * 2 ^ 3) * (5 * 2 ^ 50))%Z
      with ((n * 2 ^ (- e - 3) * 5) * 2 ^ 53)%Z.
    + apply Z.mod_mul. apply Z.pow_nonzero; lia.
    + change (2 ^ 53)%Z with (2 ^ 3 * 2 ^ 50)%Z. ring.
Qed.

(** The preview of a swap to money: the amount times the number that the
    literal [0.1] denotes, rounded; within [2^-52] of a tenth of the
    amount. *)
Lemma preview_money (x : spec_float) (q : Q) :
  Float64.valid x = true -> Float64.value x = Some q ->
  2 ^ (-1000) <= q -> q <= 2 ^ 1000 ->
  exists p v,
    WalletPage.conversionPreview x Client.CoinsToMoney = Some p
    /\ Float64.valid p = true /\ Float64.value p = Some v
    /\ q / 10 - q / 10 / 2 ^ 52 <= v <= q / 10 + q / 10 / 2 ^ 52.
Proof.
  intros Hvalid Hvalue Hlo Hhi.
  destruct (normal_of_range x q Hvalid Hvalue Hlo Hhi) as (m & e & -> & Hd & He & ->).
  destruct (mul_normal m 7205759403792794 e (-56) Hd eq_refl ltac:(lia) ltac:(lia))
    as (m' & e' & Hmul & Hv & _ & B1 & B2 & _).
  exists (S754_finite false m' e'), (inject_Z (Z.pos m') * 2 ^ e').
  split; [rewrite preview_shown; f_equal; exact Hmul |].
  split; [exact Hv |]. split; [reflexivity |].
  cbv zeta in B1, B2. rewrite tenth_value in B1, B2.
  pose proof (pow2_pos (-1000)) as Hp.
  set (a := inject_Z (Z.pos m) * 2 ^ e) in *.
  set (v := inject_Z (Z.pos m') * 2 ^ e') in *.
  assert (Ha : 0 <= a) by (apply Qlt_le_weak; exact (Qlt_le_trans _ _ _ Hp Hlo)).
  set (t := (1 + 1 / 2 ^ 54) / 10) in *.
  assert (N53 : ~ 2 ^ 53 == 0) by (apply Qpower_not_0; discriminate).
  assert (N52 : ~ 2 ^ 52 == 0) by (apply Qpower_not_0; discriminate).
  split.
  - apply Qle_trans with (a * t - a * t / 2 ^ 53); [| exact B1].
    assert (E1 : a / 10 - a / 10 / 2 ^ 52 == a * (1 / 10 - 1 / 10 / 2 ^ 52))
      by (field; exact N52).
    assert (E2 : a * t - a * t / 2 ^ 53 == a * (t - t / 2 ^ 53)) by (field; exact N53).
    rewrite E1, E2. apply scale_le; [exact Ha |]. vm_compute. discriminate.
  - apply Qle_trans with (a * t + a * t / 2 ^ 53); [exact B2 |].
    assert (E1 : a / 10 + a / 10 / 2 ^ 52 == a * (1 / 10 + 1 / 10 / 2 ^ 52))
      by (field; exact N52).
    assert (E2 : a * t + a * t / 2 ^ 53 == a * (t + t / 2 ^ 53)) by (field; exact N53).
    rewrite E1, E2. apply scale_le; [exact Ha |]. vm_compute. discriminate.
Qed.
End PreviewFacts.

(** C4. The swap uses the fixed rate of 10 coins for 1 unit of the primary
    currency. For a positive amount [a] not above the source-side balance,
    the page issues the swap request and the swap handler debits [a] from the
    primary balance and credits [a * 10] coins (money to coins), or debits [a]
    coins and credits [a / 10] of the primary currency (coins to money). When
    [a] is above the source-side balance the page shows an
    insufficient-balance rejection and issues no request. The preview of the
    dialog multiplies binary64 numbers: for an amount between [2^-1000] and
    [2^1000] it shows [a * 10] coins up to one rounding (a relative error of
    at most [2^-53], and exactly [a * 10] for a whole amount below [2^50]),
    and [a / 10] of the primary currency up to a relative error of [2^-52],
    the literal [0.1] not being a tenth. *)
Theorem swap_fixed_rate
    (parseFloat : string -> Num.t) (user : string) (s : Ledger.State)
    (data : Client.BalanceData) (a : Qc) :
  Client.currentBalance data = Num.Fin (Ledger.balance (Ledger.walletOf s user)) ->
  Client.currentCoins data = Num.Fin (Ledger.coins (Ledger.walletOf s user)) ->
  (0 < a)%Qc ->
  let b := Ledger.balance (Ledger.walletOf s user) in
  let c := Ledger.coins (Ledger.walletOf s user) in
  Ledger.rate = Qc_of_Z 10
  /\ ((a <= b)%Qc ->
      WalletPage.handleSwap (Num.Fin a) Client.MoneyToCoins data
      = Client.Mutate (WalletPage.swapMutation (Num.Fin a) Client.MoneyToCoins)
      /\ exists s',
          Ledger.serve parseFloat user
            (WalletPage.swapMutation (Num.Fin a) Client.MoneyToCoins) s
          = Ledger.Accepted s' None
          /\ Ledger.balance (Ledger.walletOf s' user) = (b - a)%Qc
          /\ Ledger.coins (Ledger.walletOf s' user) = (c + a * Qc_of_Z 10)%Qc)
  /\ ((a <= c)%Qc ->
      WalletPage.handleSwap (Num.Fin a) Client.CoinsToMoney data
      = Client.Mutate (WalletPage.swapMutation (Num.Fin a) Client.CoinsToMoney)
      /\ exists s',
          Ledger.serve parseFloat user
            (WalletPage.swapMutation (Num.Fin a) Client.CoinsToMoney) s
          = Ledger.Accepted s' None
          /\ Ledger.coins (Ledger.walletOf s' user) = (c - a)%Qc
          /\ Ledger.balance (Ledger.walletOf s' user) = (b + a / Qc_of_Z 10)%Qc)
  /\ ((b < a)%Qc ->
      WalletPage.handleSwap (Num.Fin a) Client.MoneyToCoins data
      = Client.Toast "Insufficient Balance" "You don't have enough money to swap.")
  /\ ((c < a)%Qc ->
      WalletPage.handleSwap (Num.Fin a) Client.CoinsToMoney data
      = Client.Toast "Insufficient Coins" "You don't have enough coins to swap.")
  /\ (forall (x : spec_float) (q : Q),
        Float64.valid x = true ->
        Float64.value x = Some q ->
        (q == a)%Q ->
        (2 ^ (-1000) <= a)%Q -> (a <= 2 ^ 1000)%Q ->
        exists coins money vc vm,
          WalletPage.conversionPreview x Client.MoneyToCoins = Some coins
          /\ Float64.valid coins = true
          /\ Float64.value coins = Some vc
          /\ (a * 10 - a * 10 / 2 ^ 53 <= vc <= a * 10 + a * 10 / 2 ^ 53)%Q
          /\ (forall n : Z, (0 < n < 2 ^ 50)%Z -> (a == inject_Z n)%Q ->
                (vc == inject_Z (n * 10))%Q)
          /\ WalletPage.conversionPreview x Client.CoinsToMoney = Some money
          /\ Float64.valid money = true
          /\ Float64.value money = Some vm
          /\ (a / 10 - a / 10 / 2 ^ 52 <= vm <= a / 10 + a / 10 / 2 ^ 52)%Q).
Proof.
  intros Hb Hc Hpos b c.
  split; [reflexivity |]. split; [| split; [| split; [| split]]].
  - intros Hle. split.
    + unfold WalletPage.handleSwap, Num.gtb, Num.ltb, Num.leb, Num.zero.
      rewrite Hb. fold b. rewrite (positive_not_le0 _ Hpos), (le_not_gt _ _ Hle). reflexivity.
    + eexists. split.
      * unfold Ledger.serve, WalletPage.swapMutation. simpl.
        unfold Ledger.swap. fold b.
        rewrite (positive_not_le0 _ Hpos), (bool_decide_eq_true_2 _ Hle). reflexivity.
      * rewrite walletOf_insert. simpl. split; reflexivity.
  - intros Hle. split.
    + unfold WalletPage.handleSwap, Num.gtb, Num.ltb, Num.leb, Num.zero.
      rewrite Hc. fold c. rewrite (positive_not_le0 _ Hpos), (le_not_gt _ _ Hle). reflexivity.
    + eexists. split.
      * unfold Ledger.serve, WalletPage.swapMutation. simpl.
        unfold Ledger.swap. fold c.
        rewrite (positive_not_le0 _ Hpos), (bool_decide_eq_true_2 _ Hle). reflexivity.
      * rewrite walletOf_insert. simpl. split; reflexivity.
  - intros Hgt.
    unfold WalletPage.handleSwap, Num.gtb, Num.ltb, Num.leb, Num.zero.
    rewrite Hb. fold b.
    rewrite (positive_not_le0 _ Hpos), (bool_decide_eq_true_2 _ Hgt). reflexivity.
  - intros Hgt.
    unfold WalletPage.handleSwap, Num.gtb, Num.ltb, Num.leb, Num.zero.
    rewrite Hc. fold c.
    rewrite (positive_not_le0 _ Hpos), (bool_decide_eq_true_2 _ Hgt). reflexivity.
  - intros x q Hvalid Hvalue Hq Hlo Hhi.
    rewrite <- Hq in Hlo, Hhi.
    destruct (preview_coins x q Hvalid Hvalue Hlo Hhi)
      as (coins & vc & Pc & Vc & Ec & Bc & Xc).
    destruct (preview_money x q Hvalid Hvalue Hlo Hhi)
      as (money & vm & Pm & Vm & Em & Bm).
    exists coins, money, vc, vm.
    split; [exact Pc |]. split; [exact Vc |]. split; [exact Ec |].
    split; [rewrite <- Hq; exact Bc |].
    split; [intros n Hn Ha; apply (Xc n Hn); rewrite Hq; exact Ha |].
    split; [exact Pm |]. split; [exact Vm |]. split; [exact Em |].
    rewrite <- Hq. exact Bm.
Qed.

Lemma swap_fixed_rate_witness :
  (0 < Qc_of_Z 10)%Qc
  /\ (Qc_of_Z 10 <= Ledger.balance (Ledger.walletOf Samples.ledger "did:privy:alice"))%Qc
  /\ (exists s',
       Ledger.serve Samples.parseDigits "did:privy:alice"
         (WalletPage.swapMutation (Samples.money 10) Client.MoneyToCoins) Samples.ledger
       = Ledger.Accepted s' None
       /\ Ledger.balance (Ledger.walletOf s' "did:privy:alice")
          = (Qc_of_Z 100 - Qc_of_Z 10)%Qc
       /\ Ledger.coins (Ledger.walletOf s' "did:privy:alice")
          = (Qc_of_Z 50 + Qc_of_Z 10 * Qc_of_Z 10)%Qc)
  /\ (exists coins vc,
       WalletPage.conversionPreview Float64.ten Client.MoneyToCoins = Some coins
       /\ Float64.value coins = Some vc
       /\ (vc == 100)%Q).
Proof.
  assert (H1 : (0 < Qc_of_Z 10)%Qc) by (vm_compute; reflexivity).
  assert (H2 : (Qc_of_Z 10
                <= Ledger.balance (Ledger.walletOf Samples.ledger "did:privy:alice"))%Qc)
    by (vm_compute; discriminate).
  split; [exact H1 |]. split; [exact H2 |].
  pose proof (swap_fixed_rate Samples.parseDigits "did:privy:alice" Samples.ledger
                (Client.BalanceObject (Samples.money 100) (Samples.money 50))
                (Qc_of_Z 10) eq_refl eq_refl H1) as H.
  cbv zeta in H. destruct H as (_ & Hswap & _ & _ & _ & Hpreview).
  split.
  - destruct (Hswap H2) as (_ & s' & Hs & Hbal & Hcoins).
    exists s'. split; [exact Hs |]. split; [exact Hbal | exact Hcoins].
  - assert (Hvalid : Float64.valid Float64.ten = true) by reflexivity.
    assert (Hq : (inject_Z 5629499534213120 * 2 ^ (-49) == Qc_of_Z 10)%Q)
      by (vm_compute; reflexivity).
    assert (Hlo : (2 ^ (-1000) <= Qc_of_Z 10)%Q) by (vm_compute; discriminate).
    assert (Hhi : (Qc_of_Z 10 <= 2 ^ 1000)%Q) by (vm_compute; discriminate).
    destruct (Hpreview Float64.ten _ Hvalid eq_refl Hq Hlo Hhi)
      as (coins & _ & vc & _ & Pc & _ & Ec & _ & Xc & _).
    exists coins, vc. split; [exact Pc |]. split; [exact Ec |].
    apply (Xc 10%Z); [split; reflexivity | vm_compute; reflexivity].
Defined.

(** What the preview computes at the amounts of the specification's
    examples, and at 3 coins, where the product with [0.1] is not the
    number nearest to three tenths. *)
Example preview_ten_money :
  WalletPage.conversionPreview (S754_finite false 5629499534213120 (-49)) Client.MoneyToCoins
  = Some (S754_finite false 7036874417766400 (-46))
  /\ (inject_Z 7036874417766400 * 2 ^ (-46) == 100)%Q.
Proof. split; vm_compute; reflexivity. Qed.

Example preview_fifty_coins :
  WalletPage.conversionPreview (S754_finite false 7036874417766400 (-47)) Client.CoinsToMoney
  = Some (S754_finite false 5629499534213120 (-50))
  /\ (inject_Z 5629499534213120 * 2 ^ (-50) == 5)%Q.
Proof. split; vm_compute; reflexivity. Qed.

Example preview_three_coins :
  WalletPage.conversionPreview (S754_finite false 6755399441055744 (-51)) Client.CoinsToMoney
  = Some (S754_finite false 5404319552844596 (-54))
  /\ (inject_Z 6755399441055744 * 2 ^ (-51) == 3)%Q
  /\ ~ (inject_Z 5404319552844596 * 2 ^ (-54) == 3 / 10)%Q
  /\ (3 / 10 < inject_Z 5404319552844596 * 2 ^ (-54))%Q.
Proof.
  split; [vm_compute; reflexivity |]. split; [vm_compute; reflexivity |].
  split; [vm_compute; discriminate | vm_compute; reflexivity].
Qed.

(** The two swaps of the specification's examples. *)
Example swap_ten_money :
  exists s',
    Ledger.serve Samples.parseDigits "u"
      (WalletPage.swapMutation (Samples.money 10) Client.MoneyToCoins)
      {| Ledger.wallets := {[ "u" := {| Ledger.balance := Qc_of_Z 100; Ledger.coins := 0%Qc |} ]};
         Ledger.transactions := []; Ledger.challenges := ∅ |}
    = Ledger.Accepted s' None
    /\ Ledger.walletOf s' "u" = {| Ledger.balance := Qc_of_Z 90; Ledger.coins := Qc_of_Z 100 |}.
Proof.
  eexists. split; [vm_compute; reflexivity |].
  vm_compute. f_equal; apply Qc_is_canon; reflexivity.
Qed.

Example swap_fifty_coins :
  exists s',
    Ledger.serve Samples.parseDigits "u"
      (WalletPage.swapMutation (Samples.money 50) Client.CoinsToMoney)
      {| Ledger.wallets := {[ "u" := {| Ledger.balance := 0%Qc; Ledger.coins := Qc_of_Z 50 |} ]};
         Ledger.transactions := []; Ledger.challenges := ∅ |}
    = Ledger.Accepted s' None
    /\ Ledger.walletOf s' "u" = {| Ledger.balance := Qc_of_Z 5; Ledger.coins := 0%Qc |}.
Proof.
  eexists. split; [vm_compute; reflexivity |].
  vm_compute. f_equal; apply Qc_is_canon; reflexivity.
Qed.

(** ** Challenge escrow *)

Section ChallengeFacts.
Import Client Ledger.

Lemma prefix_app (p x : string) : String.prefix p (p +:+ x) = true.
Proof.
  induction p as [|c p IH]; [destruct x; reflexivity |].
  rewrite string_app_cons. simpl. destruct (ascii_dec c c); [exact IH | congruence].
Qed.

Lemma substring_all (n : nat) (x : string) :
  String.length x <= n -> substring 0 n x = x.
Proof.
  revert n. induction x as [|c x IH]; intros [|n] Hn; simpl in *; try reflexivity; try lia.
  f_equal. apply IH. lia.
Qed.

Lemma substring_skip (p x : string) (m : nat) :
  substring (String.length p) m (p +:+ x) = substring 0 m x.
Proof.
  induction p as [|c p IH]; [reflexivity |].
  rewrite string_app_cons. simpl. exact IH.
Qed.

Lemma length_app_ge (p x : string) : String.length x <= String.length (p +:+ x).
Proof.
  induction p as [|c p IH]; [reflexivity |].
  rewrite string_app_cons. simpl. lia.
Qed.

Lemma removeFirst_prefix (p x : string) : JS.removeFirst p (p +:+ x) = x.
Proof.
  assert (E : JS.removeFirst p (p +:+ x)
              = if String.prefix p (p +:+ x)
                then substring (String.length p) (String.length (p +:+ x)) (p +:+ x)
                else match p +:+ x with
                     | EmptyString => EmptyString
                     | String c s' => String c (JS.removeFirst p s')
                     end)
    by (destruct (p +:+ x); reflexivity).
  rewrite E, prefix_app, substring_skip. apply substring_all, length_app_ge.
Qed.

Lemma serve_create (parseFloat : string -> Num.t) (user : string) (data : ChallengeForm)
    (s : State) :
  serve parseFloat user (ChallengesPage.createChallengeMutation data) s
  = createChallenge user data (parseFloat (Client.amount data)) s.
Proof. reflexivity. Qed.

Lemma serve_decline (parseFloat : string -> Num.t) (user id : string) (s : State) :
  serve parseFloat user (ChallengesPage.declineChallengeMutation id) s
  = declineChallenge id s.
Proof.
  unfold serve, ChallengesPage.declineChallengeMutation. cbn [body method url].
  rewrite prefix_app, removeFirst_prefix. reflexivity.
Qed.

End ChallengeFacts.

(** C2. Creating a peer challenge with stake [S] escrows the stake: the
    challenger's balance goes from [B] to [B - S] and an escrow-tagged
    transaction is written, and the challenge is pending. The decline that
    follows, sent by the challenge card as the status change to cancelled,
    moves the challenge from pending to cancelled and reverses the escrow:
    the challenger's balance is [B] again. *)
Theorem create_then_decline_restores_balance
    (parseFloat : string -> Num.t) (challenger peer : string)
    (data : Client.ChallengeForm) (s : Ledger.State) (S : Qc) :
  parseFloat (Client.amount data) = Num.Fin S ->
  JS.nonEmpty (Client.challenged data) = true ->
  JS.nonEmpty (Client.title data) = true ->
  JS.nonEmpty (Client.category data) = true ->
  let B := Ledger.balance (Ledger.walletOf s challenger) in
  exists id s1 s2 c1 c2,
    Ledger.serve parseFloat challenger (ChallengesPage.createChallengeMutation data) s
    = Ledger.Accepted s1 (Some id)
    /\ Ledger.balance (Ledger.walletOf s1 challenger) = (B - S)%Qc
    /\ Ledger.transactions s1
       = (Ledger.transactions s
          ++ [ {| Ledger.owner := challenger; Ledger.amount := (- S)%Qc;
                  Ledger.tag := Ledger.challenge_escrow |} ])%list
    /\ Ledger.challenges s1 !! id = Some c1
    /\ Ledger.status c1 = Ledger.pending
    /\ Ledger.challenger c1 = challenger
    /\ Ledger.stake c1 = S
    /\ Ledger.serve parseFloat peer (ChallengesPage.declineChallengeMutation id) s1
       = Ledger.Accepted s2 None
    /\ Ledger.challenges s2 !! id = Some c2
    /\ Ledger.status c2 = Ledger.cancelled
    /\ Ledger.balance (Ledger.walletOf s2 challenger) = B
    /\ Ledger.coins (Ledger.walletOf s2 challenger) = Ledger.coins (Ledger.walletOf s challenger)
    /\ Ledger.transactions s2
       = (Ledger.transactions s1
          ++ [ {| Ledger.owner := challenger; Ledger.amount := S;
                  Ledger.tag := Ledger.escrow_release |} ])%list.
Proof.
  intros Hparse H1 H2 H3 B.
  set (id := pretty (size (Ledger.challenges s))).
  set (c1 := {| Ledger.challenger := challenger;
                Ledger.challenged := Client.challenged data;
                Ledger.stake := S;
                Ledger.status := Ledger.pending;
                Ledger.adminCreated := false |}).
  set (w1 := {| Ledger.balance := (B - S)%Qc;
                Ledger.coins := Ledger.coins (Ledger.walletOf s challenger) |}).
  set (s1 := {| Ledger.wallets := <[challenger := w1]> (Ledger.wallets s);
                Ledger.transactions :=
                  (Ledger.transactions s
                   ++ [ {| Ledger.owner := challenger; Ledger.amount := (- S)%Qc;
                           Ledger.tag := Ledger.challenge_escrow |} ])%list;
                Ledger.challenges := <[id := c1]> (Ledger.challenges s) |}).
  assert (Hcreate : Ledger.serve parseFloat challenger
                      (ChallengesPage.createChallengeMutation data) s
                    = Ledger.Accepted s1 (Some id)).
  { rewrite serve_create, Hparse. unfold Ledger.createChallenge.
    rewrite H1, H2, H3. reflexivity. }
  assert (Hw1 : Ledger.walletOf s1 challenger = w1) by apply walletOf_insert.
  assert (Hc1 : Ledger.challenges s1 !! id = Some c1) by (simpl; apply lookup_insert_eq).
  destruct (Ledger.declineChallenge id s1) as [s2 created | cond] eqn:Hdecline;
    unfold Ledger.declineChallenge in Hdecline; rewrite Hc1 in Hdecline; simpl in Hdecline;
    [| discriminate].
  injection Hdecline as <- <-.
  eexists id, s1, _, c1, _.
  split; [exact Hcreate |].
  split; [rewrite Hw1; reflexivity |].
  split; [reflexivity |].
  split; [exact Hc1 |].
  split; [reflexivity |]. split; [reflexivity |]. split; [reflexivity |].
  split; [rewrite serve_decline; unfold Ledger.declineChallenge; rewrite Hc1; reflexivity |].
  split; [simpl; apply lookup_insert_eq |].
  split; [reflexivity |].
  change (Ledger.challenger c1) with challenger. change (Ledger.stake c1) with S.
  rewrite walletOf_insert, Hw1. simpl. repeat split. ring.
Qed.

Lemma create_then_decline_witness :
  Samples.parseDigits (Client.amount Samples.challengeForm) = Num.Fin (Qc_of_Z 25)
  /\ exists id s1 s2,
       Ledger.serve Samples.parseDigits "did:privy:alice"
         (ChallengesPage.createChallengeMutation Samples.challengeForm) Samples.ledger
       = Ledger.Accepted s1 (Some id)
       /\ Ledger.balance (Ledger.walletOf s1 "did:privy:alice")
          = (Ledger.balance (Ledger.walletOf Samples.ledger "did:privy:alice") - Qc_of_Z 25)%Qc
       /\ Ledger.serve Samples.parseDigits "did:privy:bob"
            (ChallengesPage.declineChallengeMutation id) s1
          = Ledger.Accepted s2 None
       /\ Ledger.balance (Ledger.walletOf s2 "did:privy:alice")
          = Ledger.balance (Ledger.walletOf Samples.ledger "did:privy:alice").
Proof.
  assert (H0 : Samples.parseDigits (Client.amount Samples.challengeForm)
               = Num.Fin (Qc_of_Z 25))
    by (vm_compute; reflexivity).
  split; [exact H0 |].
  destruct (create_then_decline_restores_balance Samples.parseDigits
              "did:privy:alice" "did:privy:bob" Samples.challengeForm Samples.ledger
              (Qc_of_Z 25) H0 eq_refl eq_refl eq_refl)
    as (id & s1 & s2 & c1 & c2 & Hc & Hb1 & _ & _ & _ & _ & _ & Hd & _ & _ & Hb2 & _).
  exists id, s1, s2. repeat split; assumption.
Defined.

(** The create dialog lets a stake through when it is not above the balance
    shown, and stops it with a toast otherwise. *)
Example dialog_guards_stake :
  ChallengesPage.onSubmit Samples.challengeForm (Samples.money 25)
    (Client.BalanceObject (Samples.money 100) (Samples.money 50))
  = Client.Mutate (ChallengesPage.createChallengeMutation Samples.challengeForm)
  /\ ChallengesPage.onSubmit Samples.challengeForm (Samples.money 25)
       (Client.BalanceNumber (Samples.money 0))
     = Client.Toast "Insufficient Balance"
         "You don't have enough funds to create this challenge.".
Proof. split; vm_compute; reflexivity. Qed.

(** * Further properties of the sources *)

(** ** The deposit cooldown *)

Section DepositFacts.
Import Client Deposit.

Lemma handleDeposit_cases (amount : Num.t) (now last : Z) :
  (handleDeposit amount now last
   = (Some (Toast "Please Wait" "Please wait a moment before trying again."), last)
   /\ (now - last < 3000)%Z)
  \/ (handleDeposit amount now last = (None, last) /\ (3000 <= now - last)%Z
      /\ Num.gtb amount Num.zero = false)
  \/ (handleDeposit amount now last = (Some (Mutate (depositMutation amount)), now)
      /\ (3000 <= now - last)%Z /\ positiveAmountRequest (depositMutation amount)).
Proof.
  unfold handleDeposit. destruct (Z.ltb_spec (now - last) 3000) as [Hlt | Hge].
  - left. split; [reflexivity | exact Hlt].
  - destruct (Num.gtb amount Num.zero) eqn:Hpos.
    + right. right. split; [reflexivity |]. split; [exact Hge |].
      destruct amount as [|a]; [discriminate |].
      exists a. split; [reflexivity |].
      unfold Num.gtb, Num.ltb, Num.zero in Hpos. now apply bool_decide_eq_true in Hpos.
    + right. left. repeat split; assumption.
Qed.

End DepositFacts.

(** X1. However the deposit button is clicked, and whatever the clock does,
    two deposit requests are never issued less than 3000 ms apart: every
    issued request comes at least 3000 ms after the last issued one (and
    after the initial [lastDepositAttempt]), and each carries a positive
    amount. *)
Theorem deposit_requests_are_spaced (cs : list (Z * Num.t)) (last : Z) :
  let issued := fst (Deposit.clicks cs last) in
  Forall (fun t => (last + 3000 <= t)%Z) (List.map fst issued)
  /\ StronglySorted (fun t1 t2 => (t1 + 3000 <= t2)%Z) (List.map fst issued)
  /\ Forall (fun tr => Deposit.positiveAmountRequest (snd tr)) issued
  /\ (snd (Deposit.clicks cs last) = last
      \/ In (snd (Deposit.clicks cs last)) (List.map fst issued)).
Proof.
  revert last. induction cs as [|[now amount] cs IH]; intros last.
  - simpl. split; [constructor | split; [constructor | split; [constructor |]]].
    left. reflexivity.
  - simpl.
    destruct (handleDeposit_cases amount now last)
      as [[E Hlt] | [[E [Hge Hneg]] | [E [Hge Hpos]]]]; rewrite E.
    + specialize (IH last). destruct (Deposit.clicks cs last) as [issued final].
      simpl in *. exact IH.
    + specialize (IH last). destruct (Deposit.clicks cs last) as [issued final].
      simpl in *. exact IH.
    + specialize (IH now). destruct (Deposit.clicks cs now) as [issued final].
      simpl in *. destruct IH as (Hall & Hsorted & Hamounts & Hfinal).
      split; [| split; [| split]].
      * constructor; [lia |]. eapply Forall_impl; [exact Hall |]. simpl. intros t Ht. lia.
      * constructor; assumption.
      * constructor; assumption.
      * right. destruct Hfinal as [-> | Hin]; [left; reflexivity | right; exact Hin].
Qed.

(** ** The cached token, from the hook to the middleware *)

Section TokenFacts.
Import JS Eff Http Middleware.
Context {DB : Type} `{Storage DB}.
Variable verifyAuthToken : string -> option Claims.t + string.

Lemma bearer_header_runs_tokenAuth (req : Request) (h : string) (db : DB) :
  authorization req = Some h -> h <> "" ->
  PrivyAuthMiddleware verifyAuthToken req db = tokenAuth verifyAuthToken req h db.
Proof.
  intros Ha Hne. unfold PrivyAuthMiddleware, sessionFallback. rewrite Ha.
  destruct h as [|c r]; [congruence |]. reflexivity.
Qed.

Lemma tokenAuth_verified (req : Request) (h : string) (db db' : DB)
    (claims : Claims.t) (userId : string) (dbUser : User.t) :
  verifyPrivyToken verifyAuthToken (removeFirst "Bearer " h) = Some claims ->
  Claims.resolvedId claims = Some userId ->
  PrivyAuth.upsertPrivyUser userId claims db = Return (Some dbUser) db' ->
  tokenAuth verifyAuthToken req h db = Return (Next (attach req dbUser)) db'.
Proof.
  intros Hv Hid Hu. unfold tokenAuth, tryCatch, bind. rewrite Hv. simpl.
  rewrite Hid, Hu. reflexivity.
Qed.

Lemma tokenAuth_unverified (req : Request) (h : string) (db : DB) :
  verifyPrivyToken verifyAuthToken (removeFirst "Bearer " h) = None ->
  tokenAuth verifyAuthToken req h db
  = Return (Json 401 "Invalid token or user ID not found") db.
Proof. intros Hv. unfold tokenAuth, tryCatch, bind. rewrite Hv. reflexivity. Qed.

End TokenFacts.

(** X2. The token the client caches is the token the server verifies. A
    call made after [setAuthToken(token)], with a non-empty token, reaches
    the middleware with a header from which exactly [token] is extracted:
    when the provider verifies [token] and the upsert service resolves a
    user, the request is accepted with that user attached, and when the
    provider rejects [token] the answer is 401, whatever session the browser
    sends along. *)
Theorem cached_token_is_the_verified_token {DB : Type} `{Storage DB}
    (verifyAuthToken : string -> option Claims.t + string)
    (token : string) (cached : option string)
    (session : option bool) (sessionUser : option Http.ReqUser) (db : DB) :
  token <> "" ->
  let req := QueryClient.outgoing (QueryClient.setAuthToken (Some token) cached)
               session sessionUser in
  (forall claims userId dbUser db',
      verifyAuthToken token = inl (Some claims) ->
      Claims.resolvedId claims = Some userId ->
      PrivyAuth.upsertPrivyUser userId claims db = Eff.Return (Some dbUser) db' ->
      Middleware.PrivyAuthMiddleware verifyAuthToken req db
      = Eff.Return (Http.Next (Middleware.attach req dbUser)) db')
  /\ ((forall claims, verifyAuthToken token <> inl (Some claims)) ->
      Middleware.PrivyAuthMiddleware verifyAuthToken req db
      = Eff.Return (Http.Json 401 "Invalid token or user ID not found") db).
Proof.
  intros Hne req.
  assert (Hh : Http.authorization req = Some ("Bearer " +:+ token)).
  { unfold req, QueryClient.outgoing, QueryClient.authorizationHeader,
      QueryClient.setAuthToken, QueryClient.getAuthToken. simpl.
    destruct token as [|c r]; [congruence | reflexivity]. }
  assert (Hrun : Middleware.PrivyAuthMiddleware verifyAuthToken req db
                 = Middleware.tokenAuth verifyAuthToken req ("Bearer " +:+ token) db)
    by (apply bearer_header_runs_tokenAuth; [exact Hh | discriminate]).
  split.
  - intros claims userId dbUser db' Hv Hid Hu. rewrite Hrun.
    apply (tokenAuth_verified _ _ _ _ _ claims userId); try assumption.
    rewrite removeFirst_prefix. unfold Middleware.verifyPrivyToken. now rewrite Hv.
  - intros Hv. rewrite Hrun. apply tokenAuth_unverified.
    rewrite removeFirst_prefix. unfold Middleware.verifyPrivyToken.
    destruct (verifyAuthToken token) as [[c|]|e] eqn:E; try reflexivity.
    exfalso. exact (Hv c eq_refl).
Qed.

Lemma cached_token_witness :
  "token-alice" <> ""
  /\ Middleware.PrivyAuthMiddleware Samples.provider
       (QueryClient.outgoing (QueryClient.setAuthToken (Some "token-alice") None) None None)
       Samples.oneUser
     = Eff.Return
         (Http.Next
            (Middleware.attach
               (QueryClient.outgoing (QueryClient.setAuthToken (Some "token-alice") None)
                  None None)
               (MemStorage.setTelegram (PrivyAuth.telegramInfo Samples.telegram777 "777")
                  Samples.alice)))
         (MemStorage.afterLink Samples.oneUser "did:privy:alice"
            (MemStorage.setTelegram (PrivyAuth.telegramInfo Samples.telegram777 "777")
               Samples.alice)).
Proof.
  assert (H0 : "token-alice" <> "") by discriminate.
  split; [exact H0 |].
  apply (proj1 (cached_token_is_the_verified_token Samples.provider "token-alice" None
                  None None Samples.oneUser H0)
           Samples.aliceWithTelegram "did:privy:alice").
  - reflexivity.
  - reflexivity.
  - vm_compute. reflexivity.
Defined.

(** X3. Once the provider is ready and reports no authenticated user, the
    hook shows no user, the cached token is cleared, and a call made then,
    without a server session, is answered 401 for the missing header. A
    provider that resolves no token, or an empty one, leaves the previously
    cached token in place; a rejected token request clears it, and so does a
    failing lookup of the stored referral code, right after the new token was
    cached. While the provider is not ready the effect changes nothing. *)
Theorem hook_effect_and_credential {DB : Type} `{Storage DB}
    (verifyAuthToken : string -> option Claims.t + string)
    (s : UseAuth.State) (getAccessToken : option UseAuth.AccessToken)
    (referral : UseAuth.Referral) (hasUser authenticated : bool) (db : DB) :
  (let s' := UseAuth.effect true false getAccessToken referral s in
   UseAuth.view true hasUser s'
   = {| UseAuth.isLoading := false; UseAuth.isAuthenticated := false;
        UseAuth.showsUser := false |}
   /\ UseAuth.cachedAuthToken s' = None
   /\ Middleware.PrivyAuthMiddleware verifyAuthToken
        (QueryClient.outgoing (UseAuth.cachedAuthToken s') None None) db
      = Eff.Return (Http.Json 401 "Authorization header missing") db)
  /\ UseAuth.cachedAuthToken
       (UseAuth.effect true true (Some (UseAuth.Resolves None)) referral s)
     = UseAuth.cachedAuthToken s
  /\ UseAuth.cachedAuthToken
       (UseAuth.effect true true (Some (UseAuth.Resolves (Some ""))) referral s)
     = UseAuth.cachedAuthToken s
  /\ (forall e,
        UseAuth.cachedAuthToken
          (UseAuth.effect true true (Some (UseAuth.Rejects e)) referral s) = None)
  /\ (forall c r e,
        UseAuth.cachedAuthToken
          (UseAuth.effect true true (Some (UseAuth.Resolves (Some (String c r))))
             (UseAuth.StorageFails e) s) = None)
  /\ (forall c r,
        (forall e, referral <> UseAuth.StorageFails e) ->
        QueryClient.authorizationHeader
          (UseAuth.cachedAuthToken
             (UseAuth.effect true true (Some (UseAuth.Resolves (Some (String c r))))
                referral s))
        = Some ("Bearer " +:+ String c r))
  /\ UseAuth.effect false authenticated getAccessToken referral s = s.
Proof.
  split; [| repeat split].
  - assert (Hc : UseAuth.cachedAuthToken (UseAuth.effect true false getAccessToken referral s)
                 = None) by reflexivity.
    cbv zeta. rewrite Hc. repeat split.
  - intros c r Hr. destruct referral as [| code | e]; try reflexivity.
    exfalso. exact (Hr e eq_refl).
Qed.

(** ** The initials and the new user *)

Section NewUserFacts.
Import JS JSText Initials InitialsSpec.

Lemma upperChar_alnum (c : ascii) :
  isAlnum c = true -> upperOrDigit (upperChar c) = true.
Proof.
  destruct c as [b0 b1 b2 b3 b4 b5 b6 b7].
  destruct b0, b1, b2, b3, b4, b5, b6, b7; vm_compute; intros E;
    first [reflexivity | discriminate E].
Qed.

Lemma Tokens_alnum (s : string) (toks : list string) :
  Tokens s toks ->
  Forall (fun tok => nonEmpty tok = true /\ allChars isAlnum tok = true) toks.
Proof. induction 1; constructor; auto. Qed.

Lemma firstLetter_shape (tok : string) :
  allChars isAlnum tok = true ->
  allChars upperOrDigit (firstLetter tok) = true
  /\ String.length (firstLetter tok) <= 1.
Proof.
  destruct tok as [|c tok]; simpl; [auto |].
  intros Hc. apply andb_prop in Hc as [Hc _].
  rewrite (upperChar_alnum c Hc). auto.
Qed.

Lemma firstTwo_shape (tok : string) :
  allChars isAlnum tok = true ->
  allChars upperOrDigit (firstTwo tok) = true
  /\ String.length (firstTwo tok) <= 2.
Proof.
  destruct tok as [|c [|d tok]]; simpl; [auto | |].
  - intros Hc. apply andb_prop in Hc as [Hc _]. rewrite (upperChar_alnum c Hc). auto.
  - intros Hc. apply andb_prop in Hc as [Hc Hd]. apply andb_prop in Hd as [Hd _].
    rewrite (upperChar_alnum c Hc), (upperChar_alnum d Hd). auto.
Qed.

Lemma length_app_string (a b : string) :
  String.length (a +:+ b) = String.length a + String.length b.
Proof.
  induction a as [|x a IH]; [reflexivity |].
  rewrite string_app_cons. simpl. now rewrite IH.
Qed.

Lemma orDefault_nonEmpty (a : option string) (d : string) :
  nonEmpty d = true -> nonEmpty (orDefault a d) = true.
Proof. intros Hd. destruct a as [[|c s]|]; simpl; auto. Qed.

Lemma nonEmpty_app_r (a b : string) : nonEmpty b = true -> nonEmpty (a +:+ b) = true.
Proof. destruct a; [auto | reflexivity]. Qed.

Lemma substring_length_le (n m : nat) (s : string) :
  String.length (substring n m s) <= m.
Proof.
  revert n m. induction s as [|c s IH]; intros [|n] [|m]; simpl; try lia.
  - specialize (IH 0 m). lia.
  - apply (IH n 0).
  - apply (IH n (S m)).
Qed.

End NewUserFacts.

(** X4. Whatever the email, the initials fallback is at most two
    characters long and consists of uppercase ASCII letters and digits only:
    no lowercase letter, separator or at-sign ever comes out of it. *)
Theorem initials_shape (email : option string) :
  String.length (Initials.getInitialsFromEmail email) <= 2
  /\ InitialsSpec.allChars JSText.upperOrDigit (Initials.getInitialsFromEmail email) = true.
Proof.
  destruct email as [e|]; [| simpl; auto].
  rewrite (initials_of_tokens e _ (split_tokens (JS.splitHead "@" e))).
  pose proof (Tokens_alnum _ _ (split_tokens (JS.splitHead "@" e))) as Hall.
  destruct (JS.filterBoolean (JS.splitNonAlnum (JS.splitHead "@" e))) as [|t0 [|t1 rest]].
  - simpl. auto.
  - apply Forall_cons in Hall as [[_ H0] _]. simpl.
    destruct (firstTwo_shape t0 H0). auto.
  - apply Forall_cons in Hall as [[_ H0] Hall].
    apply Forall_cons in Hall as [[_ H1] _].
    destruct (firstLetter_shape t0 H0) as [A0 L0].
    destruct (firstLetter_shape t1 H1) as [A1 L1].
    simpl InitialsSpec.initialsOf. rewrite length_app_string, allChars_app, A0, A1.
    split; [lia | reflexivity].
Qed.

(** X5. Whatever the claims, the record the service passes to
    [storage.upsertUser] for a new user has a non-empty email, username,
    first name and last name, and carries the subject id and the
    placeholder password. Without an email in the claims the email is
    [<id>@privy.user] and the username is [user_] followed by the last eight
    characters of the id, so that username has at most 13 characters. *)
Theorem new_user_is_well_formed (userId : string) (claims : Claims.t) :
  let nu := PrivyAuth.newUser userId (MemStorage.claimsEmail userId claims) claims in
  UpsertUser.id nu = userId
  /\ UpsertUser.password nu = "PRIVY_AUTH_USER"
  /\ JS.nonEmpty (UpsertUser.email nu) = true
  /\ JS.nonEmpty (UpsertUser.username nu) = true
  /\ JS.nonEmpty (UpsertUser.firstName nu) = true
  /\ JS.nonEmpty (UpsertUser.lastName nu) = true
  /\ (JS.truthy (Claims.email claims) = false ->
      UpsertUser.email nu = userId +:+ "@privy.user"
      /\ UpsertUser.username nu = "user_" +:+ JS.sliceLast 8 userId
      /\ String.length (UpsertUser.username nu) <= 13).
Proof.
  intros nu. unfold nu, PrivyAuth.newUser. simpl.
  split; [reflexivity |]. split; [reflexivity |].
  split.
  { unfold MemStorage.claimsEmail. apply orDefault_nonEmpty, nonEmpty_app_r. reflexivity. }
  split.
  { unfold PrivyAuth.newUsername. now apply orDefault_nonEmpty. }
  split.
  { apply orDefault_nonEmpty. unfold PrivyAuth.fallbackFirstName.
    now apply orDefault_nonEmpty. }
  split.
  { now apply orDefault_nonEmpty. }
  intros He. unfold MemStorage.claimsEmail, PrivyAuth.newUsername.
  assert (Hlen : String.length ("user_" +:+ JS.sliceLast 8 userId) <= 13).
  { rewrite length_app_string. simpl. unfold JS.sliceLast.
    pose proof (substring_length_le (String.length userId - 8) 8 userId). lia. }
  destruct (Claims.email claims) as [[|c s]|]; try discriminate He; simpl;
    repeat split; exact Hlen.
Qed.

(** ** More on the middleware and the upsert service *)

Section MoreAuthFacts.
Import JS JSText Eff Http Middleware.

Lemma removeFirst_unfold (pat s : string) :
  removeFirst pat s
  = if String.prefix pat s
    then substring (String.length pat) (String.length s) s
    else match s with
         | EmptyString => EmptyString
         | String c s' => String c (removeFirst pat s')
         end.
Proof. destruct s; reflexivity. Qed.

Lemma includes_unfold (pat s : string) :
  includes pat s
  = String.prefix pat s
    || match s with
       | EmptyString => false
       | String _ s' => includes pat s'
       end.
Proof. destruct s; reflexivity. Qed.

Lemma removeFirst_absent (pat s : string) :
  includes pat s = false -> removeFirst pat s = s.
Proof.
  induction s as [|c s IH]; intros Hi; rewrite removeFirst_unfold;
    rewrite includes_unfold in Hi; apply orb_false_iff in Hi as [Hp Hi]; rewrite Hp.
  - reflexivity.
  - f_equal. now apply IH.
Qed.

End MoreAuthFacts.

(** X6. The [Bearer ] scheme is optional: a request whose authorization
    header is a bare token, with no [Bearer ] anywhere in it, is processed
    exactly as the same request would be with the header [Bearer <token>]. *)
Theorem bare_token_is_accepted {DB : Type} `{Storage DB}
    (verifyAuthToken : string -> option Claims.t + string)
    (req : Http.Request) (token : string) (db : DB) :
  Http.authorization req = Some token ->
  token <> "" ->
  JSText.includes "Bearer " token = false ->
  Middleware.PrivyAuthMiddleware verifyAuthToken req db
  = Middleware.tokenAuth verifyAuthToken req ("Bearer " +:+ token) db.
Proof.
  intros Ha Hne Hno.
  rewrite (bearer_header_runs_tokenAuth verifyAuthToken req token db Ha Hne).
  unfold Middleware.tokenAuth.
  rewrite removeFirst_prefix, (removeFirst_absent _ _ Hno). reflexivity.
Qed.

Lemma bare_token_witness :
  Http.authorization (Samples.requestWith (Some "token-alice")) = Some "token-alice"
  /\ "token-alice" <> ""
  /\ JSText.includes "Bearer " "token-alice" = false
  /\ Middleware.PrivyAuthMiddleware Samples.provider
       (Samples.requestWith (Some "token-alice")) Samples.oneUser
     = Middleware.tokenAuth Samples.provider (Samples.requestWith (Some "token-alice"))
         "Bearer token-alice" Samples.oneUser.
Proof.
  assert (H2 : "token-alice" <> "") by discriminate.
  split; [reflexivity |]. split; [exact H2 |]. split; [reflexivity |].
  exact (bare_token_is_accepted Samples.provider
           (Samples.requestWith (Some "token-alice")) "token-alice" Samples.oneUser
           eq_refl H2 eq_refl).
Defined.

(** X7. A header takes the request away from the session path: with a
    non-empty authorization header whose token fails verification the
    answer is 401 even when the request carries a live session, and the
    store is not touched. Without a header, a live session with a user is
    accepted as it is, whatever the provider and the storage would do. *)
Theorem header_overrides_session {DB : Type} `{Storage DB}
    (verifyAuthToken : string -> option Claims.t + string)
    (req : Http.Request) (db : DB) (sessionUser : Http.ReqUser) :
  Http.isAuthenticated req = Some true ->
  Http.user req = Some sessionUser ->
  (forall h, Http.authorization req = Some h -> h <> "" ->
     Middleware.verifyPrivyToken verifyAuthToken (JS.removeFirst "Bearer " h) = None ->
     Middleware.PrivyAuthMiddleware verifyAuthToken req db
     = Eff.Return (Http.Json 401 "Invalid token or user ID not found") db)
  /\ (JS.truthy (Http.authorization req) = false ->
      Middleware.PrivyAuthMiddleware verifyAuthToken req db = Eff.Return (Http.Next req) db).
Proof.
  intros Hs Hu. split.
  - intros h Ha Hne Hv.
    rewrite (bearer_header_runs_tokenAuth verifyAuthToken req h db Ha Hne).
    now apply tokenAuth_unverified.
  - intros Ha. unfold Middleware.PrivyAuthMiddleware, Middleware.sessionFallback.
    rewrite Ha, Hs, Hu. reflexivity.
Qed.

Lemma header_overrides_session_witness :
  Http.isAuthenticated (Samples.sessionAndHeader "Bearer expired") = Some true
  /\ Http.user (Samples.sessionAndHeader "Bearer expired")
     = Some (Http.SessionUser Samples.alice)
  /\ Middleware.PrivyAuthMiddleware Samples.provider
       (Samples.sessionAndHeader "Bearer expired") Samples.oneUser
     = Eff.Return (Http.Json 401 "Invalid token or user ID not found") Samples.oneUser.
Proof.
  split; [reflexivity |]. split; [reflexivity |].
  apply (proj1 (header_overrides_session Samples.provider
                  (Samples.sessionAndHeader "Bearer expired") Samples.oneUser
                  (Http.SessionUser Samples.alice) eq_refl eq_refl)
           "Bearer expired" eq_refl).
  - discriminate.
  - reflexivity.
Defined.

(** ** What the upsert service does to the table *)

Section UpsertFrame.
Import JS Eff MemStorage PrivyAuth.

(** The shapes the outcome of the service can take over the users table. *)
Lemma upsert_outcome (db : Db) (userId : string) (claims : Claims.t) :
  exists (u : User.t) (db' : Db) (ws : list Write),
    upsertPrivyUser userId claims db = Return (Some u) db'
    /\ writes db' = (writes db ++ ws)%list
    /\ (ws = [] \/ ws = [Updated userId] \/ ws = [Inserted userId]
        \/ ws = [Inserted userId; Updated userId])
    /\ (forall k, k <> userId -> users db' !! k = users db !! k)
    /\ (users db !! userId = None -> ws = [] -> users db' = users db)
    /\ (is_Some (users db !! userId) -> is_Some (users db' !! userId))
    /\ (exists k, users db' !! k = Some u).
Proof.
  assert (Hcase : (exists u, users db !! userId = Some u) \/ users db !! userId = None)
    by (destruct (users db !! userId); eauto).
  destruct Hcase as [[u Hu] | Hu].
  - rewrite (upsert_found db userId claims u Hu).
    assert (Hsame : exists (u1 : User.t) (db' : Db) (ws : list Write),
              Return (Some u) db = Return (Some u1) db'
              /\ writes db' = (writes db ++ ws)%list
              /\ (ws = [] \/ ws = [Updated userId] \/ ws = [Inserted userId]
                  \/ ws = [Inserted userId; Updated userId])
              /\ (forall k, k <> userId -> users db' !! k = users db !! k)
              /\ (users db !! userId = None -> ws = [] -> users db' = users db)
              /\ (is_Some (users db !! userId) -> is_Some (users db' !! userId))
              /\ (exists k, users db' !! k = Some u1)).
    { exists u, db, []. split; [reflexivity |]. split; [now rewrite app_nil_r |].
      split; [now left |]. split; [reflexivity |]. split; [reflexivity |].
      split; [intros _; rewrite Hu; eauto |]. exists userId. exact Hu. }
    destruct (link_cases claims) as [(acct & tid & Ha & Hid & Hne) | Hskip].
    + destruct (truthy (User.telegramId u)) eqn:Ht.
      * rewrite (link_already db userId claims u Ht). exact Hsame.
      * exists (setTelegram (telegramInfo acct tid) u),
          (afterLink db userId (setTelegram (telegramInfo acct tid) u)), [Updated userId].
        rewrite (link_write db userId claims u acct tid Ha Hid Hne Ht Hu).
        split; [reflexivity |]. split; [reflexivity |].
        split; [right; now left |].
        split; [intros k Hk; simpl; now rewrite lookup_insert_ne by congruence |].
        split; [discriminate |].
        split; [intros _; simpl; rewrite lookup_insert_eq; eauto |].
        exists userId. simpl. apply lookup_insert_eq.
    + rewrite Hskip. exact Hsame.
  - destruct (List.find (hasEmail (claimsEmail userId claims)) (rows db)) as [u|] eqn:Hf.
    + exists u, db, []. rewrite (upsert_reconciled db userId claims u Hu Hf).
      destruct (find_email_Some db _ u Hf) as [[k Hk] _].
      split; [reflexivity |]. split; [now rewrite app_nil_r |].
      split; [now left |]. split; [reflexivity |]. split; [reflexivity |].
      split; [intros [x Hx]; congruence |]. exists k. exact Hk.
    + rewrite (upsert_created db userId claims Hu Hf).
      assert (Hins : users (afterInsert db userId claims) !! userId
                     = Some (createdRow userId claims))
        by (simpl; apply lookup_insert_eq).
      destruct (link_cases claims) as [(acct & tid & Ha & Hid & Hne) | Hskip].
      * exists (setTelegram (telegramInfo acct tid) (createdRow userId claims)),
          (afterLink (afterInsert db userId claims) userId
             (setTelegram (telegramInfo acct tid) (createdRow userId claims))),
          [Inserted userId; Updated userId].
        rewrite (link_write (afterInsert db userId claims) userId claims
                   (createdRow userId claims) acct tid Ha Hid Hne eq_refl Hins).
        split; [reflexivity |]. split; [simpl; now rewrite <- app_assoc |].
        split; [right; right; now right |].
        split; [intros k Hk; simpl; now rewrite !lookup_insert_ne by congruence |].
        split; [discriminate |].
        split; [intros [x Hx]; congruence |].
        exists userId. simpl. apply lookup_insert_eq.
      * exists (createdRow userId claims), (afterInsert db userId claims), [Inserted userId].
        rewrite Hskip.
        split; [reflexivity |]. split; [reflexivity |].
        split; [right; right; now left |].
        split; [intros k Hk; simpl; now rewrite lookup_insert_ne by congruence |].
        split; [discriminate |].
        split; [intros [x Hx]; congruence |].
        exists userId. exact Hins.
Qed.

End UpsertFrame.

(** X8. Over the users table the service always returns a user and never
    throws; it writes at most twice, only to the row of the subject id (an
    insert, an update, or an insert followed by an update), leaves every
    other row as it was and removes none; and the user it returns is a row
    of the table it leaves behind. *)
Theorem upsert_touches_one_row
    (db : MemStorage.Db) (userId : string) (claims : Claims.t) :
  exists (u : User.t) (db' : MemStorage.Db) (ws : list MemStorage.Write),
    PrivyAuth.upsertPrivyUser userId claims db = Eff.Return (Some u) db'
    /\ MemStorage.writes db' = (MemStorage.writes db ++ ws)%list
    /\ List.length ws <= 2
    /\ Forall (fun w => w = MemStorage.Inserted userId \/ w = MemStorage.Updated userId) ws
    /\ (forall k, k <> userId -> MemStorage.users db' !! k = MemStorage.users db !! k)
    /\ (forall k, is_Some (MemStorage.users db !! k) -> is_Some (MemStorage.users db' !! k))
    /\ (exists k, MemStorage.users db' !! k = Some u).
Proof.
  destruct (upsert_outcome db userId claims)
    as (u & db' & ws & Hrun & Hw & Hshape & Hframe & _ & Hkeep & Hin).
  exists u, db', ws. split; [exact Hrun |]. split; [exact Hw |].
  split; [destruct Hshape as [-> | [-> | [-> | ->]]]; simpl; lia |].
  split; [destruct Hshape as [-> | [-> | [-> | ->]]];
          repeat (constructor; [auto |]); constructor |].
  split; [exact Hframe |]. split; [| exact Hin].
  intros k Hk. destruct (decide (k = userId)) as [-> | Hne]; [now apply Hkeep |].
  now rewrite (Hframe k Hne).
Qed.

(** X9. With the users table as storage a verified token that carries a
    subject id is always accepted: the 500 endings of the middleware need a
    storage that fails or loses rows. *)
Theorem verified_subject_is_accepted
    (verifyAuthToken : string -> option Claims.t + string)
    (req : Http.Request) (h : string) (claims : Claims.t) (userId : string)
    (db : MemStorage.Db) :
  Http.authorization req = Some h ->
  h <> "" ->
  Middleware.verifyPrivyToken verifyAuthToken (JS.removeFirst "Bearer " h) = Some claims ->
  Claims.resolvedId claims = Some userId ->
  exists dbUser db',
    PrivyAuth.upsertPrivyUser userId claims db = Eff.Return (Some dbUser) db'
    /\ Middleware.PrivyAuthMiddleware verifyAuthToken req db
       = Eff.Return (Http.Next (Middleware.attach req dbUser)) db'.
Proof.
  intros Ha Hne Hv Hid.
  destruct (upsert_outcome db userId claims) as (u & db' & ws & Hrun & _).
  exists u, db'. split; [exact Hrun |].
  rewrite (bearer_header_runs_tokenAuth verifyAuthToken req h db Ha Hne).
  now apply (tokenAuth_verified verifyAuthToken req h db db' claims userId).
Qed.

Lemma verified_subject_witness :
  Http.authorization (Samples.requestWith (Some "Bearer token-carol"))
  = Some "Bearer token-carol"
  /\ "Bearer token-carol" <> ""
  /\ exists dbUser db',
       Middleware.PrivyAuthMiddleware Samples.provider
         (Samples.requestWith (Some "Bearer token-carol")) Samples.oneUser
       = Eff.Return
           (Http.Next
              (Middleware.attach (Samples.requestWith (Some "Bearer token-carol")) dbUser))
           db'.
Proof.
  assert (H2 : "Bearer token-carol" <> "") by discriminate.
  split; [reflexivity |]. split; [exact H2 |].
  destruct (verified_subject_is_accepted Samples.provider
              (Samples.requestWith (Some "Bearer token-carol")) "Bearer token-carol"
              Samples.carolNoEmail "did:privy:carol-0123456789" Samples.oneUser
              eq_refl H2 eq_refl eq_refl) as (u & db' & _ & Hrun).
  exists u, db'. exact Hrun.
Defined.

(** X10. A token whose subject id is new but whose email belongs to an
    existing account is not given an account of its own: the request goes on
    as that existing user, with the existing user's id in the attached
    identity and in its [sub], and the table is left as it was. *)
Theorem reconciled_request_runs_as_existing_user
    (verifyAuthToken : string -> option Claims.t + string)
    (req : Http.Request) (h : string) (claims : Claims.t) (userId k : string)
    (u0 : User.t) (db : MemStorage.Db) :
  Http.authorization req = Some h ->
  h <> "" ->
  Middleware.verifyPrivyToken verifyAuthToken (JS.removeFirst "Bearer " h) = Some claims ->
  Claims.resolvedId claims = Some userId ->
  MemStorage.users db !! userId = None ->
  MemStorage.users db !! k = Some u0 ->
  User.email u0 = Some (MemStorage.claimsEmail userId claims) ->
  (forall k' u', MemStorage.users db !! k' = Some u' ->
     User.email u' = Some (MemStorage.claimsEmail userId claims) -> u' = u0) ->
  Middleware.PrivyAuthMiddleware verifyAuthToken req db
  = Eff.Return (Http.Next (Middleware.attach req u0)) db
  /\ exists identity,
       Http.user (Middleware.attach req u0) = Some (Http.PrivyUser identity)
       /\ Identity.id identity = User.id u0
       /\ Identity.sub (Identity.claims_ identity) = User.id u0.
Proof.
  intros Ha Hne Hv Hid Hnone Hk He Huniq.
  destruct (find_email_exists db _ k u0 Hk He) as [u Hf].
  destruct (find_email_Some db _ u Hf) as [[k' Hk'] Hu].
  assert (u = u0) as -> by exact (Huniq k' u Hk' Hu).
  split.
  - rewrite (bearer_header_runs_tokenAuth verifyAuthToken req h db Ha Hne).
    apply (tokenAuth_verified verifyAuthToken req h db db claims userId); try assumption.
    now apply upsert_reconciled.
  - eexists. split; [reflexivity |]. split; reflexivity.
Qed.

Lemma sample_email_unique (k' : string) (u' : User.t) :
  MemStorage.users Samples.oneUser !! k' = Some u' ->
  User.email u' = Some (MemStorage.claimsEmail "did:privy:other" Samples.sameEmailWithTelegram) ->
  u' = Samples.alice.
Proof.
  unfold Samples.oneUser. simpl. intros Hk _.
  apply lookup_singleton_Some in Hk as [_ <-]. reflexivity.
Qed.

Lemma reconciled_request_witness :
  MemStorage.users Samples.oneUser !! "did:privy:other" = None
  /\ Middleware.PrivyAuthMiddleware
       (fun _ => inl (Some Samples.sameEmailWithTelegram))
       (Samples.requestWith (Some "Bearer any")) Samples.oneUser
     = Eff.Return
         (Http.Next (Middleware.attach (Samples.requestWith (Some "Bearer any")) Samples.alice))
         Samples.oneUser.
Proof.
  assert (H1 : MemStorage.users Samples.oneUser !! "did:privy:other" = None)
    by (vm_compute; reflexivity).
  assert (H2 : MemStorage.users Samples.oneUser !! "did:privy:alice" = Some Samples.alice)
    by (vm_compute; reflexivity).
  split; [exact H1 |].
  refine (proj1 (reconciled_request_runs_as_existing_user
                   (fun _ => inl (Some Samples.sameEmailWithTelegram))
                   (Samples.requestWith (Some "Bearer any")) "Bearer any"
                   Samples.sameEmailWithTelegram "did:privy:other" "did:privy:alice"
                   Samples.alice Samples.oneUser eq_refl _ eq_refl eq_refl H1 H2 eq_refl
                   sample_email_unique)).
  discriminate.
Defined.

(** X11. An error of the lookup by id is swallowed and read as "no such
    user": when [storage.getUser] throws, the service goes on exactly as it
    does when the lookup finds nothing, with the email lookup and, failing
    that, the insert. *)
Theorem lookup_error_reads_as_not_found {DB : Type} `{Storage DB}
    (userId : string) (claims : Claims.t) (db1 db2 d : DB) (e : string) :
  getUser userId db1 = Eff.Throw e d ->
  getUser userId db2 = Eff.Return None d ->
  PrivyAuth.upsertPrivyUser userId claims db1 = PrivyAuth.upsertPrivyUser userId claims db2.
Proof.
  intros H1 H2.
  unfold PrivyAuth.upsertPrivyUser, Eff.tryCatch, Eff.bind, PrivyAuth.getUserFromDb,
    Eff.tryCatch.
  rewrite H1, H2. reflexivity.
Qed.

Lemma lookup_error_witness :
  getUser (Storage := FlakyStorage.flakyStorage) "did:privy:bob" Samples.downOnce
  = Eff.Throw "connection lost" Samples.recovered
  /\ getUser (Storage := FlakyStorage.flakyStorage) "did:privy:bob" Samples.recovered
     = Eff.Return None Samples.recovered
  /\ PrivyAuth.upsertPrivyUser (H := FlakyStorage.flakyStorage) "did:privy:bob"
       Samples.bobWithTelegram Samples.downOnce
     = PrivyAuth.upsertPrivyUser (H := FlakyStorage.flakyStorage) "did:privy:bob"
         Samples.bobWithTelegram Samples.recovered.
Proof.
  assert (H1 : getUser (Storage := FlakyStorage.flakyStorage) "did:privy:bob"
                 Samples.downOnce
               = Eff.Throw "connection lost" Samples.recovered) by reflexivity.
  assert (H2 : getUser (Storage := FlakyStorage.flakyStorage) "did:privy:bob"
                 Samples.recovered
               = Eff.Return None Samples.recovered) by (vm_compute; reflexivity).
  split; [exact H1 |]. split; [exact H2 |].
  exact (lookup_error_reads_as_not_found (H := FlakyStorage.flakyStorage)
           "did:privy:bob" Samples.bobWithTelegram Samples.downOnce Samples.recovered
           Samples.recovered "connection lost" H1 H2).
Defined.


(** ** The notification router: routes and bulk operations *)

Section RouterFacts.
Import Eff Notifications NotificationRoutes.

Lemma resolve_delete_one_segment (seg : string) :
  resolve DELETE [seg] = Some (DeleteOne, [("id", seg)]).
Proof. reflexivity. Qed.

Lemma resolve_delete_other (path : list string) :
  List.length path <> 1 -> resolve DELETE path = None.
Proof.
  destruct path as [|s1 [|s2 rest]]; simpl; intros Hl; try reflexivity; try lia.
  unfold resolve, routes, resolveIn. simpl.
  repeat match goal with
         | |- context [if ?b then _ else _] => destruct b
         end; reflexivity.
Qed.

Lemma unreadOf_markRead (userId : string) (n : Notification) :
  unreadOf userId (markRead n) = false.
Proof. unfold unreadOf, markRead. simpl. apply andb_false_r. Qed.

Lemma readAll_no_unread (userId : string) (table : list Notification) :
  List.filter (unreadOf userId)
    (List.map (fun n => if unreadOf userId n then markRead n else n) table) = [].
Proof.
  induction table as [|n table IH]; [reflexivity |]. simpl.
  destruct (unreadOf userId n) eqn:Hn.
  - rewrite unreadOf_markRead. exact IH.
  - rewrite Hn. exact IH.
Qed.

Lemma map_id_when_no_unread (userId : string) (table : list Notification) :
  List.filter (unreadOf userId) table = [] ->
  List.map (fun n => if unreadOf userId n then markRead n else n) table = table.
Proof.
  induction table as [|n table IH]; [reflexivity |]. simpl.
  destruct (unreadOf userId n) eqn:Hn; [discriminate |].
  intros Hf. now rewrite IH.
Qed.

End RouterFacts.

(** X12. The clear-all route can never be reached. Every DELETE request
    with a one-segment path is taken by the delete-by-id route, registered
    first, with the segment as the id, and no other DELETE path matches any
    route; so [DELETE /clear-all] asks for the deletion of a notification
    whose id is [clear-all], and for a user who owns no such notification it
    is answered 404 with nothing cleared. Every other handler of the router
    is reached by some request. *)
Theorem clear_all_is_shadowed :
  (forall path params,
      NotificationRoutes.resolve NotificationRoutes.DELETE path
      <> Some (NotificationRoutes.ClearAll, params))
  /\ (forall seg,
      NotificationRoutes.resolve NotificationRoutes.DELETE [seg]
      = Some (NotificationRoutes.DeleteOne, [("id", seg)]))
  /\ (forall (userId : string) (table : list Notifications.Notification),
      userId <> "" ->
      (forall n, In n table -> Notifications.Row.id n <> "clear-all") ->
      Notifications.routeDelete
        {| Notifications.user_id := Some userId; Notifications.params_id := "clear-all" |}
        table
      = Eff.Return (Notifications.Error 404 "Notification not found") table)
  /\ (forall h, h <> NotificationRoutes.ClearAll ->
      exists m path params, NotificationRoutes.resolve m path = Some (h, params)).
Proof.
  split; [| split; [| split]].
  - intros path params.
    destruct (Nat.eq_dec (List.length path) 1) as [Hl | Hl].
    + destruct path as [|seg [|s2 rest]]; try discriminate Hl.
      rewrite resolve_delete_one_segment. discriminate.
    + rewrite (resolve_delete_other path Hl). discriminate.
  - exact resolve_delete_one_segment.
  - intros userId table Hne Hno.
    unfold Notifications.routeDelete, Notifications.ensureAuth. simpl.
    destruct userId as [|c r]; [congruence |].
    unfold Notifications.deleteNotification, Eff.tryCatch. simpl.
    rewrite (no_owned_row "clear-all" (String c r) table); [reflexivity |].
    intros n Hin [Hid _]. exact (Hno n Hin Hid).
  - intros h Hh. destruct h; try congruence.
    + exists NotificationRoutes.GET, [], []. reflexivity.
    + exists NotificationRoutes.GET, ["unread-count"], []. reflexivity.
    + exists NotificationRoutes.PUT, ["n1"; "read"], [("id", "n1")]. reflexivity.
    + exists NotificationRoutes.PATCH, ["n1"; "read"], [("id", "n1")]. reflexivity.
    + exists NotificationRoutes.PUT, ["read-all"], []. reflexivity.
    + exists NotificationRoutes.DELETE, ["n1"], [("id", "n1")]. reflexivity.
    + exists NotificationRoutes.GET, ["preferences"], []. reflexivity.
    + exists NotificationRoutes.PUT, ["preferences"], []. reflexivity.
    + exists NotificationRoutes.POST, ["mute-challenge"; "7"], [("challengeId", "7")].
      reflexivity.
    + exists NotificationRoutes.POST, ["unmute-challenge"; "7"], [("challengeId", "7")].
      reflexivity.
Qed.

(** X13. Marking all as read, for an authenticated user: the table keeps its
    length, every row keeps its id and owner, the rows of other users are
    unchanged, the user's rows are all read afterwards, so the unread count
    that follows is 0, and a second call changes nothing. *)
Theorem read_all_marks_only_own_rows
    (req : Notifications.Request) (userId : string)
    (table : list Notifications.Notification) :
  Notifications.user_id req = Some userId ->
  userId <> "" ->
  exists table',
    NotificationRoutes.routeReadAll req table
    = Eff.Return (Notifications.Success "All notifications marked as read") table'
    /\ Forall2
         (fun n n' =>
            Notifications.Row.id n' = Notifications.Row.id n
            /\ Notifications.Row.userId n' = Notifications.Row.userId n
            /\ (Notifications.Row.userId n <> userId -> n' = n)
            /\ (Notifications.Row.userId n = userId -> Notifications.Row.read n' = true))
         table table'
    /\ NotificationRoutes.routeUnreadCount req table'
       = Eff.Return (NotificationRoutes.Count 0) table'
    /\ NotificationRoutes.routeReadAll req table'
       = Eff.Return (Notifications.Success "All notifications marked as read") table'.
Proof.
  intros Hu Hne. destruct userId as [|c r]; [congruence |].
  set (f := fun n => if NotificationRoutes.unreadOf (String c r) n
                     then NotificationRoutes.markRead n else n).
  exists (List.map f table).
  assert (Hrun : forall t, NotificationRoutes.routeReadAll req t
            = Eff.Return (Notifications.Success "All notifications marked as read")
                (List.map f t)).
  { intros t. unfold NotificationRoutes.routeReadAll, Notifications.ensureAuth. rewrite Hu.
    reflexivity. }
  assert (Hnone : List.filter (NotificationRoutes.unreadOf (String c r)) (List.map f table)
                  = [])
    by apply readAll_no_unread.
  split; [apply Hrun |]. split; [| split].
  - clear Hrun Hnone. induction table as [|n table IH]; simpl; constructor; [| exact IH].
    unfold f, NotificationRoutes.unreadOf.
    destruct (String.eqb_spec (Notifications.Row.userId n) (String c r)) as [He | He]; simpl.
    + destruct (Notifications.Row.read n) eqn:Hr; simpl; repeat split; congruence.
    + repeat split; congruence.
  - unfold NotificationRoutes.routeUnreadCount. rewrite Hu.
    unfold Eff.tryCatch. now rewrite Hnone.
  - rewrite Hrun. f_equal. now apply map_id_when_no_unread.
Qed.

Lemma read_all_witness :
  Notifications.user_id (Samples.notificationRequest (Some "did:privy:alice") "")
  = Some "did:privy:alice"
  /\ "did:privy:alice" <> ""
  /\ exists table',
       NotificationRoutes.routeReadAll
         (Samples.notificationRequest (Some "did:privy:alice") "") Samples.inbox
       = Eff.Return (Notifications.Success "All notifications marked as read") table'
       /\ NotificationRoutes.routeUnreadCount
            (Samples.notificationRequest (Some "did:privy:alice") "") table'
          = Eff.Return (NotificationRoutes.Count 0) table'.
Proof.
  assert (H2 : "did:privy:alice" <> "") by discriminate.
  split; [reflexivity |]. split; [exact H2 |].
  destruct (read_all_marks_only_own_rows
              (Samples.notificationRequest (Some "did:privy:alice") "")
              "did:privy:alice" Samples.inbox eq_refl H2)
    as (table' & Hrun & _ & Hcount & _).
  exists table'. split; [exact Hrun | exact Hcount].
Defined.

(** X14. A delete request of an authenticated user is answered with
    success or with 404; either way no notification with that id is left
    for that user, the rows left are exactly the other rows, in their
    order, and the same request sent again is answered 404 and changes
    nothing. *)
Theorem delete_is_final
    (req : Notifications.Request) (userId : string)
    (table : list Notifications.Notification) :
  Notifications.user_id req = Some userId ->
  userId <> "" ->
  exists r table',
    Notifications.routeDelete req table = Eff.Return r table'
    /\ (r = Notifications.Success "Notification deleted"
        \/ r = Notifications.Error 404 "Notification not found")
    /\ table'
       = List.filter
           (fun n => negb (Notifications.owned (Notifications.params_id req) userId n)) table
    /\ (forall n, In n table' <->
          In n table /\ ~ (Notifications.Row.id n = Notifications.params_id req
                           /\ Notifications.Row.userId n = userId))
    /\ Notifications.routeDelete req table'
       = Eff.Return (Notifications.Error 404 "Notification not found") table'.
Proof.
  intros Hu Hne. destruct userId as [|c r]; [congruence |].
  set (keep := fun n =>
         negb (Notifications.owned (Notifications.params_id req) (String c r) n)).
  assert (Hin : forall n, In n (List.filter keep table) <->
            In n table /\ ~ (Notifications.Row.id n = Notifications.params_id req
                             /\ Notifications.Row.userId n = String c r)).
  { intros n. rewrite filter_In. unfold keep. rewrite negb_true_iff.
    rewrite <- (owned_iff (Notifications.params_id req) (String c r) n).
    destruct (Notifications.owned _ _ n); split; intros [H1 H2]; split; auto; congruence. }
  assert (Hgone : List.filter (Notifications.owned (Notifications.params_id req) (String c r))
                    (List.filter keep table) = []).
  { apply no_owned_row. intros n Hn. apply Hin in Hn. tauto. }
  assert (H404 : forall t,
            List.filter (Notifications.owned (Notifications.params_id req) (String c r)) t = [] ->
            Notifications.routeDelete req t
            = Eff.Return (Notifications.Error 404 "Notification not found") t).
  { intros t Ht. unfold Notifications.routeDelete, Notifications.ensureAuth. rewrite Hu.
    unfold Notifications.deleteNotification, Eff.tryCatch. now rewrite Ht. }
  destruct (List.filter (Notifications.owned (Notifications.params_id req) (String c r)) table)
    as [|n l] eqn:Hf.
  - assert (Hsame : List.filter keep table = table).
    { clear Hin Hgone H404. induction table as [|m table IH]; [reflexivity |].
      simpl in Hf |- *. unfold keep at 1.
      destruct (Notifications.owned _ _ m); [discriminate |]. simpl. now rewrite IH. }
    exists (Notifications.Error 404 "Notification not found"), table.
    split; [now apply H404 |]. split; [now right |]. split; [now rewrite Hsame |].
    split; [| now apply H404].
    intros m. pose proof (Hin m) as Hm. rewrite Hsame in Hm. exact Hm.
  - exists (Notifications.Success "Notification deleted"), (List.filter keep table).
    split.
    { unfold Notifications.routeDelete, Notifications.ensureAuth. rewrite Hu.
      unfold Notifications.deleteNotification, Eff.tryCatch. now rewrite Hf. }
    split; [now left |]. split; [reflexivity |]. split; [exact Hin | now apply H404].
Qed.

Lemma delete_is_final_witness :
  Notifications.user_id (Samples.notificationRequest (Some "did:privy:alice") "n1")
  = Some "did:privy:alice"
  /\ "did:privy:alice" <> ""
  /\ exists table',
       Notifications.routeDelete
         (Samples.notificationRequest (Some "did:privy:alice") "n1") Samples.inbox
       = Eff.Return (Notifications.Success "Notification deleted") table'
       /\ List.length table' = 2
       /\ Notifications.routeDelete
            (Samples.notificationRequest (Some "did:privy:alice") "n1") table'
          = Eff.Return (Notifications.Error 404 "Notification not found") table'.
Proof.
  assert (H2 : "did:privy:alice" <> "") by discriminate.
  split; [reflexivity |]. split; [exact H2 |].
  destruct (delete_is_final (Samples.notificationRequest (Some "did:privy:alice") "n1")
              "did:privy:alice" Samples.inbox eq_refl H2)
    as (r & table' & Hrun & _ & Htable & _ & Hagain).
  exists table'. subst table'. split; [| split; [reflexivity | exact Hagain]].
  rewrite Hrun. f_equal.
  revert Hrun. vm_compute. congruence.
Defined.

(** ** Muting and unmuting a challenge *)

Section MuteFacts.
Import JSText NotificationRoutes.

Lemma listIncludes_In (l : list string) (x : string) :
  listIncludes l x = true <-> In x l.
Proof.
  unfold listIncludes. rewrite existsb_exists. split.
  - intros (y & Hy & He). apply String.eqb_eq in He. now subst.
  - intros Hx. exists x. split; [exact Hx | apply String.eqb_refl].
Qed.

Lemma unmuteList_In (l : list string) (c x : string) :
  In x (unmuteList l c) <-> In x l /\ x <> c.
Proof.
  unfold unmuteList. rewrite filter_In, negb_true_iff, String.eqb_neq. reflexivity.
Qed.

Lemma unmuteList_absent (l : list string) (c : string) :
  ~ In c l -> unmuteList l c = l.
Proof.
  induction l as [|y l IH]; [reflexivity |]. intros Hn. simpl.
  destruct (String.eqb_spec y c) as [-> | Hy]; simpl.
  - exfalso. apply Hn. now left.
  - f_equal. apply IH. intros Hin. apply Hn. now right.
Qed.

End MuteFacts.

(** X15. The list the mute handler sends contains the challenge, adds it
    at most once (a list without duplicates stays without), keeps every id
    that was muted, and muting again changes nothing. The list the unmute
    handler sends has lost every occurrence of the challenge and kept every
    other id; unmuting right after muting gives back the list as it was
    when the challenge was not muted before, and unmuting a challenge that
    is not muted changes nothing. *)
Theorem mute_and_unmute_lists (l : list string) (c : string) :
  In c (NotificationRoutes.muteList l c)
  /\ (forall x, In x (NotificationRoutes.muteList l c) <-> In x l \/ x = c)
  /\ (NoDup l -> NoDup (NotificationRoutes.muteList l c))
  /\ NotificationRoutes.muteList (NotificationRoutes.muteList l c) c
     = NotificationRoutes.muteList l c
  /\ ~ In c (NotificationRoutes.unmuteList l c)
  /\ (forall x, In x (NotificationRoutes.unmuteList l c) <-> In x l /\ x <> c)
  /\ (~ In c l ->
      NotificationRoutes.unmuteList (NotificationRoutes.muteList l c) c = l)
  /\ (~ In c l -> NotificationRoutes.unmuteList l c = l).
Proof.
  assert (Hmem : forall x, In x (NotificationRoutes.muteList l c) <-> In x l \/ x = c).
  { intros x. unfold NotificationRoutes.muteList.
    destruct (JSText.listIncludes l c) eqn:Hi.
    - apply listIncludes_In in Hi. split; [auto | intros [H | ->]; assumption].
    - rewrite in_app_iff. simpl.
      split; intros [H | H];
        [ left; exact H
        | right; destruct H as [<- | []]; reflexivity
        | left; exact H
        | right; left; symmetry; exact H ]. }
  assert (Hc : In c (NotificationRoutes.muteList l c)) by (apply Hmem; now right).
  split; [exact Hc |]. split; [exact Hmem |]. split; [| split; [| split; [| split; [| split]]]].
  - intros Hnd. unfold NotificationRoutes.muteList.
    destruct (JSText.listIncludes l c) eqn:Hi; [exact Hnd |].
    apply NoDup_app. split; [exact Hnd |]. split.
    + intros x Hx Hx'. apply list_elem_of_In in Hx, Hx'. destruct Hx' as [<- | []].
      apply listIncludes_In in Hx. congruence.
    + apply NoDup_singleton.
  - unfold NotificationRoutes.muteList at 1.
    now rewrite (proj2 (listIncludes_In _ c) Hc).
  - intros Hin. apply unmuteList_In in Hin. tauto.
  - apply unmuteList_In.
  - intros Hn. unfold NotificationRoutes.muteList.
    destruct (JSText.listIncludes l c) eqn:Hi.
    + apply listIncludes_In in Hi. contradiction.
    + unfold NotificationRoutes.unmuteList. rewrite List.filter_app. simpl.
      rewrite String.eqb_refl. simpl. rewrite app_nil_r.
      now apply unmuteList_absent.
  - apply unmuteList_absent.
Qed.

(** ** The compact age of a challenge *)

(** X16. For a challenge created at or before now the compact age is a
    whole number of minutes below 60, or of hours from 1 to 23, or of days
    from 1 to 6, or of weeks from 1 on, and it is the age rounded down to
    that unit. *)
Theorem compact_age_is_the_floor (now created : Z) :
  (created <= now)%Z ->
  exists n unit,
    ChallengeCard.getCompactTimeAgo now created = ChallengeCard.Ago n unit
    /\ (n * ChallengeCard.unitMs unit <= now - created
        < (n + 1) * ChallengeCard.unitMs unit)%Z
    /\ ((unit = "m" /\ 0 <= n < 60)%Z
        \/ (unit = "h" /\ 1 <= n < 24)%Z
        \/ (unit = "d" /\ 1 <= n < 7)%Z
        \/ (unit = "w" /\ 1 <= n)%Z).
Proof.
  intros Hle. unfold ChallengeCard.getCompactTimeAgo.
  set (d := (now - created)%Z). assert (Hd : (0 <= d)%Z) by (unfold d; lia).
  clearbody d. clear Hle.
  pose proof (Z.div_mod d 60000 ltac:(lia)) as E1.
  pose proof (Z.mod_pos_bound d 60000 ltac:(lia)) as B1.
  pose proof (Z.div_mod d 3600000 ltac:(lia)) as E2.
  pose proof (Z.mod_pos_bound d 3600000 ltac:(lia)) as B2.
  pose proof (Z.div_mod d 86400000 ltac:(lia)) as E3.
  pose proof (Z.mod_pos_bound d 86400000 ltac:(lia)) as B3.
  destruct (Z.ltb_spec (d / 60000) 60) as [H1 | H1].
  { exists (d / 60000)%Z, "m". split; [reflexivity |].
    split; [change (ChallengeCard.unitMs "m") with 60000%Z; lia |]. left. split; [reflexivity | lia]. }
  destruct (Z.ltb_spec (d / 3600000) 24) as [H2 | H2].
  { exists (d / 3600000)%Z, "h". split; [reflexivity |].
    split; [change (ChallengeCard.unitMs "h") with 3600000%Z; lia |].
    right. left. split; [reflexivity | lia]. }
  destruct (Z.ltb_spec (d / 86400000) 7) as [H3 | H3].
  { exists (d / 86400000)%Z, "d". split; [reflexivity |].
    split; [change (ChallengeCard.unitMs "d") with 86400000%Z; lia |].
    right. right. left. split; [reflexivity | lia]. }
  exists (d / 86400000 / 7)%Z, "w". split; [reflexivity |].
  pose proof (Z.div_mod (d / 86400000) 7 ltac:(lia)) as E4.
  pose proof (Z.mod_pos_bound (d / 86400000) 7 ltac:(lia)) as B4.
  split; [change (ChallengeCard.unitMs "w") with 604800000%Z; lia |].
  right. right. right. split; [reflexivity | lia].
Qed.

Lemma compact_age_witness :
  (1000 <= 7201000)%Z
  /\ ChallengeCard.getCompactTimeAgo 7201000 1000 = ChallengeCard.Ago 2 "h".
Proof.
  assert (H : (1000 <= 7201000)%Z) by lia.
  split; [exact H |].
  destruct (compact_age_is_the_floor 7201000 1000 H) as (n & unit & E & _ & _).
  rewrite E. revert E. vm_compute. congruence.
Defined.

(** ** Tabs and order of the challenge list *)

Section ChallengeListFacts.
Import ChallengeList.
Variable userId : JsId.

Abbreviation cmp := (compareChallenges userId).

(** The comparator read through the rank and the creation time. *)
Lemma compare_by_rank (a b : Challenge) :
  ((cmp a b < 0 <-> rank userId a < rank userId b
                     \/ (rank userId a = rank userId b /\ createdAt b < createdAt a))
   /\ (cmp a b <= 0 <-> rank userId a < rank userId b
                        \/ (rank userId a = rank userId b /\ createdAt b <= createdAt a)))%Z.
Proof.
  unfold compareChallenges, rank.
  destruct (isPinned a), (isPinned b), (pendingTab userId a), (pendingTab userId b),
    (String.eqb (status a) "active"), (String.eqb (status b) "active"),
    (String.eqb (status a) "open" && adminCreated a),
    (String.eqb (status b) "open" && adminCreated b),
    (String.eqb (status a) "pending_admin"), (String.eqb (status b) "pending_admin");
    cbn [andb negb]; lia.
Qed.

Lemma compare_total (a b : Challenge) : (cmp a b <= 0 \/ cmp b a <= 0)%Z.
Proof.
  destruct (compare_by_rank a b) as [_ Hab]. destruct (compare_by_rank b a) as [_ Hba].
  rewrite Hab, Hba. lia.
Qed.

Lemma compare_trans (a b c : Challenge) :
  (cmp a b <= 0 -> cmp b c <= 0 -> cmp a c <= 0)%Z.
Proof.
  destruct (compare_by_rank a b) as [_ Hab]. destruct (compare_by_rank b c) as [_ Hbc].
  destruct (compare_by_rank a c) as [_ Hac]. rewrite Hab, Hbc, Hac. lia.
Qed.

Lemma insertStable_perm (x : Challenge) (l : list Challenge) :
  Permutation (insertStable userId x l) (x :: l).
Proof.
  induction l as [|y l IH]; simpl; [reflexivity |].
  destruct (cmp x y <=? 0)%Z; [reflexivity |].
  rewrite IH. apply perm_swap.
Qed.

Lemma insertStable_sorted (x : Challenge) (l : list Challenge) :
  StronglySorted (fun a b => (cmp a b <= 0)%Z) l ->
  StronglySorted (fun a b => (cmp a b <= 0)%Z) (insertStable userId x l).
Proof.
  induction l as [|y l IH]; intros Hs; simpl.
  - constructor; constructor.
  - apply StronglySorted_inv in Hs as [Hl Hy].
    destruct (Z.leb_spec (cmp x y) 0) as [Hxy | Hxy].
    + constructor; [constructor; assumption |].
      constructor; [exact Hxy |].
      eapply Forall_impl; [exact Hy |]. simpl. intros z Hz. now apply (compare_trans x y z).
    + constructor; [now apply IH |].
      assert (Hyx : (cmp y x <= 0)%Z) by (destruct (compare_total x y); lia).
      rewrite (insertStable_perm x l).
      constructor; assumption.
Qed.

End ChallengeListFacts.

(** X17. The five tabs of the challenge page do not overlap: whoever is
    signed in, a challenge is listed under at most one of pending, active,
    awaiting resolution, completed and featured. *)
Theorem tabs_do_not_overlap (userId : ChallengeList.JsId) (c : ChallengeList.Challenge) :
  List.length (List.filter (fun tab => tab c) (ChallengeList.tabs userId)) <= 1.
Proof.
  unfold ChallengeList.tabs, ChallengeList.pendingTab, ChallengeList.activeTab,
    ChallengeList.awaitingResolutionTab, ChallengeList.completedTab,
    ChallengeList.featuredTab.
  cbn [List.filter].
  assert (Hex : forall x y : string, x <> y ->
            String.eqb (ChallengeList.status c) x && String.eqb (ChallengeList.status c) y
            = false).
  { intros x y Hxy.
    destruct (String.eqb_spec (ChallengeList.status c) x) as [-> | Hx]; [| reflexivity].
    simpl. now apply String.eqb_neq. }
  pose proof (Hex "pending" "active" ltac:(discriminate)) as E1.
  pose proof (Hex "pending" "pending_admin" ltac:(discriminate)) as E2.
  pose proof (Hex "pending" "completed" ltac:(discriminate)) as E3.
  pose proof (Hex "active" "pending_admin" ltac:(discriminate)) as E4.
  pose proof (Hex "active" "completed" ltac:(discriminate)) as E5.
  pose proof (Hex "pending_admin" "completed" ltac:(discriminate)) as E6.
  clear Hex. revert E1 E2 E3 E4 E5 E6.
  destruct (String.eqb (ChallengeList.status c) "pending"),
    (String.eqb (ChallengeList.status c) "active"),
    (String.eqb (ChallengeList.status c) "pending_admin"),
    (String.eqb (ChallengeList.status c) "completed"),
    (ChallengeList.adminCreated c);
    cbn; intros; try discriminate;
    repeat match goal with
           | |- context [if ?b then _ else _] => destruct b; cbn
           end; lia.
Qed.

(** X18. The comparator of the list is a consistent ordering: of two
    challenges one goes before the other exactly when the other does not go
    before it or they tie, and going before is transitive. The sorted list is
    therefore a rearrangement of the filtered one in which every challenge
    stands before all those it may precede; in particular no unpinned
    challenge stands before a pinned one. *)
Theorem challenges_are_sorted (userId : ChallengeList.JsId)
    (l : list ChallengeList.Challenge) :
  (forall a b,
      (ChallengeList.compareChallenges userId a b < 0
       <-> 0 < ChallengeList.compareChallenges userId b a)%Z)
  /\ (forall a b c,
      (ChallengeList.compareChallenges userId a b <= 0 ->
       ChallengeList.compareChallenges userId b c <= 0 ->
       ChallengeList.compareChallenges userId a c <= 0)%Z)
  /\ Permutation (ChallengeList.sortedChallenges userId l) l
  /\ StronglySorted (fun a b => (ChallengeList.compareChallenges userId a b <= 0)%Z)
       (ChallengeList.sortedChallenges userId l)
  /\ (forall front a back b rest,
      ChallengeList.sortedChallenges userId l = (front ++ a :: back ++ b :: rest)%list ->
      ChallengeList.isPinned b = true -> ChallengeList.isPinned a = true).
Proof.
  assert (Hperm : Permutation (ChallengeList.sortedChallenges userId l) l).
  { induction l as [|x l IH]; simpl; [reflexivity |].
    rewrite insertStable_perm. now rewrite IH. }
  assert (Hsorted : StronglySorted
            (fun a b => (ChallengeList.compareChallenges userId a b <= 0)%Z)
            (ChallengeList.sortedChallenges userId l)).
  { clear Hperm. induction l as [|x l IH]; simpl; [constructor |].
    now apply insertStable_sorted. }
  split; [| split; [| split; [| split]]].
  - intros a b.
    destruct (compare_by_rank userId a b) as [Hab _].
    destruct (compare_by_rank userId b a) as [Hlt Hle].
    rewrite Hab. split; intros Hx.
    + assert (~ (ChallengeList.compareChallenges userId b a <= 0)%Z); [| lia].
      rewrite Hle. lia.
    + assert (~ (ChallengeList.compareChallenges userId b a <= 0)%Z) as Hn by lia.
      rewrite Hle in Hn. lia.
  - apply compare_trans.
  - exact Hperm.
  - exact Hsorted.
  - intros front a back b rest E Hb. rewrite E in Hsorted.
    clear E Hperm. induction front as [|f front IH]; simpl in Hsorted.
    + apply StronglySorted_inv in Hsorted as [_ Hall].
      rewrite Forall_app in Hall. destruct Hall as [_ Hall].
      apply Forall_cons in Hall as [Hab _].
      destruct (ChallengeList.isPinned a) eqn:Ha; [reflexivity |].
      exfalso. revert Hab. unfold ChallengeList.compareChallenges. rewrite Ha, Hb. cbn. lia.
    + apply StronglySorted_inv in Hsorted as [Hs _]. now apply IH.
Qed.

(** ** What the client guards let through *)

Lemma num_ltb_fin (a b : Qc) : Num.ltb (Num.Fin a) (Num.Fin b) = true <-> (a < b)%Qc.
Proof. unfold Num.ltb. apply bool_decide_eq_true. Qed.

Lemma num_leb_fin (a b : Qc) : Num.leb (Num.Fin a) (Num.Fin b) = true <-> (a <= b)%Qc.
Proof. unfold Num.leb. apply bool_decide_eq_true. Qed.

Lemma num_ltb_leb (a b : Qc) :
  Num.ltb (Num.Fin a) (Num.Fin b) = negb (Num.leb (Num.Fin b) (Num.Fin a)).
Proof.
  destruct (Num.leb (Num.Fin b) (Num.Fin a)) eqn:E; simpl.
  - apply num_leb_fin in E. apply not_true_is_false. intros H.
    apply num_ltb_fin in H. exact (Qclt_not_le _ _ H E).
  - apply num_ltb_fin. apply Qcnot_le_lt. intros H.
    apply num_leb_fin in H. congruence.
Qed.

(** X19. The withdraw guard is closed and the other two are open when a
    number is missing. A withdrawal is submitted exactly when the amount and
    the balance are both numbers with [0 < amount <= balance]. A swap is
    submitted exactly when the amount is not a number, or is positive and
    the balance on the side it takes from is not a number or is at least the
    amount. A challenge is submitted exactly unless stake and balance are
    both numbers with the stake above the balance, so a zero, negative or
    unparsable stake passes. *)
Theorem guards_and_missing_numbers
    (amount : Num.t) (direction : Client.Direction) (data : Client.BalanceData)
    (form : Client.ChallengeForm) :
  (WalletPage.handleWithdraw amount data = Client.Mutate (WalletPage.withdrawMutation amount)
   <-> exists a b, amount = Num.Fin a /\ Client.currentBalance data = Num.Fin b
                   /\ (0 < a)%Qc /\ (a <= b)%Qc)
  /\ (WalletPage.handleSwap amount direction data
      = Client.Mutate (WalletPage.swapMutation amount direction)
      <-> let source := match direction with
                        | Client.MoneyToCoins => Client.currentBalance data
                        | Client.CoinsToMoney => Client.currentCoins data
                        end in
          amount = Num.NaN
          \/ exists a, amount = Num.Fin a /\ (0 < a)%Qc
                       /\ (source = Num.NaN
                           \/ exists b, source = Num.Fin b /\ (a <= b)%Qc))
  /\ (ChallengesPage.onSubmit form amount data
      = Client.Mutate (ChallengesPage.createChallengeMutation form)
      <-> ~ exists a b, amount = Num.Fin a /\ Client.currentBalance data = Num.Fin b
                        /\ (b < a)%Qc).
Proof.
  split; [| split].
  - unfold WalletPage.handleWithdraw, Num.gtb.
    destruct amount as [|a].
    { split; [discriminate |]. intros (a & b & E & _). discriminate. }
    destruct (Client.currentBalance data) as [|b].
    { rewrite andb_false_r. split; [discriminate |].
      intros (a' & b' & _ & E & _). discriminate. }
    destruct (Num.ltb Num.zero (Num.Fin a)) eqn:Ep;
      destruct (Num.leb (Num.Fin a) (Num.Fin b)) eqn:El; simpl.
    + split; [| reflexivity]. intros _. exists a, b.
      split; [reflexivity |]. split; [reflexivity |].
      split; [now apply num_ltb_fin | now apply num_leb_fin].
    + split; [discriminate |]. intros (a' & b' & Ea & Eb & _ & Hl).
      injection Ea as <-. injection Eb as <-.
      apply num_leb_fin in Hl. congruence.
    + split; [discriminate |]. intros (a' & b' & Ea & Eb & Hp & _).
      injection Ea as <-. apply (num_ltb_fin 0 a) in Hp.
      unfold Num.zero in Ep. congruence.
    + split; [discriminate |]. intros (a' & b' & Ea & Eb & Hp & _).
      injection Ea as <-. apply (num_ltb_fin 0 a) in Hp.
      unfold Num.zero in Ep. congruence.
  - cbv zeta.
    assert (Hswap : WalletPage.handleSwap amount direction data
                    = Client.Mutate (WalletPage.swapMutation amount direction)
                    <-> Num.leb amount Num.zero = false
                        /\ Num.gtb amount
                             (match direction with
                              | Client.MoneyToCoins => Client.currentBalance data
                              | Client.CoinsToMoney => Client.currentCoins data
                              end) = false).
    { unfold WalletPage.handleSwap.
      destruct (Num.leb amount Num.zero); [split; [discriminate | intros [? _]; discriminate] |].
      destruct direction; simpl.
      - destruct (Num.gtb amount (Client.currentBalance data));
          [split; [discriminate | intros [_ ?]; discriminate] | split; auto].
      - destruct (Num.gtb amount (Client.currentCoins data));
          [split; [discriminate | intros [_ ?]; discriminate] | split; auto]. }
    rewrite Hswap. clear Hswap.
    generalize (match direction with
                | Client.MoneyToCoins => Client.currentBalance data
                | Client.CoinsToMoney => Client.currentCoins data
                end).
    intros source. unfold Num.gtb.
    destruct amount as [|a].
    { split; [now left |]. intros _. split; [reflexivity | now destruct source]. }
    split.
    + intros [Hz Hs]. right. exists a. split; [reflexivity |].
      unfold Num.zero in Hz.
      assert (Hp : (0 < a)%Qc).
      { apply (num_ltb_fin 0 a). rewrite num_ltb_leb, Hz. reflexivity. }
      split; [exact Hp |].
      destruct source as [|b]; [now left |]. right. exists b. split; [reflexivity |].
      apply num_leb_fin. rewrite num_ltb_leb in Hs.
      now apply negb_false_iff in Hs.
    + intros [E | (a' & Ea & Hp & Hs)]; [discriminate |]. injection Ea as <-.
      split.
      * unfold Num.zero. apply (num_ltb_fin 0 a) in Hp.
        rewrite num_ltb_leb in Hp. now apply negb_true_iff in Hp.
      * destruct Hs as [-> | (b & -> & Hl)]; [reflexivity |].
        rewrite num_ltb_leb. apply negb_false_iff. now apply num_leb_fin.
  - unfold ChallengesPage.onSubmit, Num.gtb.
    destruct (Num.ltb (Client.currentBalance data) amount) eqn:E.
    + split; [discriminate |]. intros Hn. exfalso. apply Hn.
      destruct (Client.currentBalance data) as [|b]; [discriminate |].
      destruct amount as [|a]; [discriminate |].
      exists a, b. split; [reflexivity |]. split; [reflexivity |].
      now apply num_ltb_fin.
    + split; [| reflexivity]. intros _ (a & b & -> & Eb & Hlt).
      rewrite Eb in E. apply num_ltb_fin in Hlt. congruence.
Qed.

(** ** A row of the transaction list *)

(** X20. Every transaction row shows exactly one icon and exactly one title
    fragment, whatever its type; the title is empty only for the empty
    type, and for a type outside the six special ones it is the type with
    its first letter uppercased. *)
Theorem transaction_row_has_one_icon (type : string) :
  List.length (TransactionRow.icons type) = 1
  /\ List.length (TransactionRow.titles type) = 1
  /\ (forall title, TransactionRow.titles type = [title] ->
        (title = "" <-> type = "")
        /\ (JSText.listIncludes TransactionRow.special type = false ->
            title = TransactionRow.capitalised type)).
Proof.
  unfold TransactionRow.icons, TransactionRow.titles, TransactionRow.special,
    JSText.listIncludes, TransactionRow.shown.
  cbn [existsb].
  rewrite !(String.eqb_sym type).
  destruct (String.eqb_spec "signup_bonus" type) as [<- | H1];
    [cbn; repeat split; intros; first [congruence | discriminate] |].
  destruct (String.eqb_spec "daily_signin" type) as [<- | H2];
    [cbn; repeat split; intros; first [congruence | discriminate] |].
  destruct (String.eqb_spec "coin_purchase" type) as [<- | H3];
    [cbn; repeat split; intros; first [congruence | discriminate] |].
  destruct (String.eqb_spec "challenge_escrow" type) as [<- | H4];
    [cbn; repeat split; intros; first [congruence | discriminate] |].
  destruct (String.eqb_spec "Gifted" type) as [<- | H5];
    [cbn; repeat split; intros; first [congruence | discriminate] |].
  destruct (String.eqb_spec "Gift received" type) as [<- | H6];
    [cbn; repeat split; intros; first [congruence | discriminate] |].
  cbn. split; [reflexivity |]. split; [reflexivity |].
  intros title [= <-]. split; [| reflexivity].
  destruct type; simpl; split; congruence.
Qed.

(** ** The challenge card *)

(** X21. A Yes or No button acts exactly when it is not disabled, and then
    it passes the challenge on with its own side. It is disabled for a
    completed or ended challenge and for a participant; since [===] holds
    between two undefined values, it is also disabled for a visitor who is
    not logged in when the challenger field is absent. *)
Theorem join_button_acts_iff_enabled
    (userId : ChallengeList.JsId) (side : string) (c : CardView.Card) :
  (CardView.clickSide userId side c = None <-> CardView.disabled userId c = true)
  /\ (CardView.disabled userId c = false -> CardView.clickSide userId side c = Some (c, side))
  /\ (CardView.disabled userId c = false ->
        CardView.status c <> "completed" /\ CardView.status c <> "ended"
        /\ userId <> CardView.challenger c /\ userId <> CardView.challenged c)
  /\ (userId = ChallengeList.Undefined ->
      CardView.challenger c = ChallengeList.Undefined ->
      CardView.disabled userId c = true).
Proof.
  assert (Hrefl : forall i, ChallengeList.strictEq i i = true).
  { intros [| | s]; simpl; auto using String.eqb_refl. }
  unfold CardView.clickSide, CardView.disabled, CardView.hasJoined.
  split; [| split; [| split]].
  - destruct (String.eqb (CardView.status c) "completed"),
      (String.eqb (CardView.status c) "ended"),
      (ChallengeList.strictEq userId (CardView.challenger c)),
      (ChallengeList.strictEq userId (CardView.challenged c)); simpl;
      split; intros; congruence.
  - intros H. apply orb_false_iff in H as [H H3]. apply orb_false_iff in H as [H1 H2].
    rewrite H1, H2, H3. reflexivity.
  - intros H. apply orb_false_iff in H as [H H3]. apply orb_false_iff in H as [H1 H2].
    apply orb_false_iff in H3 as [H3 H4].
    split; [intros E; rewrite E in H1; discriminate |].
    split; [intros E; rewrite E in H2; discriminate |].
    split; intros E; rewrite <- E, Hrefl in *; discriminate.
  - intros -> ->. simpl. apply orb_true_r.
Qed.

(** X22. The badges and the status text of a card. The card renders at
    most one status badge, and the P2P badge exactly for a challenge that is
    not admin-created. A completed challenge is badged Ended whoever created
    it. The badge New is rendered exactly for a new challenge whose status is
    open, or which is admin-created with a status other than open,
    pending_admin, active and completed; such a challenge has a creation
    date less than a day before now, is not completed and has no due date at
    or before now. [getStatusBadge] itself returns New only for an
    admin-created challenge. On a challenge between two users
    [getStatusBadge] returns null exactly when the status text falls back to
    the raw status. *)
Theorem badge_and_status_text (now : Z) (c : CardView.Card) :
  List.length (CardView.statusBadges now c) <= 1
  /\ (In "P2P" (CardView.p2pBadges c) <-> CardView.adminCreated c = false)
  /\ (CardView.status c = "completed" -> CardView.statusBadges now c = ["Ended"])
  /\ (In "New" (CardView.statusBadges now c)
      <-> CardView.isNewChallenge now c = true
          /\ (CardView.status c = "open"
              \/ (CardView.adminCreated c = true
                  /\ CardView.status c <> "pending_admin"
                  /\ CardView.status c <> "active"
                  /\ CardView.status c <> "completed")))
  /\ (CardView.isNewChallenge now c = true ->
        CardView.status c <> "completed"
        /\ (exists created, CardView.createdAt c = Some created
                            /\ (now - created < 86400000)%Z)
        /\ (forall due, CardView.dueDate c = Some due -> (now < due)%Z))
  /\ (CardView.getStatusBadge now c (CardView.status c) = Some "New" ->
        CardView.adminCreated c = true /\ CardView.isNewChallenge now c = true)
  /\ (CardView.adminCreated c = false ->
        (CardView.getStatusBadge now c (CardView.status c) = None
         <-> CardView.getStatusText c = CardView.status c)).
Proof.
  split; [| split; [| split; [| split; [| split; [| split]]]]].
  - unfold CardView.statusBadges.
    destruct (String.eqb (CardView.status c) "open"); simpl; [lia |].
    destruct (CardView.getStatusBadge now c (CardView.status c)); simpl; lia.
  - unfold CardView.p2pBadges. destruct (CardView.adminCreated c); simpl.
    + split; [intros [] | discriminate].
    + split; [reflexivity | intros _; now left].
  - intros E. unfold CardView.statusBadges, CardView.getStatusBadge. rewrite E. simpl.
    destruct (CardView.adminCreated c); reflexivity.
  - unfold CardView.statusBadges.
    destruct (String.eqb_spec (CardView.status c) "open") as [E | Hopen]; simpl.
    + destruct (CardView.isNewChallenge now c); simpl.
      * split; [intros _; split; [reflexivity | left; exact E] | intros _; now left].
      * split; [intros [Hq | []]; discriminate Hq | intros [Hq _]; discriminate Hq].
    + unfold CardView.getStatusBadge.
      destruct (CardView.adminCreated c).
      * destruct (String.eqb_spec (CardView.status c) "pending_admin") as [E1 | H1]; simpl.
        { split; [intros [Hq | []]; discriminate Hq |].
          intros [_ [Hq | (_ & Hq & _)]]; contradiction. }
        destruct (String.eqb_spec (CardView.status c) "active") as [E2 | H2]; simpl.
        { split; [intros [Hq | []]; discriminate Hq |].
          intros [_ [Hq | (_ & _ & Hq & _)]]; contradiction. }
        destruct (String.eqb_spec (CardView.status c) "completed") as [E3 | H3]; simpl.
        { split; [intros [Hq | []]; discriminate Hq |].
          intros [_ [Hq | (_ & _ & _ & Hq)]]; contradiction. }
        destruct (CardView.isNewChallenge now c); simpl.
        -- split; [| intros _; now left].
           intros _. split; [reflexivity |]. right. auto.
        -- split; [intros [] | intros [Hq _]; discriminate Hq].
      * split.
        -- repeat match goal with
                  | |- context [if ?b then _ else _] => destruct b; simpl
                  end; intros Hq; simpl in Hq; intuition discriminate.
        -- intros [_ [Hq | (Hq & _)]]; [contradiction | discriminate Hq].
  - intros Hnew. unfold CardView.isNewChallenge, CardView.isEnded in Hnew.
    apply andb_true_iff in Hnew as [Hc He].
    apply negb_true_iff, orb_false_iff in He as [Hs Hd].
    split; [intros E; rewrite E in Hs; discriminate Hs |]. split.
    + destruct (CardView.createdAt c) as [created |]; [| discriminate].
      exists created. split; [reflexivity | lia].
    + intros due Hdue. rewrite Hdue in Hd. lia.
  - unfold CardView.getStatusBadge. destruct (CardView.adminCreated c).
    + destruct (String.eqb (CardView.status c) "pending_admin"
                || String.eqb (CardView.status c) "active"); [discriminate |].
      destruct (String.eqb (CardView.status c) "completed"); [discriminate |].
      destruct (CardView.isNewChallenge now c); [auto | discriminate].
    + repeat match goal with
             | |- context [if ?b then _ else _] => destruct b; try discriminate
             end.
  - unfold CardView.getStatusBadge, CardView.getStatusText. intros ->.
    destruct (String.eqb_spec (CardView.status c) "pending") as [-> | H1];
      [split; discriminate |].
    destruct (String.eqb_spec (CardView.status c) "active") as [-> | H2];
      [split; discriminate |].
    destruct (String.eqb_spec (CardView.status c) "completed") as [-> | H3];
      [split; discriminate |].
    destruct (String.eqb_spec (CardView.status c) "disputed") as [-> | H4];
      [split; discriminate |].
    destruct (String.eqb_spec (CardView.status c) "cancelled") as [-> | H5];
      [split; discriminate |].
    destruct (String.eqb_spec (CardView.status c) "pending_admin") as [-> | H6];
      [split; discriminate |].
    split; reflexivity.
Qed.

(** ** The selected tab of the challenges page *)

(** X23. After the validating effect has run the selected tab is a visible
    one, and running it again changes nothing. The tab only ever changes to
    featured. A selected pending or awaiting-resolution tab survives only
    for a logged-in user who takes part in a listed challenge of that
    kind. *)
Theorem selected_tab_is_visible
    (user : option ChallengeList.JsId) (challenges : list ChallengeList.Challenge)
    (selectedTab : string) :
  let tab := SelectedTab.validateTab user challenges selectedTab in
  SelectedTab.isTabVisible user challenges tab = true
  /\ SelectedTab.validateTab user challenges tab = tab
  /\ (tab <> selectedTab -> tab = "featured")
  /\ (tab = "pending" ->
        exists id c, user = Some id /\ In c challenges
                     /\ ChallengeList.status c = "pending"
                     /\ ChallengeList.adminCreated c = false
                     /\ (ChallengeList.challengerId c = id
                         \/ ChallengeList.challengedId c = id))
  /\ (tab = "awaiting_resolution" ->
        exists id c, user = Some id /\ In c challenges
                     /\ ChallengeList.status c = "pending_admin"
                     /\ ChallengeList.adminCreated c = true
                     /\ (ChallengeList.challengerId c = id
                         \/ ChallengeList.challengedId c = id
                         \/ ChallengeList.creatorId c = id)).
Proof.
  assert (Hseq : forall a b, ChallengeList.strictEq a b = true -> a = b).
  { intros [| | s] [| | t]; simpl; try discriminate; try reflexivity.
    intros H. apply String.eqb_eq in H. now subst. }
  assert (Hne : forall (l : list ChallengeList.Challenge) f,
            (0 <? List.length (List.filter f l))%nat = true ->
            exists c, In c l /\ f c = true).
  { intros l f H. destruct (List.filter f l) as [| c l'] eqn:E; [discriminate |].
    exists c. apply List.filter_In. rewrite E. now left. }
  cbv zeta. unfold SelectedTab.validateTab.
  destruct (SelectedTab.isTabVisible user challenges selectedTab) eqn:Hvis.
  - rewrite Hvis. split; [reflexivity |]. split; [reflexivity |].
    split; [congruence |].
    unfold SelectedTab.isTabVisible in Hvis.
    split; intros ->; simpl in Hvis; rewrite ?andb_true_r, ?andb_false_r, ?orb_false_r in Hvis.
    + apply andb_true_iff in Hvis as [Hu Hlen].
      apply bool_decide_eq_true in Hu. destruct Hu as [id ->].
      apply Hne in Hlen as (c & Hin & Hc).
      unfold ChallengeList.pendingTab in Hc. simpl in Hc.
      apply andb_true_iff in Hc as [Hc Hmine]. apply andb_true_iff in Hc as [Hst Hadm].
      exists id, c. split; [reflexivity |]. split; [exact Hin |].
      split; [now apply String.eqb_eq |]. split; [now apply negb_true_iff |].
      apply orb_true_iff in Hmine as [H | H]; apply Hseq in H; auto.
    + apply andb_true_iff in Hvis as [Hu Hlen].
      apply bool_decide_eq_true in Hu. destruct Hu as [id ->].
      apply Hne in Hlen as (c & Hin & Hc).
      unfold ChallengeList.awaitingResolutionTab in Hc. simpl in Hc.
      apply andb_true_iff in Hc as [Hc Hmine]. apply andb_true_iff in Hc as [Hst Hadm].
      exists id, c. split; [reflexivity |]. split; [exact Hin |].
      split; [now apply String.eqb_eq |]. split; [exact Hadm |].
      apply orb_true_iff in Hmine as [H | H]; [apply orb_true_iff in H as [H | H] |];
        apply Hseq in H; auto.
  - split; [reflexivity |]. split; [reflexivity |]. split; [reflexivity |].
    split; discriminate.
Qed.
